(** * Email_Scraper: a shallow embedding of [scraper.py] and of its
      single-pass sibling [.github/workflows/scraper.py]

    Conventions of the embedding.

    - A Python [str] is a [string] of bytes holding the UTF-8 encoding of the
      text.  [str.strip] and [str.split] remove the white space of
      [str.isspace], ASCII or not.  [str.lower], [unquote] and the regular
      expression classes are modelled on ASCII; the three non-ASCII tokens
      the source names are spelled as their UTF-8 bytes.
    - The libraries the scripts call are not part of the repository: a parsed
      document is the record [Html] of the queries the scripts make on it, a
      page text comes with what the parser makes of it, a document or an
      exception ([markup]); [urljoin], which raises on some references, and
      [validate_email] are parameters, and the network (aiohttp, Playwright)
      is an environment that answers requests.
    - The iteration order of a Python [set] of strings depends on the hash
      seed of the process; it is the parameter [set_iter], a function of the
      insertion sequence.
    - Console output ([print], progress bars) is left out. *)

From Stdlib Require Import String Ascii List ZArith Lia Bool Arith.
From Stdlib Require Import Permutation Sorted.
Import ListNotations.

Local Open Scope string_scope.
Local Open Scope list_scope.

Notation "s1 +++ s2" := (String.append s1 s2)
  (at level 60, right associativity).

(** ** Python string primitives *)

Module PyStr.

Definition code (c : ascii) : nat := nat_of_ascii c.

Definition between (lo hi : nat) (c : ascii) : bool :=
  (lo <=? code c)%nat && (code c <=? hi)%nat.

Definition is_upper (c : ascii) : bool := between 65 90 c.
Definition is_lower (c : ascii) : bool := between 97 122 c.
Definition is_digit (c : ascii) : bool := between 48 57 c.
Definition is_alpha (c : ascii) : bool := is_upper c || is_lower c.

(** The white space of [str.isspace] that is one byte long: TAB..CR, FS..US
    and the blank. *)
Definition is_space (c : ascii) : bool :=
  between 9 13 c || between 28 32 c.

Definition is_byte (n : nat) (c : ascii) : bool := (code c =? n)%nat.

(** U+0085 and U+00A0 in UTF-8. *)
Definition is_space2 (a b : ascii) : bool :=
  is_byte 194 a && (is_byte 133 b || is_byte 160 b).

(** U+1680, U+2000..U+200A, U+2028, U+2029, U+202F, U+205F and U+3000 in
    UTF-8. *)
Definition is_space3 (a b c : ascii) : bool :=
  (is_byte 225 a && is_byte 154 b && is_byte 128 c) ||
  (is_byte 226 a && is_byte 128 b &&
   (between 128 138 c || is_byte 168 c || is_byte 169 c || is_byte 175 c)) ||
  (is_byte 226 a && is_byte 129 b && is_byte 159 c) ||
  (is_byte 227 a && is_byte 128 b && is_byte 128 c).

(** The number of bytes of the white-space character [s] begins with, 0 when
    it begins with none. *)
Definition space_width (s : string) : nat :=
  match s with
  | String a s1 =>
      if is_space a then 1
      else
        match s1 with
        | String b s2 =>
            if is_space2 a b then 2
            else
              match s2 with
              | String c _ => if is_space3 a b c then 3 else 0
              | EmptyString => 0
              end
        | EmptyString => 0
        end
  | EmptyString => 0
  end.

Definition lower_char (c : ascii) : ascii :=
  if is_upper c then ascii_of_nat (code c + 32) else c.

(** [s.lower()] *)
Fixpoint lower (s : string) : string :=
  match s with
  | EmptyString => EmptyString
  | String c s' => String (lower_char c) (lower s')
  end.

Definition is_empty (s : string) : bool :=
  match s with EmptyString => true | _ => false end.

Fixpoint lstrip_from (skip : nat) (s : string) : string :=
  match s with
  | EmptyString => EmptyString
  | String _ s' =>
      match skip with
      | S k => lstrip_from k s'
      | O =>
          match space_width s with
          | S k => lstrip_from k s'
          | O => s
          end
      end
  end.

(** [s.lstrip()] *)
Definition lstrip (s : string) : string := lstrip_from 0 s.

(** [s.rstrip()]: what comes before the first position from which only white
    space follows. *)
Fixpoint rstrip (s : string) : string :=
  match s with
  | EmptyString => EmptyString
  | String c s' =>
      if is_empty (lstrip s) then EmptyString else String c (rstrip s')
  end.

(** [s.strip()] *)
Definition strip (s : string) : string := rstrip (lstrip s).

Fixpoint split_from (skip : nat) (s : string) : list string :=
  match s with
  | EmptyString => []
  | String c s' =>
      match skip with
      | S k => split_from k s'
      | O =>
          match space_width s with
          | S k => split_from k s'
          | O =>
              if is_empty s' || negb (space_width s' =? 0)%nat
              then String c EmptyString :: split_from 0 s'
              else
                match split_from 0 s' with
                | t :: ts => String c t :: ts
                | [] => [String c EmptyString]
                end
          end
      end
  end.

(** [s.split()]: the maximal runs of characters that are not white space. *)
Definition split_ws (s : string) : list string := split_from 0 s.

(** [s.split(sep)] for a one-character separator: never empty. *)
Fixpoint split_char (sep : ascii) (s : string) : list string :=
  match s with
  | EmptyString => [EmptyString]
  | String c s' =>
      if Ascii.eqb c sep then EmptyString :: split_char sep s'
      else
        match split_char sep s' with
        | t :: ts => String c t :: ts
        | [] => [String c EmptyString]
        end
  end.

(** [s.split(sep, 1)] *)
Fixpoint split_char_once (sep : ascii) (s : string) : list string :=
  match s with
  | EmptyString => [EmptyString]
  | String c s' =>
      if Ascii.eqb c sep then [EmptyString; s']
      else
        match split_char_once sep s' with
        | t :: ts => String c t :: ts
        | [] => [String c EmptyString]
        end
  end.

(** [sub in s] *)
Fixpoint contains (sub s : string) : bool :=
  prefix sub s ||
  match s with
  | EmptyString => false
  | String _ s' => contains sub s'
  end.

(** [s.startswith(p)] *)
Definition startswith (p s : string) : bool := prefix p s.

Fixpoint replace_from (old new : string) (skip : nat) (s : string) : string :=
  match s with
  | EmptyString => EmptyString
  | String c s' =>
      match skip with
      | S k => replace_from old new k s'
      | O =>
          if prefix old s
          then new +++ replace_from old new (String.length old - 1) s'
          else String c (replace_from old new 0 s')
      end
  end.

Fixpoint replace_empty (new s : string) : string :=
  match s with
  | EmptyString => new
  | String c s' => new +++ String c (replace_empty new s')
  end.

(** [s.replace(old, new)]: every non-overlapping occurrence, left to right. *)
Definition replace (old new s : string) : string :=
  match old with
  | EmptyString => replace_empty new s
  | _ => replace_from old new 0 s
  end.

(** [sep.join(l)] *)
Fixpoint join (sep : string) (l : list string) : string :=
  match l with
  | [] => EmptyString
  | [x] => x
  | x :: rest => x +++ sep +++ join sep rest
  end.

(** [s[n:]] *)
Fixpoint drop (n : nat) (s : string) : string :=
  match n, s with
  | S k, String _ s' => drop k s'
  | _, _ => s
  end.

Definition hex_val (c : ascii) : option nat :=
  if is_digit c then Some (code c - 48)
  else if between 97 102 c then Some (code c - 87)
  else if between 65 70 c then Some (code c - 55)
  else None.

Fixpoint unquote_from (skip : nat) (s : string) : string :=
  match s with
  | EmptyString => EmptyString
  | String c s' =>
      match skip with
      | S k => unquote_from k s'
      | O =>
          if Ascii.eqb c "%"%char then
            match s' with
            | String h1 (String h2 _) =>
                match hex_val h1, hex_val h2 with
                | Some a, Some b =>
                    String (ascii_of_nat (16 * a + b)) (unquote_from 2 s')
                | _, _ => String c (unquote_from 0 s')
                end
            | _ => String c (unquote_from 0 s')
            end
          else String c (unquote_from 0 s')
      end
  end.

(** [urllib.parse.unquote]: every [%XY] with two hexadecimal digits becomes
    the byte [XY]; any other [%] stays. *)
Definition unquote (s : string) : string := unquote_from 0 s.

(** Insertion into a sorted list, and [sorted(l)] on strings (code point
    order is byte order on UTF-8). *)
Fixpoint insert_sorted (x : string) (l : list string) : list string :=
  match l with
  | [] => [x]
  | y :: l' => if String.leb x y then x :: l else y :: insert_sorted x l'
  end.

Definition sorted (l : list string) : list string :=
  fold_right insert_sorted [] l.

End PyStr.

(** ** Regular expressions: the fragment [EMAIL_PATTERN] is written in *)

Module Re.

Inductive regex : Type :=
| Lit (s : string)                       (* a literal, compared with [eqc] *)
| Plus (cls : ascii -> bool)             (* [cls]+ , greedy *)
| AtLeast (n : nat) (cls : ascii -> bool)  (* [cls]{n,} , greedy *)
| Seq (r1 r2 : regex)
| Alt (r1 r2 : regex).

Section Matcher.
(** Character comparison: exact, or modulo ASCII case under
    [re.IGNORECASE]. *)
Variable eqc : ascii -> ascii -> bool.

Fixpoint lit (p s : string) : option string :=
  match p with
  | EmptyString => Some s
  | String a p' =>
      match s with
      | String b s' => if eqc a b then lit p' s' else None
      | EmptyString => None
      end
  end.

(** Zero or more characters of the class, longest first, giving back one
    character at a time while the continuation fails. *)
Fixpoint many (cls : ascii -> bool) (s : string)
         (k : string -> option string) : option string :=
  match s with
  | String c s' =>
      if cls c then
        match many cls s' k with
        | Some r => Some r
        | None => k s
        end
      else k s
  | EmptyString => k s
  end.

Fixpoint at_least (n : nat) (cls : ascii -> bool) (s : string)
         (k : string -> option string) : option string :=
  match n with
  | O => many cls s k
  | S n' =>
      match s with
      | String c s' => if cls c then at_least n' cls s' k else None
      | EmptyString => None
      end
  end.

(** Backtracking match at the start of [s]; the result is what is left of
    [s] after the first match in priority order. *)
Fixpoint rmatch (r : regex) (s : string)
         (k : string -> option string) : option string :=
  match r with
  | Lit p => match lit p s with Some s' => k s' | None => None end
  | Plus cls => at_least 1 cls s k
  | AtLeast n cls => at_least n cls s k
  | Seq r1 r2 => rmatch r1 s (fun s' => rmatch r2 s' k)
  | Alt r1 r2 =>
      match rmatch r1 s k with
      | Some x => Some x
      | None => rmatch r2 s k
      end
  end.

Fixpoint take (n : nat) (s : string) : string :=
  match n, s with
  | S k, String c s' => String c (take k s')
  | _, _ => EmptyString
  end.

Fixpoint findall_from (r : regex) (skip : nat) (s : string) : list string :=
  match s with
  | EmptyString => []
  | String _ s' =>
      match skip with
      | S k => findall_from r k s'
      | O =>
          match rmatch r s Some with
          | Some rest =>
              let n := String.length s - String.length rest in
              match n with
              | O => findall_from r 0 s'
              | S k => take n s :: findall_from r k s'
              end
          | None => findall_from r 0 s'
          end
      end
  end.

(** [pattern.findall(s)] for a pattern without capturing groups and
    without empty matches: the matched substrings, left to right, not
    overlapping. *)
Definition findall (r : regex) (s : string) : list string :=
  findall_from r 0 s.
End Matcher.

Definition eq_exact (a b : ascii) : bool := Ascii.eqb a b.
Definition eq_nocase (a b : ascii) : bool :=
  Ascii.eqb (PyStr.lower_char a) (PyStr.lower_char b).

Definition one_of (l : string) (c : ascii) : bool :=
  existsb (Ascii.eqb c) (list_ascii_of_string l).

(** [\w] on ASCII *)
Definition word (c : ascii) : bool :=
  PyStr.is_alpha c || PyStr.is_digit c || Ascii.eqb c "_"%char.

Fixpoint alts (l : list string) : regex :=
  match l with
  | [] => Lit EmptyString
  | [x] => Lit x
  | x :: rest => Alt (Lit x) (alts rest)
  end.

End Re.


(** ** Parsed documents

    What the scripts ask of a [BeautifulSoup] object.  [raw] is the body text
    the document was parsed from, [get_text] is [soup.get_text(separator=' ')],
    [anchors] lists the [href] values of the [a] elements that carry one, in
    document order, and [find_section tag] is [None] when [soup.find(tag)]
    finds nothing and otherwise the [href] values selected by ['a[href]'] under
    the first [tag] element. *)

Record Html : Type := mkHtml {
  raw : string;
  get_text : string;
  anchors : list string;
  find_section : string -> option (list string)
}.

(** ** Effects: requests, exceptions and traces *)

Inductive exn : Type :=
| TimeoutError
| ClientError
| UnicodeDecodeError
| PlaywrightError
| IndexError
| ValueError
| ParserRejectedMarkup
| OtherException (name : string).

(** A page as text, together with what [BeautifulSoup(text, 'html.parser')]
    makes of it: a document, or the exception the parser raises on markup it
    rejects. *)
Inductive markup : Type :=
| Parsed (h : Html)
| Rejected (source : string) (e : exn).

(** The text itself. *)
Definition markup_text (m : markup) : string :=
  match m with
  | Parsed h => raw h
  | Rejected source _ => source
  end.

(** What [await response.text()] gives. *)
Inductive body : Type :=
| BodyText (m : markup)
| BodyRaise (e : exn).

Record response : Type := mkResponse {
  status : Z;
  text : body
}.

(** What entering [session.get(url, timeout=...)] gives. *)
Inductive http_outcome : Type :=
| HttpRaise (e : exn)
| HttpOk (r : response).

(** What the Playwright block (launch, [goto], [content], close) gives. *)
Inductive render_outcome : Type :=
| RenderRaise (e : exn)
| RenderHtml (m : markup).

(** The function a GET is issued from: page discovery, or a page fetch whose
    body goes to the extractor. *)
Inductive purpose : Type := Discover | Fetch.

(** A coroutine: a finite tree of awaits.  Every constructor but [Ret] and
    [Raise] is a suspension point. *)
Inductive prog (A : Type) : Type :=
| Ret (a : A)
| Raise (e : exn)
| Get (by_ : purpose) (url : string) (k : http_outcome -> prog A)
| Render (url : string) (deep : bool) (k : render_outcome -> prog A)
| Sleep (k : prog A).

Arguments Ret {A} a.
Arguments Raise {A} e.
Arguments Get {A} by_ url k.
Arguments Render {A} url deep k.
Arguments Sleep {A} k.

(** [try: x = p  except Exception as e: on_exn  else: on_ok x] *)
Fixpoint try_except {A B : Type} (p : prog A)
         (on_ok : A -> prog B) (on_exn : exn -> prog B) : prog B :=
  match p with
  | Ret a => on_ok a
  | Raise e => on_exn e
  | Get by_ url k => Get by_ url (fun o => try_except (k o) on_ok on_exn)
  | Render url deep k => Render url deep (fun o => try_except (k o) on_ok on_exn)
  | Sleep k => Sleep (try_except k on_ok on_exn)
  end.

Definition bind {A B : Type} (p : prog A) (f : A -> prog B) : prog B :=
  try_except p f Raise.

Notation "x <- p ;; q" := (bind p (fun x => q))
  (at level 61, p at next level, right associativity).

(** [async with session.get(url, ...) as response] *)
Definition session_get (by_ : purpose) (url : string) : prog response :=
  Get by_ url (fun o =>
    match o with
    | HttpRaise e => Raise e
    | HttpOk r => Ret r
    end).

(** [await response.text()] *)
Definition response_text (r : response) : prog markup :=
  match text r with
  | BodyText m => Ret m
  | BodyRaise e => Raise e
  end.

(** The body of the [try] in [fetch_emails_playwright]. *)
Definition playwright_content (url : string) (deep : bool) : prog markup :=
  Render url deep (fun o =>
    match o with
    | RenderRaise e => Raise e
    | RenderHtml m => Ret m
    end).

(** [BeautifulSoup(text, 'html.parser')] *)
Definition BeautifulSoup (text : markup) : prog Html :=
  match text with
  | Parsed h => Ret h
  | Rejected _ e => Raise e
  end.

(** A computation without suspension point, as a coroutine. *)
Definition lift {A : Type} (x : exn + A) : prog A :=
  match x with
  | inl e => Raise e
  | inr a => Ret a
  end.

(** [for x in l: out.extend(f(x))], where [f] may raise. *)
Fixpoint collect {A B : Type} (f : A -> exn + list B) (l : list A)
  : exn + list B :=
  match l with
  | [] => inr []
  | x :: l' =>
      match f x with
      | inl e => inl e
      | inr ys =>
          match collect f l' with
          | inl e => inl e
          | inr zs => inr (ys ++ zs)
          end
      end
  end.

Inductive event : Type :=
| EvGet (by_ : purpose) (url : string) (o : http_outcome)
| EvRender (url : string) (deep : bool) (o : render_outcome)
| EvSleep.

(** The environment: a state and the answers it gives. *)
Record World : Type := mkWorld {
  wstate : Type;
  http : string -> wstate -> http_outcome * wstate;
  render : string -> bool -> wstate -> render_outcome * wstate
}.

(** The outcome of a coroutine run alone. *)
Record outcome (W A : Type) : Type := mkOutcome {
  value : exn + A;
  final : W;
  trace : list event
}.
Arguments mkOutcome {W A} value final trace.
Arguments value {W A} o.
Arguments final {W A} o.
Arguments trace {W A} o.

Section Run.
Variable Wd : World.

Fixpoint run_from {A : Type} (p : prog A) (w : wstate Wd) (tr : list event)
  : outcome (wstate Wd) A :=
  match p with
  | Ret a => mkOutcome (inr a) w tr
  | Raise e => mkOutcome (inl e) w tr
  | Get by_ url k =>
      let '(o, w') := http Wd url w in
      run_from (k o) w' (tr ++ [EvGet by_ url o])
  | Render url deep k =>
      let '(o, w') := render Wd url deep w in
      run_from (k o) w' (tr ++ [EvRender url deep o])
  | Sleep k => run_from k w (tr ++ [EvSleep])
  end.

Definition run {A : Type} (p : prog A) (w : wstate Wd)
  : outcome (wstate Wd) A := run_from p w [].

End Run.

(** ** Stateless environments

    An environment whose answer depends on the request alone: the fixture of
    a test that replays recorded responses. *)
Record Oracle : Type := mkOracle {
  answer_get : string -> http_outcome;
  answer_render : string -> bool -> render_outcome
}.

Definition world_of (o : Oracle) : World :=
  mkWorld unit
    (fun url w => (answer_get o url, w))
    (fun url deep w => (answer_render o url deep, w)).

(** What a coroutine evaluates to against an oracle. *)
Fixpoint denote {A : Type} (o : Oracle) (p : prog A) : exn + A :=
  match p with
  | Ret a => inr a
  | Raise e => inl e
  | Get _ url k => denote o (k (answer_get o url))
  | Render url deep k => denote o (k (answer_render o url deep))
  | Sleep k => denote o k
  end.

(** ** Concurrent execution: [asyncio.as_completed]

    The coroutines of a pass share one event loop.  A schedule names, step by
    step, which pending coroutine runs up to its next suspension point; a
    coroutine that has reached its [return] is delivered when the schedule
    names it, and that is the completion order.  Once the schedule is used up
    the pending coroutines finish one after the other.  An exception that
    leaves a coroutine is re-raised by [await future] in the loop of the
    caller. *)

Section Pool.
Variable Wd : World.
Variable A : Type.

Record pool_outcome : Type := mkPool {
  completed : exn + list A;
  pool_final : wstate Wd;
  pool_trace : list event
}.

Fixpoint remove_nth (n : nat) (l : list (prog A)) : list (prog A) :=
  match n, l with
  | _, [] => []
  | O, _ :: l' => l'
  | S n', x :: l' => x :: remove_nth n' l'
  end.

Fixpoint replace_nth (n : nat) (p : prog A) (l : list (prog A))
  : list (prog A) :=
  match n, l with
  | _, [] => []
  | O, _ :: l' => p :: l'
  | S n', x :: l' => x :: replace_nth n' p l'
  end.

Fixpoint drain (pending : list (prog A)) (w : wstate Wd) (tr : list event)
         (done : list A) : pool_outcome :=
  match pending with
  | [] => mkPool (inr done) w tr
  | p :: ps =>
      let o := run_from Wd p w tr in
      match value o with
      | inl e => mkPool (inl e) (final o) (trace o)
      | inr a => drain ps (final o) (trace o) (done ++ [a])
      end
  end.

Fixpoint pool (sched : list nat) (pending : list (prog A)) (w : wstate Wd)
         (tr : list event) (done : list A) : pool_outcome :=
  match sched with
  | [] => drain pending w tr done
  | i :: sched' =>
      let j := (i mod length pending)%nat in
      match nth_error pending j with
      | None => mkPool (inr done) w tr
      | Some (Ret a) => pool sched' (remove_nth j pending) w tr (done ++ [a])
      | Some (Raise e) => mkPool (inl e) w tr
      | Some (Get by_ url k) =>
          let '(o, w') := http Wd url w in
          pool sched' (replace_nth j (k o) pending) w'
               (tr ++ [EvGet by_ url o]) done
      | Some (Render url deep k) =>
          let '(o, w') := render Wd url deep w in
          pool sched' (replace_nth j (k o) pending) w'
               (tr ++ [EvRender url deep o]) done
      | Some (Sleep k) =>
          pool sched' (replace_nth j k pending) w (tr ++ [EvSleep]) done
      end
  end.

(** [for future in as_completed(tasks): result = await future; ...] collects
    the results in completion order. *)
Definition as_completed (sched : list nat) (tasks : list (prog A))
           (w : wstate Wd) : pool_outcome :=
  pool sched tasks w [] [].

End Pool.

Arguments completed {Wd A} p.
Arguments pool_final {Wd A} p.
Arguments pool_trace {Wd A} p.

(** ** Results, the result dictionary and the CSV file *)

Record DomainResult : Type := mkResult {
  line_number : Z;
  domain : string;
  emails : string;
  target_website : string
}.

Definition not_found : string := "Not found".

(** A [dict] keyed by line number, in insertion order. *)
Definition dict : Type := list (Z * DomainResult).

Fixpoint dict_set (k : Z) (v : DomainResult) (d : dict) : dict :=
  match d with
  | [] => [(k, v)]
  | (k', v') :: d' =>
      if (k =? k')%Z then (k, v) :: d' else (k', v') :: dict_set k v d'
  end.

Fixpoint dict_get (k : Z) (d : dict) : option DomainResult :=
  match d with
  | [] => None
  | (k', v') :: d' => if (k =? k')%Z then Some v' else dict_get k d'
  end.

Definition dict_values (d : dict) : list DomainResult := map snd d.

(** [{r['line_number']: r for r in results}] *)
Definition dict_of_results (results : list DomainResult) : dict :=
  fold_left (fun d r => dict_set (line_number r) r d) results [].

Fixpoint insert_by_line (r : DomainResult) (l : list DomainResult)
  : list DomainResult :=
  match l with
  | [] => [r]
  | x :: l' =>
      if (line_number r <=? line_number x)%Z then r :: l
      else x :: insert_by_line r l'
  end.

(** [sorted(l, key=lambda x: x['line_number'])]: a stable sort. *)
Definition sorted_by_line (l : list DomainResult) : list DomainResult :=
  fold_right insert_by_line [] l.

Definition row : Type := list string.

Definition header : row := ["domain"; "emails"; "target_website"].

(** [[r['domain'], r['emails'], r['target_website']]] *)
Definition row_of (r : DomainResult) : row :=
  [domain r; emails r; target_website r].

Module Csv.

Definition quote : ascii := ascii_of_nat 34.
Definition cr : ascii := ascii_of_nat 13.
Definition lf : ascii := ascii_of_nat 10.

Definition special (c : ascii) : bool :=
  Ascii.eqb c ","%char || Ascii.eqb c quote || Ascii.eqb c cr || Ascii.eqb c lf.

Fixpoint needs_quotes (s : string) : bool :=
  match s with
  | EmptyString => false
  | String c s' => special c || needs_quotes s'
  end.

Fixpoint double_quotes (s : string) : string :=
  match s with
  | EmptyString => EmptyString
  | String c s' =>
      if Ascii.eqb c quote then String c (String c (double_quotes s'))
      else String c (double_quotes s')
  end.

(** One field under [QUOTE_MINIMAL]. *)
Definition field (s : string) : string :=
  if needs_quotes s
  then String quote (double_quotes s +++ String quote EmptyString)
  else s.

(** [writer.writerow(r)] for a row of two fields or more. *)
Definition writerow (r : row) : string :=
  PyStr.join "," (map field r) +++ String cr (String lf EmptyString).

Definition contents (rows : list row) : string :=
  fold_right (fun r acc => writerow r +++ acc) EmptyString rows.

End Csv.

(** ** [scraper.py] *)

Module Scraper.

Import PyStr.

Definition MAX_RETRIES : nat := 2.

(** [EMAIL_PATTERN] as [re.VERBOSE] compiles it: the blanks written around
    [at], [à] and [dot] in the source are not part of the pattern, and no
    group captures. *)
Definition at_tokens : list string :=
  ["@"; "[at]"; "(at)"; "at"; "à"; "à"; "＠"].

Definition dot_tokens : list string :=
  ["."; "[dot]"; "(dot)"; "dot"; "。"].

Definition local_part (c : ascii) : bool := Re.word c || Re.one_of ".%+-" c.
Definition label (c : ascii) : bool := Re.word c || Ascii.eqb c "-"%char.
Definition host (c : ascii) : bool := Re.word c || Re.one_of ".-" c.

Definition EMAIL_PATTERN : Re.regex :=
  Re.Alt
    (Re.Seq (Re.Plus local_part)
       (Re.Seq (Re.alts at_tokens)
          (Re.Seq (Re.Plus label)
             (Re.Seq (Re.alts dot_tokens) (Re.Plus label)))))
    (Re.Seq (Re.Plus local_part)
       (Re.Seq (Re.Lit "@")
          (Re.Seq (Re.Plus host)
             (Re.Seq (Re.Lit ".") (Re.AtLeast 2 is_alpha))))).

(** [EMAIL_PATTERN.findall(s)] under [re.IGNORECASE] *)
Definition findall (s : string) : list string :=
  Re.findall Re.eq_nocase EMAIL_PATTERN s.

Definition cleanup_email (email : string) : string :=
  let email := unquote email in
  replace " " EmptyString
    (replace "(dot)" "."
      (replace "[dot]" "."
        (replace "。" "."
          (replace " dot " "."
            (replace "&#46;" "."
              (replace "&#64;" "@"
                (replace "＠" "@"
                  (replace " à " "@"
                    (replace " at " "@"
                      (replace "(at)" "@"
                        (replace "[at]" "@"
                          (lower email)))))))))))).

(** [match[0] or match[1]] on one element of [findall]: the element is a
    string, so [match[0]] is its first character, which is never falsy. *)
Definition first_or_second (m : string) : string :=
  match m with
  | String c _ => String c EmptyString
  | EmptyString => EmptyString
  end.

(** The body of [for a in soup.select('a[href^="mailto:" i]')]. *)
Definition mailto_candidate (href : string) : list string :=
  if contains "mailto:" (lower href) then
    let email_part :=
      hd EmptyString
        (split_char "#"
           (hd EmptyString
              (split_char "?"
                 (last (split_char_once ":" href) EmptyString)))) in
    [unquote (strip email_part)]
  else [].

Definition select_mailto (h : Html) : list string :=
  filter (fun href => startswith "mailto:" (lower href)) (anchors h).

Definition keywords : list string :=
  ["contact"; "about"; "team"; "support"; "impressum"; "privacy"].

Definition nonempty {A : Type} (l : list A) : bool :=
  match l with [] => false | _ => true end.

(** Python truthiness of [x or y] for [x : Optional[str]]. *)
Definition or_else (x : option string) (y : string) : string :=
  match x with
  | Some s => if is_empty s then y else s
  | None => y
  end.

(** The loop variables of [check_domain]; [base_url] is bound by the first
    iteration of the protocol loop. *)
Record loop_state : Type := mkState {
  st_emails : list string;
  st_target : option string;
  st_base_url : string
}.

Record report (W : Type) : Type := mkReport {
  results_pass1 : list DomainResult;
  interim_file : list row;
  to_retry : list DomainResult;
  deep_results : list DomainResult;
  final_results : dict;
  output_file : list row;
  trace_pass1 : list event;
  trace_retry : list event;
  trace_merge : list event;
  world_after : W
}.
Arguments results_pass1 {W} r.
Arguments interim_file {W} r.
Arguments to_retry {W} r.
Arguments deep_results {W} r.
Arguments final_results {W} r.
Arguments output_file {W} r.
Arguments trace_pass1 {W} r.
Arguments trace_retry {W} r.
Arguments trace_merge {W} r.
Arguments world_after {W} r.

(** How [main] ends: an exception leaves it, or it returns early having
    written nothing, or it reaches the final write. *)
Inductive main_outcome (W : Type) : Type :=
| Crashed (e : exn)
| NoDomains
| Finished (r : report W).
Arguments Crashed {W} e.
Arguments NoDomains {W}.
Arguments Finished {W} r.

(** The list comprehension that reads the input: [idx] counts every line of
    the file, [split()[0]] raises [IndexError] when nothing is left of a
    line. *)
Fixpoint read_from (idx : Z) (lines : list string)
  : exn + list (Z * string) :=
  match lines with
  | [] => inr []
  | line :: rest =>
      if is_empty (strip line) then read_from (idx + 1) rest
      else
        match split_ws (replace "https://" EmptyString
                          (replace "http://" EmptyString (strip line))) with
        | [] => inl IndexError
        | tok :: _ =>
            match read_from (idx + 1) rest with
            | inl e => inl e
            | inr ds => inr ((idx + 1, tok)%Z :: ds)
            end
        end
  end.

Definition read_domains (lines : list string) : exn + list (Z * string) :=
  read_from 0 lines.

Section Env.
(** [list(s)] / [for x in s] for a set built by inserting the given sequence. *)
Variable set_iter : list string -> list string.
(** [urljoin(base, href)]: the joined URL, or the exception it raises
    ([ValueError] on a reference such as [//[contact]). *)
Variable urljoin : string -> string -> exn + string.
(** [true] when [validate_email(e, check_deliverability=False)] returns. *)
Variable validate_email : string -> bool.

(** The tail shared by [fetch_emails] and [fetch_emails_playwright], once the
    page is parsed. *)
Definition extract_emails (h : Html) : list string :=
  let emails_text := map first_or_second (findall (get_text h)) in
  let emails_mailto := flat_map mailto_candidate (select_mailto h) in
  map cleanup_email (set_iter (emails_text ++ emails_mailto)).

(** The [try] ends with [browser.close()]: the page is parsed after it. *)
Definition fetch_emails_playwright (url : string) (deep : bool)
  : prog (list string) :=
  try_except (playwright_content url deep)
    (fun html =>
       soup <- BeautifulSoup html ;;
       Ret (extract_emails soup))
    (fun _ => Ret []).

(** The [try] ends with [await response.text()]: the page is parsed after
    it. *)
Definition fetch_emails (url : string) (deep : bool) : prog (list string) :=
  if deep then fetch_emails_playwright url true
  else
    try_except
      (response <- session_get Fetch url ;;
       if negb (status response =? 200)%Z then Raise ClientError
       else response_text response)
      (fun text =>
         soup <- BeautifulSoup text ;;
         Ret (extract_emails soup))
      (fun _ => fetch_emails_playwright url false).

(** [relevant_links.add(urljoin(base_url, href))] *)
Definition add_joined (base_url href : string) : exn + list string :=
  match urljoin base_url href with
  | inl e => inl e
  | inr full_url => inr [full_url]
  end.

Definition section_links (base_url : string) (h : Html) (tag : string)
  : exn + list string :=
  match find_section h tag with
  | Some hrefs =>
      collect (fun a =>
                 let href := strip a in
                 if is_empty href then inr [] else add_joined base_url href)
              hrefs
  | None => inr []
  end.

Definition keyword_links (base_url : string) (h : Html)
  : exn + list string :=
  collect (fun a =>
             let href := lower (strip a) in
             if existsb (fun k => contains k href) keywords
             then add_joined base_url href else inr [])
          (anchors h).

(** The insertion sequence of [relevant_links], or the exception that stops
    the two loops. *)
Definition relevant_links (base_url : string) (h : Html)
  : exn + list string :=
  match collect (section_links base_url h) ["footer"; "aside"; "nav"] with
  | inl e => inl e
  | inr from_sections =>
      match keyword_links base_url h with
      | inl e => inl e
      | inr from_keywords => inr (from_sections ++ from_keywords)
      end
  end.

(** The whole body is inside the [try]: the parser and [urljoin] raise into
    its handler. *)
Definition discover_relevant_pages (base_url : string) : prog (list string) :=
  try_except
    (response <- session_get Discover base_url ;;
     if negb (status response =? 200)%Z then Ret []
     else
       text <- response_text response ;;
       soup <- BeautifulSoup text ;;
       relevant_links <- lift (relevant_links base_url soup) ;;
       Ret (firstn 10 (set_iter relevant_links)))
    (fun pages => Ret pages)
    (fun _ => Ret []).

(** [for page in relevant_pages: ...] *)
Fixpoint pages_loop (deep : bool) (pages : list string) (st : loop_state)
  : prog loop_state :=
  match pages with
  | [] => Ret st
  | page :: rest =>
      new_emails <- fetch_emails page deep ;;
      if nonempty new_emails then
        Ret (mkState (set_iter (st_emails st ++ new_emails)) (Some page)
                     (st_base_url st))
      else pages_loop deep rest st
  end.

(** [for _ in range(n): if emails: break ...] *)
Fixpoint retry_loop (deep : bool) (pages : list string) (n : nat)
         (st : loop_state) : prog loop_state :=
  match n with
  | O => Ret st
  | S n' =>
      if nonempty (st_emails st) then Ret st
      else
        st' <- pages_loop deep pages st ;;
        retry_loop deep pages n' st'
  end.

(** [for protocol in protocols: if emails: break ...] *)
Fixpoint protocol_loop (deep : bool) (domain : string)
         (protocols : list string) (st : loop_state) : prog loop_state :=
  match protocols with
  | [] => Ret st
  | protocol :: rest =>
      if nonempty (st_emails st) then Ret st
      else
        let base_url := protocol +++ "://" +++ domain in
        relevant_pages <- discover_relevant_pages base_url ;;
        let relevant_pages :=
          if nonempty relevant_pages then relevant_pages else [base_url] in
        st' <- retry_loop deep relevant_pages (MAX_RETRIES + 1)
                 (mkState (st_emails st) (st_target st) base_url) ;;
        protocol_loop deep domain rest st'
  end.

Definition result_of (domain : string) (line_number : Z) (st : loop_state)
  : DomainResult :=
  let valid_emails := filter validate_email (set_iter (st_emails st)) in
  mkResult line_number domain
    (if nonempty valid_emails then join ", " valid_emails else not_found)
    (if nonempty (st_emails st)
     then or_else (st_target st) (st_base_url st) else EmptyString).

Definition check_domain (domain : string) (line_number : Z) (deep : bool)
  : prog DomainResult :=
  if is_empty (strip domain) then
    Ret (mkResult line_number EmptyString not_found EmptyString)
  else
    st <- protocol_loop deep domain ["https"; "http"]
            (mkState [] None EmptyString) ;;
    Ret (result_of domain line_number st).

(** The loop that follows the Pass 2 progress bar: each entry of [to_retry]
    is checked in deep mode and replaces the stored record when it found
    something.  The second component lists the records the checks returned. *)
Fixpoint merge_loop (to_retry : list DomainResult) (final_results : dict)
         (seen : list DomainResult) : prog (dict * list DomainResult) :=
  match to_retry with
  | [] => Ret (final_results, seen)
  | r :: rest =>
      deep_result <- check_domain (domain r) (line_number r) true ;;
      merge_loop rest
        (if negb (String.eqb (emails deep_result) not_found)
         then dict_set (line_number deep_result) deep_result final_results
         else final_results)
        (seen ++ [deep_result])
  end.

Definition is_not_found (r : DomainResult) : bool :=
  String.eqb (emails r) not_found.

Section Main.
Variable Wd : World.

Definition main (lines : list string) (sched1 sched2 : list nat)
           (w : wstate Wd) : main_outcome (wstate Wd) :=
  match read_domains lines with
  | inl e => Crashed e
  | inr [] => NoDomains
  | inr domains =>
      let tasks := map (fun '(line_no, d) => check_domain d line_no false)
                       domains in
      let p1 := as_completed Wd DomainResult sched1 tasks w in
      match completed p1 with
      | inl e => Crashed e
      | inr results_pass1 =>
          let interim := header :: map row_of results_pass1 in
          let to_retry := filter is_not_found results_pass1 in
          let retry_tasks :=
            map (fun r => check_domain (domain r) (line_number r) true)
                to_retry in
          let p2 :=
            if nonempty to_retry
            then as_completed Wd DomainResult sched2 retry_tasks (pool_final p1)
            else mkPool Wd DomainResult (inr []) (pool_final p1) [] in
          match completed p2 with
          | inl e => Crashed e
          | inr _ =>
              let m := run Wd (merge_loop to_retry
                                 (dict_of_results results_pass1) [])
                           (pool_final p2) in
              match value m with
              | inl e => Crashed e
              | inr (final_results, deep_results) =>
                  let sorted_final :=
                    sorted_by_line (dict_values final_results) in
                  Finished
                    (mkReport (wstate Wd) results_pass1 interim to_retry
                       deep_results final_results
                       (header :: map row_of sorted_final)
                       (pool_trace p1) (pool_trace p2) (trace m) (final m))
              end
          end
      end
  end.

End Main.
End Env.

End Scraper.

(** ** [.github/workflows/scraper.py]: the single-pass sibling *)

Module Workflow.

Import PyStr.

Definition MAX_RETRIES : nat := 2.

Definition alnum (c : ascii) : bool := is_alpha c || is_digit c.
Definition local_part (c : ascii) : bool := alnum c || Re.one_of "._%+-" c.
Definition host (c : ascii) : bool := alnum c || Re.one_of ".-" c.

Definition EMAIL_PATTERN : Re.regex :=
  Re.Seq (Re.Plus local_part)
    (Re.Seq (Re.Lit "@")
       (Re.Seq (Re.Plus host)
          (Re.Seq (Re.Lit ".") (Re.AtLeast 2 is_alpha)))).

Definition findall (s : string) : list string :=
  Re.findall Re.eq_exact EMAIL_PATTERN s.

(** The [replacements] dictionary, in insertion order. *)
Definition replacements : list (string * string) :=
  [("[at]", "@"); ("(at)", "@"); (" at ", "@"); (" à ", "@"); ("＠", "@");
   ("[dot]", "."); ("(dot)", "."); (" dot ", "."); ("。", ".")].

Definition cleanup_email (email : string) : string :=
  let email := unquote (lower email) in
  strip (fold_left (fun e '(old, new) => replace old new e) replacements email).

Definition keywords : list string :=
  ["contact"; "about"; "impressum"; "team"; "support"; "privacy"; "kontakt"].

Definition nonempty {A : Type} (l : list A) : bool :=
  match l with [] => false | _ => true end.

(** [not html] for [html : Optional[str]] *)
Definition absent (html : option markup) : bool :=
  match html with
  | None => true
  | Some text => is_empty (markup_text text)
  end.

(** The body of [for a in soup.find_all('a', href=True)] in the extractor. *)
Definition mailto_candidate (a : string) : list string :=
  let href := lower a in
  if startswith "mailto:" href then
    [unquote (strip (hd EmptyString (split_char "?" (drop 7 href))))]
  else [].

Record loop_state : Type := mkState {
  all_emails : list string;
  target : string
}.

Record report (W : Type) : Type := mkReport {
  results : list DomainResult;
  interim_file : list row;
  output_file : list row;
  run_trace : list event;
  world_after : W
}.
Arguments results {W} r.
Arguments interim_file {W} r.
Arguments output_file {W} r.
Arguments run_trace {W} r.
Arguments world_after {W} r.

Inductive main_outcome (W : Type) : Type :=
| Crashed (e : exn)
| NoDomains
| Finished (r : report W).
Arguments Crashed {W} e.
Arguments NoDomains {W}.
Arguments Finished {W} r.

(** [lines = [line.strip() for line in f if line.strip()]] *)
Definition read_lines (file : list string) : list string :=
  filter (fun l => negb (is_empty l)) (map strip file).

(** The loop that fills [domains_with_idx]; [idx] counts the kept lines. *)
Fixpoint read_from (idx : Z) (lines : list string)
  : exn + list (Z * string) :=
  match lines with
  | [] => inr []
  | line :: rest =>
      match split_ws (replace "https://" EmptyString
                        (replace "http://" EmptyString line)) with
      | [] => inl IndexError
      | clean_domain :: _ =>
          match read_from (idx + 1) rest with
          | inl e => inl e
          | inr ds => inr ((idx + 1, clean_domain)%Z :: ds)
          end
      end
  end.

Definition read_domains (file : list string) : exn + list (Z * string) :=
  read_from 0 (read_lines file).

Section Env.
Variable set_iter : list string -> list string.
Variable urljoin : string -> string -> exn + string.
Variable validate_email : string -> bool.

(** [by_] records the caller; the request does not depend on it. *)
Definition fetch_page (by_ : purpose) (url : string) : prog (option markup) :=
  try_except
    (resp <- session_get by_ url ;;
     if (status resp =? 200)%Z then
       text <- response_text resp ;; Ret (Some text)
     else Ret None)
    (fun html => Ret html)
    (fun e =>
       match e with
       | ClientError | TimeoutError | UnicodeDecodeError => Ret None
       | _ => Raise e
       end).

(** What [extract_emails_from_html] does with the parsed page. *)
Definition scan (soup : Html) : list string :=
  let found := findall (get_text soup)
               ++ flat_map mailto_candidate (anchors soup) in
  let cleaned := map cleanup_email (set_iter found) in
  let valid := filter validate_email cleaned in
  set_iter valid.

(** No handler surrounds the parser. *)
Definition extract_emails_from_html (html : option markup)
  : prog (list string) :=
  match html with
  | None => Ret []
  | Some text =>
      if is_empty (markup_text text) then Ret []
      else
        soup <- BeautifulSoup text ;;
        Ret (scan soup)
  end.

(** [links.add(urljoin(base_url, a['href']))] *)
Definition add_joined (base_url href : string) : exn + list string :=
  match urljoin base_url href with
  | inl e => inl e
  | inr full => inr [full]
  end.

(** The insertion sequence of [links], or the exception that stops the
    loop. *)
Definition links (base_url : string) (soup : Html) : exn + list string :=
  match collect (fun a =>
                   let href := lower a in
                   if existsb (fun k => contains k href) keywords
                   then add_joined base_url a else inr [])
                (anchors soup) with
  | inl e => inl e
  | inr found => inr (found ++ [base_url])
  end.

(** No handler surrounds the parser and [urljoin]. *)
Definition get_relevant_pages (base_url : string) : prog (list string) :=
  html <- fetch_page Discover base_url ;;
  match html with
  | Some text =>
      if is_empty (markup_text text) then Ret [base_url]
      else
        soup <- BeautifulSoup text ;;
        links <- lift (links base_url soup) ;;
        Ret (firstn 5 (set_iter links))
  | None => Ret [base_url]
  end.

(** [for attempt in range(n): if all_emails: break ...] *)
Fixpoint attempt_loop (page_url : string) (n : nat) (st : loop_state)
  : prog loop_state :=
  match n with
  | O => Ret st
  | S n' =>
      if nonempty (all_emails st) then Ret st
      else
        Sleep
          (html <- fetch_page Fetch page_url ;;
           emails <- extract_emails_from_html html ;;
           if nonempty emails
           then Ret (mkState (all_emails st ++ emails) page_url)
           else attempt_loop page_url n' st)
  end.

(** [for page_url in pages: if all_emails: break ...] *)
Fixpoint page_loop (pages : list string) (st : loop_state) : prog loop_state :=
  match pages with
  | [] => Ret st
  | page_url :: rest =>
      if nonempty (all_emails st) then Ret st
      else
        st' <- attempt_loop page_url (MAX_RETRIES + 1) st ;;
        page_loop rest st'
  end.

(** [for protocol in protocols: if all_emails: break ...] *)
Fixpoint protocol_loop (domain : string) (protocols : list string)
         (st : loop_state) : prog loop_state :=
  match protocols with
  | [] => Ret st
  | protocol :: rest =>
      if nonempty (all_emails st) then Ret st
      else
        let base_url := protocol +++ domain in
        pages <- get_relevant_pages base_url ;;
        st' <- page_loop pages st ;;
        protocol_loop domain rest st'
  end.

Definition result_of (domain : string) (line_number : Z) (st : loop_state)
  : DomainResult :=
  let found := nonempty (all_emails st) in
  mkResult line_number domain
    (if found then join ", " (sorted (set_iter (all_emails st)))
     else not_found)
    (if is_empty (target st)
     then (if found then "https://" +++ domain else EmptyString)
     else target st).

Definition check_domain (domain : string) (line_number : Z)
  : prog DomainResult :=
  let domain := strip domain in
  if is_empty domain then
    Ret (mkResult line_number EmptyString not_found EmptyString)
  else
    st <- protocol_loop domain ["https://"; "http://"]
            (mkState [] EmptyString) ;;
    Ret (result_of domain line_number st).

Section Main.
Variable Wd : World.

Definition main (file : list string) (sched : list nat) (w : wstate Wd)
  : main_outcome (wstate Wd) :=
  match read_domains file with
  | inl e => Crashed e
  | inr [] => NoDomains
  | inr domains_with_idx =>
      let tasks := map (fun '(line_no, d) => check_domain d line_no)
                       domains_with_idx in
      let p := as_completed Wd DomainResult sched tasks w in
      match completed p with
      | inl e => Crashed e
      | inr results =>
          Finished
            (mkReport (wstate Wd) results
               (header :: map row_of results)
               (header :: map row_of (sorted_by_line results))
               (pool_trace p) (pool_final p))
      end
  end.

End Main.
End Env.

End Workflow.

(** ** Fixtures: concrete environments for evaluating the scripts *)

Module Fixtures.

Import PyStr.

(** A page with the given text and anchors and no footer, aside or nav. *)
Definition page (body_text : string) (hrefs : list string) : Html :=
  mkHtml body_text body_text hrefs (fun _ => None).

(** A page whose anchors all sit in its footer. *)
Definition page_with_footer (body_text : string) (hrefs : list string) : Html :=
  mkHtml body_text body_text hrefs
    (fun tag => if String.eqb tag "footer" then Some hrefs else None).

Definition ok (h : Html) : http_outcome :=
  HttpOk (mkResponse 200 (BodyText (Parsed h))).

(** A 200 response whose text the parser rejects. *)
Definition malformed (source : string) : http_outcome :=
  HttpOk (mkResponse 200 (BodyText (Rejected source ParserRejectedMarkup))).

Fixpoint lookup {B : Type} (url : string) (table : list (string * B))
  : option B :=
  match table with
  | [] => None
  | (u, b) :: rest => if String.eqb url u then Some b else lookup url rest
  end.

(** A stateless site map: a URL that is not listed refuses the connection
    and fails to render. *)
Definition recorded (pages : list (string * http_outcome))
           (rendered : list (string * render_outcome)) : Oracle :=
  mkOracle
    (fun url =>
       match lookup url pages with
       | Some o => o
       | None => HttpRaise ClientError
       end)
    (fun url _ =>
       match lookup url rendered with
       | Some o => o
       | None => RenderRaise PlaywrightError
       end).

Definition site (pages : list (string * http_outcome))
           (rendered : list (string * render_outcome)) : World :=
  world_of (recorded pages rendered).

(** An environment where nothing answers. *)
Definition unreachable : World := site [] [].

Fixpoint dedup (l : list string) : list string :=
  match l with
  | [] => []
  | x :: l' => x :: filter (fun y => negb (String.eqb x y)) (dedup l')
  end.

(** Two iteration orders a set may have: first insertion first, and the
    reverse. *)
Definition insertion_order (l : list string) : list string := dedup l.
Definition reverse_order (l : list string) : list string := rev (dedup l).

(** [urljoin] on the shapes the fixtures use: an absolute reference, a path
    under a base that has none, or a reference that opens an IPv6 host and
    does not close it. *)
Definition urljoin (base href : string) : exn + string :=
  if startswith "//[" href && negb (contains "]" href) then inl ValueError
  else if contains "://" href then inr href
  else if startswith "/" href then inr (base +++ href)
  else inr (base +++ "/" +++ href).

(** A stand-in for the syntax check: one [@], a non-empty local part and a
    dotted domain. *)
Definition validate_email (e : string) : bool :=
  match split_char "@" e with
  | [local; dom] =>
      negb (is_empty local) &&
      (2 <=? length (split_char "." dom))%nat &&
      forallb (fun l => negb (is_empty l)) (split_char "." dom)
  | _ => false
  end.

(** The scenario of the specification: one site that publishes an address
    on its home page, one blank line, one host that never answers. *)
Definition example_site : World :=
  site [("https://example.com",
         ok (page "hello" ["mailto:info@example.com"]))] [].

Definition example_lines : list string :=
  ["example.com"; EmptyString; "nomail.test"].

(** A home page whose footer links to a contact page. *)
Definition footer_site : World :=
  site [("https://example.com",
         ok (page_with_footer "welcome" ["/contact"]))] [].

(** A home page with five links that match a keyword. *)
Definition links_site : World :=
  site [("https://example.com",
         ok (page "welcome"
               ["/contact"; "/about"; "/team"; "/support"; "/privacy"]))] [].

(** A home page that prints an address in its text and has no mailto link. *)
Definition text_only_site : World :=
  site [("https://example.com",
         ok (page "write to info@example.com" []))] [].

(** A home page with two mailto links. *)
Definition two_mailto_site : World :=
  site [("https://example.com",
         ok (page "hello"
               ["mailto:b@example.com"; "mailto:a@example.com"]))] [].

(** A site whose address only shows once the page is rendered, next to the
    two hosts of the scenario. *)
Definition rendered_site : World :=
  site [("https://example.com",
         ok (page "hello" ["mailto:info@example.com"]));
        ("https://acme.org", ok (page "loading" []))]
       [("https://acme.org",
         RenderHtml (Parsed (page "contact" ["mailto:hi@acme.org"])))].

Definition rendered_lines : list string :=
  ["example.com"; "acme.org"; "nomail.test"].

(** A marked section that is not CDATA: [html.parser] gives up on it and
    BeautifulSoup raises [ParserRejectedMarkup]. *)
Definition rejected_text : string := "<![foo[x]]>".

(** A home page whose text the parser rejects. *)
Definition rejected_site : World :=
  site [("https://example.com", malformed rejected_text)] [].

(** A home page that does not answer and renders to such a text. *)
Definition rejected_render_site : World :=
  site []
       [("https://example.com",
         RenderHtml (Rejected rejected_text ParserRejectedMarkup))].

(** A home page with a keyword link that [urljoin] refuses. *)
Definition bad_link_site : World :=
  site [("https://example.com", ok (page "welcome" ["//[contact"]))] [].

(** A line made of an ideographic space (U+3000) between two hosts. *)
Definition spaced_lines : list string :=
  ["example.com"; "　"; "nomail.test"].

End Fixtures.

(** ** Specification vocabulary *)

(** A set iterates over each of its elements once. *)
Definition set_order (set_iter : list string -> list string) : Prop :=
  forall l, NoDup (set_iter l) /\ forall x, In x (set_iter l) <-> In x l.

(** Weakest precondition over every environment whose answers satisfy [HO]
    and [RO]: [Q] holds of the value returned and the trace so far, [E] of an
    exception that leaves the coroutine. *)
Section Logic.
Variable HO : http_outcome -> Prop.
Variable RO : render_outcome -> Prop.

Fixpoint wp {A : Type} (p : prog A) (Q : A -> list event -> Prop)
         (E : exn -> list event -> Prop) (tr : list event) : Prop :=
  match p with
  | Ret a => Q a tr
  | Raise e => E e tr
  | Get by_ url k => forall o, HO o -> wp (k o) Q E (tr ++ [EvGet by_ url o])
  | Render url deep k =>
      forall o, RO o -> wp (k o) Q E (tr ++ [EvRender url deep o])
  | Sleep k => wp k Q E (tr ++ [EvSleep])
  end.

(** Every leaf returns a value satisfying [P] or raises, and it raises only
    if [F]. *)
Definition ends {A : Type} (F : Prop) (P : A -> Prop) (p : prog A) : Prop :=
  wp p (fun a _ => P a) (fun _ _ => F) [].

(** Every leaf returns a value satisfying [P]; no exception escapes. *)
Definition returns {A : Type} (P : A -> Prop) (p : prog A) : Prop :=
  ends False P p.

(** The environment answers within [HO] and [RO]. *)
Definition answers (Wd : World) : Prop :=
  (forall url w, HO (fst (http Wd url w))) /\
  (forall url deep w, RO (fst (render Wd url deep w))).

End Logic.

Definition any_http : http_outcome -> Prop := fun _ => True.
Definition any_render : render_outcome -> Prop := fun _ => True.

(** A GET that gives the caller no document: the request raised, the status
    is not 200, or the body did not decode. *)
Definition failed_get (o : http_outcome) : bool :=
  match o with
  | HttpRaise _ => true
  | HttpOk r =>
      negb (status r =? 200)%Z ||
      match text r with BodyRaise _ => true | BodyText _ => false end
  end.

Definition failed_render (o : render_outcome) : bool :=
  match o with RenderRaise _ => true | RenderHtml _ => false end.

(** An event that delivers no document (a pause delivers none). *)
Definition failed (ev : event) : bool :=
  match ev with
  | EvGet _ _ o => failed_get o
  | EvRender _ _ o => failed_render o
  | EvSleep => true
  end.

Definition url_of (ev : event) : string :=
  match ev with
  | EvGet _ url _ => url
  | EvRender url _ _ => url
  | EvSleep => EmptyString
  end.

(** The text a GET delivers: the body of a 200 response that decodes. *)
Definition delivered_text (o : http_outcome) : option markup :=
  match o with
  | HttpOk r =>
      if (status r =? 200)%Z then
        match text r with BodyText m => Some m | BodyRaise _ => None end
      else None
  | HttpRaise _ => None
  end.

Definition parsed (m : markup) : option Html :=
  match m with Parsed h => Some h | Rejected _ _ => None end.

(** The exception the parser raises on the text. *)
Definition unparsed (m : markup) : option exn :=
  match m with Parsed _ => None | Rejected _ e => Some e end.

(** The document a GET delivers: the delivered text, parsed. *)
Definition delivered (o : http_outcome) : option Html :=
  match delivered_text o with
  | Some m => parsed m
  | None => None
  end.

(** The document an event hands to the extractor, if any: the body of a
    successful page fetch, or a rendered page.  A discovery request feeds the
    link collector only. *)
Definition document (ev : event) : option Html :=
  match ev with
  | EvGet Fetch _ o => delivered o
  | EvRender _ _ (RenderHtml m) => parsed m
  | _ => None
  end.

(** The exception with which the parser stops [fetch_emails] of [scraper.py]
    on what an event delivers: the page is parsed outside the [try].  In
    [discover_relevant_pages] the parser runs inside it. *)
Definition rejected (ev : event) : option exn :=
  match ev with
  | EvGet Fetch _ o =>
      match delivered_text o with
      | Some m => unparsed m
      | None => None
      end
  | EvRender _ _ (RenderHtml m) => unparsed m
  | _ => None
  end.

(** Answers whose text, if any, the parser accepts. *)
Definition parses_http (o : http_outcome) : Prop :=
  match delivered_text o with
  | Some m => unparsed m = None
  | None => True
  end.

Definition parses_render (o : render_outcome) : Prop :=
  match o with
  | RenderHtml m => unparsed m = None
  | RenderRaise _ => True
  end.

(** The exceptions [fetch_page] of the sibling script catches. *)
Definition caught (e : exn) : bool :=
  match e with
  | ClientError | TimeoutError | UnicodeDecodeError => true
  | _ => false
  end.

Definition caught_http (o : http_outcome) : Prop :=
  match o with
  | HttpRaise e => caught e = true
  | HttpOk r =>
      match text r with BodyRaise e => caught e = true | BodyText _ => True end
  end.

(** Answers whose document has no link on which [urljoin] raises. *)
Definition joins_http (urljoin : string -> string -> exn + string)
           (o : http_outcome) : Prop :=
  match delivered o with
  | Some h =>
      forall base href,
        In href (anchors h) -> exists full, urljoin base href = inr full
  | None => True
  end.

(** Answers on which neither [fetch_page] of the sibling script, nor its
    parser, nor its link collector raises. *)
Definition harmless_http (urljoin : string -> string -> exn + string)
           (o : http_outcome) : Prop :=
  caught_http o /\ parses_http o /\ joins_http urljoin o.

Definition key (r : DomainResult) : Z * string := (line_number r, domain r).

Definition found (r : DomainResult) : bool :=
  negb (String.eqb (emails r) not_found).

(** How many times the trace opens a check of [d]: every check of a
    non-blank host begins with the discovery request for its https URL. *)
Definition opens (d : string) (ev : event) : bool :=
  match ev with
  | EvGet Discover url _ => String.eqb url ("https://" +++ d)
  | _ => false
  end.

Definition checks_of (d : string) (tr : list event) : nat :=
  length (filter (opens d) tr).

(** Requests for which the headless browser was driven in deep mode. *)
Definition deep_renders (url : string) (tr : list event) : nat :=
  length (filter (fun ev =>
                    match ev with
                    | EvRender u true _ => String.eqb u url
                    | _ => false
                    end) tr).

(** The 1-based positions of the lines that are not blank. *)
Fixpoint nonblank_from (idx : Z) (lines : list string) : list Z :=
  match lines with
  | [] => []
  | line :: rest =>
      if PyStr.is_empty (PyStr.strip line) then nonblank_from (idx + 1) rest
      else (idx + 1)%Z :: nonblank_from (idx + 1) rest
  end.

(** The candidates [scraper.py] extracts from what an event delivers. *)
Definition candidates (set_iter : list string -> list string) (ev : event)
  : list string :=
  match document ev with
  | Some h => Scraper.extract_emails set_iter h
  | None => []
  end.

(** The validated addresses the sibling script extracts from what an event
    delivers. *)
Definition validated (set_iter : list string -> list string)
           (validate_email : string -> bool) (ev : event) : list string :=
  match document ev with
  | Some h =>
      if PyStr.is_empty (raw h) then []
      else Workflow.scan set_iter validate_email h
  | None => []
  end.

(** No event of the trace yields a candidate. *)
Definition quiet (yield : event -> list string) (tr : list event) : Prop :=
  Forall (fun ev => yield ev = []) tr.

(** The trace ends with the first event that yields something. *)
Definition ends_with_first (yield : event -> list string) (tr : list event)
           (ev : event) : Prop :=
  exists pre, tr = pre ++ [ev] /\ quiet yield pre /\ yield ev <> [].

(** The invariant of the loops of [Scraper.check_domain]: either nothing was
    found and no event yielded a candidate, or the last event is the first
    that did and its URL is the recorded page. *)
Definition searching (set_iter : list string -> list string)
           (st : Scraper.loop_state) (tr : list event) : Prop :=
  (Scraper.st_emails st = [] /\ quiet (candidates set_iter) tr) \/
  (Scraper.st_emails st <> [] /\
   exists ev, ends_with_first (candidates set_iter) tr ev /\
              Scraper.st_target st = Some (url_of ev) /\
              Scraper.st_emails st = set_iter (candidates set_iter ev)).

(** The parser stopped the check with [e] on the text its last event
    delivered; no event before it yielded a candidate. *)
Definition stopped (set_iter : list string -> list string) (e : exn)
           (tr : list event) : Prop :=
  exists pre ev,
    tr = pre ++ [ev] /\ quiet (candidates set_iter) pre /\
    rejected ev = Some e.

(** The same for [Workflow.check_domain]. *)
Definition searching_w (set_iter : list string -> list string)
           (validate_email : string -> bool)
           (st : Workflow.loop_state) (tr : list event) : Prop :=
  (Workflow.all_emails st = [] /\ Workflow.target st = EmptyString /\
   quiet (validated set_iter validate_email) tr) \/
  (Workflow.all_emails st <> [] /\
   exists ev, ends_with_first (validated set_iter validate_email) tr ev /\
              Workflow.target st = url_of ev /\
              Workflow.all_emails st = validated set_iter validate_email ev).

(** A token of [str.split()]: not empty and free of white space. *)
Fixpoint no_space (s : string) : bool :=
  match s with
  | EmptyString => true
  | String c s' => (PyStr.space_width s =? 0)%nat && no_space s'
  end.

Definition hostname (s : string) : Prop :=
  s <> EmptyString /\ no_space s = true.

(** How an entry of the final dictionary relates to the Pass 1 record of its
    line: same line and host, and either that very record, or a record a deep
    check returned, with addresses, for a line Pass 1 had nothing for. *)
Definition merged (seen : list DomainResult) (kv : Z * DomainResult)
           (r : DomainResult) : Prop :=
  fst kv = line_number r /\ key (snd kv) = key r /\
  (snd kv = r \/
   (In (snd kv) seen /\ found (snd kv) = true /\ found r = false)).

(** Line numbers grow strictly along the list. *)
Definition increasing (ds : list (Z * string)) : Prop :=
  StronglySorted (fun a b => (fst a < fst b)%Z) ds.

(** Records ordered by line number. *)
Definition by_line (l : list DomainResult) : Prop :=
  StronglySorted (fun a b => (line_number a <= line_number b)%Z) l.

(** A host made of blanks only (or of nothing). *)
Fixpoint all_space (s : string) : bool :=
  match s with
  | EmptyString => true
  | String c s' => PyStr.is_space c && all_space s'
  end.

(** Counting events along every path of a coroutine.  In [emits P p n R X]
    the number [n] is a budget: whatever the answers, each event of [p] that
    satisfies [P] takes one from it, it never runs short, and what is left of
    it when [p] returns [a] (raises [e]) satisfies [R a] ([X e]). *)
Definition weight (P : event -> bool) (ev : event) : nat :=
  if P ev then 1%nat else 0%nat.

Fixpoint emits {A : Type} (P : event -> bool) (p : prog A) (n : nat)
         (R : A -> nat -> Prop) (X : exn -> nat -> Prop) : Prop :=
  match p with
  | Ret a => R a n
  | Raise e => X e n
  | Get by_ url k =>
      forall o, exists m,
        n = (weight P (EvGet by_ url o) + m)%nat /\ emits P (k o) m R X
  | Render url deep k =>
      forall o, exists m,
        n = (weight P (EvRender url deep o) + m)%nat /\ emits P (k o) m R X
  | Sleep k =>
      exists m, n = (weight P EvSleep + m)%nat /\ emits P k m R X
  end.

(** When [p] returns, it has produced exactly [n] events that satisfy
    [P]; when it raises, at most [n]. *)
Definition emits_exactly {A : Type} (P : event -> bool) (n : nat)
           (p : prog A) : Prop :=
  emits P p n (fun _ m => m = 0%nat) (fun _ _ => True).

Definition count (P : event -> bool) (tr : list event) : nat :=
  length (filter P tr).

(** How many records of the list are about host [d]. *)
Definition hosts_equal_to (d : string) (l : list DomainResult) : nat :=
  length (filter (fun r => String.eqb (domain r) d) l).

(** The file [main] leaves, if it reaches the final write. *)
Definition written {W : Type} (m : Scraper.main_outcome W)
  : option (list row) :=
  match m with
  | Scraper.Finished rep => Some (Scraper.output_file rep)
  | _ => None
  end.

Section Settled.
Variable set_iter : list string -> list string.
Variable urljoin : string -> string -> exn + string.
Variable validate_email : string -> bool.
Variable o : Oracle.

(** The record of one check against the oracle. *)
Definition checked (d : string) (ln : Z) (deep : bool) : DomainResult :=
  match denote o (Scraper.check_domain set_iter urljoin validate_email
                    d ln deep) with
  | inr r => r
  | inl _ => mkResult ln d not_found EmptyString
  end.

(** Whether the check returns against the oracle; the parser can stop it. *)
Definition completes (d : string) (ln : Z) (deep : bool) : bool :=
  match denote o (Scraper.check_domain set_iter urljoin validate_email
                    d ln deep) with
  | inr _ => true
  | inl _ => false
  end.

(** The record a line ends with: its Pass 1 record, or the deep one when
    Pass 1 found nothing and the deep check did. *)
Definition settle (r : DomainResult) : DomainResult :=
  if Scraper.is_not_found r then
    let deep_result := checked (domain r) (line_number r) true in
    if found deep_result then deep_result else r
  else r.

(** One turn of the merge loop, evaluated against the oracle. *)
Definition merge_step (d : dict) (r : DomainResult) : dict :=
  let deep_result := checked (domain r) (line_number r) true in
  if found deep_result
  then dict_set (line_number deep_result) deep_result d else d.

(** An entry of the dictionary while records of [rest] wait for their deep
    check: settled, or still the Pass 1 record of a waiting line. *)
Definition pending (rest : list DomainResult) (kv : Z * DomainResult)
           (r : DomainResult) : Prop :=
  fst kv = line_number r /\
  (snd kv = settle r \/ (snd kv = r /\ In r rest)).

(** The file of a run over the hosts [ds] against the oracle, written when
    every check of the two passes returns. *)
Definition settled_file (ds : list (Z * string)) : option (list row) :=
  let vs := map (fun '(line_no, h) => checked h line_no false) ds in
  if forallb (fun '(line_no, h) => completes h line_no false) ds
     && forallb (fun r => completes (domain r) (line_number r) true)
                (filter Scraper.is_not_found vs)
  then Some (header :: map row_of (sorted_by_line (map settle vs)))
  else None.

End Settled.

(** ** Vocabulary of the further properties *)

(** The kinds of event a trace is made of. *)
Inductive kind : Type :=
| DiscoveryGet | PageGet | ShallowRender | DeepRender | Pause.

Definition kind_of (ev : event) : kind :=
  match ev with
  | EvGet Discover _ _ => DiscoveryGet
  | EvGet Fetch _ _ => PageGet
  | EvRender _ false _ => ShallowRender
  | EvRender _ true _ => DeepRender
  | EvSleep => Pause
  end.

Definition kind_eqb (a b : kind) : bool :=
  match a, b with
  | DiscoveryGet, DiscoveryGet | PageGet, PageGet
  | ShallowRender, ShallowRender | DeepRender, DeepRender
  | Pause, Pause => true
  | _, _ => false
  end.

(** The events of kind [k]. *)
Definition of_kind (k : kind) (ev : event) : bool := kind_eqb (kind_of ev) k.

(** Whatever the answers, [p] produces at most [n] events that satisfy [P],
    and a value it returns satisfies [Q]. *)
Definition at_most {A : Type} (P : event -> bool) (n : nat) (Q : A -> Prop)
           (p : prog A) : Prop :=
  emits P p n (fun a _ => Q a) (fun _ _ => True).

(** A trace made of discovery requests and of pairs of a pause followed by a
    page request, and of nothing else. *)
Fixpoint paced (tr : list event) : bool :=
  match tr with
  | [] => true
  | EvGet Discover _ _ :: rest => paced rest
  | EvSleep :: EvGet Fetch _ _ :: rest => paced rest
  | _ => false
  end.

(** What the tail of [fetch_emails] makes of a page text: the candidates of
    the document, or the exception of the parser. *)
Definition scanned (set_iter : list string -> list string) (m : markup)
  : exn + list string :=
  match m with
  | Parsed h => inr (Scraper.extract_emails set_iter h)
  | Rejected _ e => inl e
  end.

(** What [fetch_emails_playwright] returns or raises for what the browser
    gave. *)
Definition rendered (set_iter : list string -> list string)
           (o : render_outcome) : exn + list string :=
  match o with
  | RenderHtml m => scanned set_iter m
  | RenderRaise _ => inr []
  end.

(** An event that delivers no text the parser rejects. *)
Definition accepted (ev : event) : bool :=
  match rejected ev with
  | Some _ => false
  | None => true
  end.

(** A string of at most one byte. *)
Definition short (s : string) : bool := (String.length s <=? 1)%nat.

(** A document without mailto anchor, or no document. *)
Definition no_mailto (ev : event) : bool :=
  match document ev with
  | Some h => negb (Scraper.nonempty (Scraper.select_mailto h))
  | None => true
  end.

(** The test [if line.strip()] fails: the line is skipped. *)
Definition blank (line : string) : bool := PyStr.is_empty (PyStr.strip line).

(** A line that is kept and leaves no token once the schemes are removed:
    [split()[0]] raises on it. *)
Definition unreadable (line : string) : bool :=
  negb (blank line) &&
  negb (Scraper.nonempty
          (PyStr.split_ws
             (PyStr.replace "https://" EmptyString
                (PyStr.replace "http://" EmptyString (PyStr.strip line))))).

(** Every character of the string satisfies [P]. *)
Fixpoint every (P : ascii -> bool) (s : string) : bool :=
  match s with
  | EmptyString => true
  | String c s' => P c && every P s'
  end.

(** The characters of an address written plainly: lower-case letters,
    digits and the separators of an address. *)
Definition plain (c : ascii) : bool :=
  PyStr.is_lower c || PyStr.is_digit c || Re.one_of "@._+-" c.

(** Neither a blank nor an upper-case letter. *)
Definition tidy (c : ascii) : bool :=
  negb (PyStr.is_upper c) && negb (Ascii.eqb c " "%char).

(** The string does not hold the character [sep]. *)
Definition free_of (sep : ascii) (s : string) : bool :=
  every (fun c => negb (Ascii.eqb c sep)) s.

(** The string is empty or begins with one of the characters of [l]. *)
Definition opens_with (l : string) (s : string) : bool :=
  match s with
  | EmptyString => true
  | String c _ => Re.one_of l c
  end.

(** Strings in ascending order, each at most the next. *)
Definition ascending (l : list string) : Prop :=
  Sorted (fun a b => String.leb a b = true) l.

(** The candidates the sibling's extractor collects from a document before
    it normalises them: the matches of the pattern in the text and what the
    mailto links hold. *)
Definition found_in (h : Html) : list string :=
  Workflow.findall (get_text h) ++ flat_map Workflow.mailto_candidate (anchors h).

(** Where a link that [discover_relevant_pages] collects comes from: an
    anchor of the first footer, aside or nav element, joined as it is
    written, or an anchor whose lower-cased reference holds a keyword, joined
    in lower case. *)
Definition collected (urljoin : string -> string -> exn + string)
           (base_url : string) (h : Html) (p : string) : Prop :=
  (exists tag hrefs a,
      In tag ["footer"; "aside"; "nav"] /\ find_section h tag = Some hrefs /\
      In a hrefs /\ PyStr.strip a <> EmptyString /\
      urljoin base_url (PyStr.strip a) = inr p) \/
  (exists a,
      In a (anchors h) /\
      existsb (fun k => PyStr.contains k (PyStr.lower (PyStr.strip a)))
              Scraper.keywords = true /\
      urljoin base_url (PyStr.lower (PyStr.strip a)) = inr p).

(** The same for [get_relevant_pages] of the sibling: the base URL, or an
    anchor whose lower-cased reference holds a keyword, joined as it is
    written. *)
Definition collected_w (urljoin : string -> string -> exn + string)
           (base_url : string) (h : Html) (p : string) : Prop :=
  p = base_url \/
  (exists a,
      In a (anchors h) /\
      existsb (fun k => PyStr.contains k (PyStr.lower a))
              Workflow.keywords = true /\
      urljoin base_url a = inr p).

(** The file [main] of the sibling leaves, if it reaches the final write. *)
Definition written_w {W : Type} (m : Workflow.main_outcome W)
  : option (list row) :=
  match m with
  | Workflow.Finished rep => Some (Workflow.output_file rep)
  | _ => None
  end.

(** The record of one check of the sibling against an oracle. *)
Definition checked_w (set_iter : list string -> list string)
           (urljoin : string -> string -> exn + string)
           (validate_email : string -> bool) (o : Oracle)
           (d : string) (ln : Z) : DomainResult :=
  match denote o (Workflow.check_domain set_iter urljoin validate_email
                    d ln) with
  | inr r => r
  | inl _ => mkResult ln (PyStr.strip d) not_found EmptyString
  end.

(** Whether that check returns. *)
Definition completes_w (set_iter : list string -> list string)
           (urljoin : string -> string -> exn + string)
           (validate_email : string -> bool) (o : Oracle)
           (d : string) (ln : Z) : bool :=
  match denote o (Workflow.check_domain set_iter urljoin validate_email
                    d ln) with
  | inr _ => true
  | inl _ => false
  end.

(** The file of a run of the sibling over the hosts [ds] against the oracle,
    written when every check returns. *)
Definition settled_file_w (set_iter : list string -> list string)
           (urljoin : string -> string -> exn + string)
           (validate_email : string -> bool) (o : Oracle)
           (ds : list (Z * string)) : option (list row) :=
  if forallb (fun '(line_no, h) =>
                completes_w set_iter urljoin validate_email o h line_no) ds
  then Some (header ::
             map row_of
               (sorted_by_line
                  (map (fun '(line_no, h) =>
                          checked_w set_iter urljoin validate_email o
                            h line_no) ds)))
  else None.

(** * Proofs *)

(** ** The program logic *)

Section LogicFacts.
Variable HO : http_outcome -> Prop.
Variable RO : render_outcome -> Prop.

Lemma wp_mono {A : Type} (p : prog A) :
  forall (Q Q' : A -> list event -> Prop) (E E' : exn -> list event -> Prop) tr,
    (forall a t, Q a t -> Q' a t) ->
    (forall e t, E e t -> E' e t) ->
    wp HO RO p Q E tr -> wp HO RO p Q' E' tr.
Proof.
  induction p as [a | e | by_ url k IH | url deep k IH | k IH];
    intros Q Q' E E' tr HQ HE; simpl; auto.
  - intros Hk o Ho. eapply IH; eauto.
  - intros Hk o Ho. eapply IH; eauto.
  - apply IH; auto.
Qed.

Lemma wp_try_except {A B : Type} (p : prog A) :
  forall (f : A -> prog B) (h : exn -> prog B) Q E tr,
    wp HO RO p (fun a t => wp HO RO (f a) Q E t)
               (fun e t => wp HO RO (h e) Q E t) tr ->
    wp HO RO (try_except p f h) Q E tr.
Proof.
  induction p as [a | e | by_ url k IH | url deep k IH | k IH];
    intros f h Q E tr; simpl; auto.
Qed.

Lemma wp_bind {A B : Type} (p : prog A) (f : A -> prog B) Q E tr :
  wp HO RO p (fun a t => wp HO RO (f a) Q E t) E tr ->
  wp HO RO (bind p f) Q E tr.
Proof.
  intros H. unfold bind. apply wp_try_except.
  eapply wp_mono; [ | | exact H]; simpl; auto.
Qed.

(** What holds whatever the answers holds of answers within [HO], [RO]. *)
Lemma wp_any_restrict {A : Type} (p : prog A) :
  forall (Q : A -> list event -> Prop) (E : exn -> list event -> Prop) tr,
    wp (fun _ => True) (fun _ => True) p Q E tr -> wp HO RO p Q E tr.
Proof.
  induction p as [a | e | by_ url k IH | url deep k IH | k IH];
    intros Q E tr; simpl; auto.
Qed.

(** A postcondition that ignores the trace holds from any trace. *)
Lemma wp_any_trace {A : Type} (p : prog A) :
  forall (P : A -> Prop) (F : exn -> Prop) tr tr',
    wp HO RO p (fun a _ => P a) (fun e _ => F e) tr ->
    wp HO RO p (fun a _ => P a) (fun e _ => F e) tr'.
Proof.
  induction p as [a | e | by_ url k IH | url deep k IH | k IH];
    intros P F tr tr'; simpl; auto.
  - intros Hk o Ho. eapply IH; eauto.
  - intros Hk o Ho. eapply IH; eauto.
  - apply IH.
Qed.

Lemma ends_bind {A B : Type} (F : Prop) (p : prog A) (f : A -> prog B)
      (P : A -> Prop) (Q : B -> Prop) :
  ends HO RO F P p ->
  (forall a, P a -> ends HO RO F Q (f a)) ->
  ends HO RO F Q (bind p f).
Proof.
  unfold ends. intros Hp Hf. apply wp_bind.
  eapply wp_mono; [ | | exact Hp]; simpl; [ | tauto].
  intros a t Ha.
  exact (wp_any_trace (f a) Q (fun _ => F) [] t (Hf a Ha)).
Qed.

Lemma ends_try_except {A B : Type} (F : Prop) (p : prog A)
      (f : A -> prog B) (h : exn -> prog B)
      (P : A -> Prop) (G : Prop) (Q : B -> Prop) :
  ends HO RO G P p ->
  (forall a, P a -> ends HO RO F Q (f a)) ->
  (forall e, G -> ends HO RO F Q (h e)) ->
  ends HO RO F Q (try_except p f h).
Proof.
  unfold ends. intros Hp Hf Hh. apply wp_try_except.
  eapply wp_mono; [ | | exact Hp]; simpl.
  - intros a t Ha.
    exact (wp_any_trace (f a) Q (fun _ => F) [] t (Hf a Ha)).
  - intros e t Hg.
    exact (wp_any_trace (h e) Q (fun _ => F) [] t (Hh e Hg)).
Qed.

Lemma ends_weaken {A : Type} (F G : Prop) (p : prog A) (P Q : A -> Prop) :
  (forall a, P a -> Q a) -> (F -> G) ->
  ends HO RO F P p -> ends HO RO G Q p.
Proof.
  unfold ends. intros HPQ HFG. apply wp_mono; auto.
Qed.

Lemma returns_bind {A B : Type} (p : prog A) (f : A -> prog B)
      (P : A -> Prop) (Q : B -> Prop) :
  returns HO RO P p ->
  (forall a, P a -> returns HO RO Q (f a)) ->
  returns HO RO Q (bind p f).
Proof. apply ends_bind. Qed.

Lemma returns_weaken {A : Type} (p : prog A) (P Q : A -> Prop) :
  (forall a, P a -> Q a) -> returns HO RO P p -> returns HO RO Q p.
Proof. intros H. apply ends_weaken; auto. Qed.

(** Soundness: what [wp] promises holds of every run in an environment that
    answers within [HO] and [RO]. *)
Lemma wp_run (Wd : World) (Hw : answers HO RO Wd) {A : Type} (p : prog A) :
  forall Q E tr (w : wstate Wd),
    wp HO RO p Q E tr ->
    match value (run_from Wd p w tr) with
    | inr a => Q a (trace (run_from Wd p w tr))
    | inl e => E e (trace (run_from Wd p w tr))
    end.
Proof.
  destruct Hw as [Hh Hr].
  induction p as [a | e | by_ url k IH | url deep k IH | k IH];
    intros Q E tr w H; simpl in *; auto.
  - specialize (Hh url w). destruct (http Wd url w) as [o w']. apply IH, H, Hh.
  - specialize (Hr url deep w). destruct (render Wd url deep w) as [o w'].
    apply IH, H, Hr.
  - apply IH, H.
Qed.

Lemma ends_run (Wd : World) (Hw : answers HO RO Wd) {A : Type}
      (F : Prop) (p : prog A) (P : A -> Prop) tr (w : wstate Wd) :
  ends HO RO F P p ->
  match value (run_from Wd p w tr) with
  | inr a => P a
  | inl _ => F
  end.
Proof.
  intros H. unfold ends in H.
  apply (wp_any_trace p P (fun _ => F) [] tr) in H.
  exact (wp_run Wd Hw p _ _ tr w H).
Qed.

Lemma returns_run (Wd : World) (Hw : answers HO RO Wd) {A : Type}
      (p : prog A) (P : A -> Prop) tr (w : wstate Wd) :
  returns HO RO P p ->
  exists a, value (run_from Wd p w tr) = inr a /\ P a.
Proof.
  intros H. pose proof (ends_run Wd Hw False p P tr w H) as R.
  destruct (value (run_from Wd p w tr)) as [e | a]; [contradiction | eauto].
Qed.

End LogicFacts.

Lemma answers_any (Wd : World) : answers any_http any_render Wd.
Proof. split; intros; exact I. Qed.

(** A run only appends to the trace it starts from. *)
Lemma run_from_extends (Wd : World) {A : Type} (p : prog A) :
  forall (w : wstate Wd) tr,
    exists tl, trace (run_from Wd p w tr) = tr ++ tl.
Proof.
  induction p as [a | e | by_ url k IH | url deep k IH | k IH];
    intros w tr; simpl.
  - exists []. now rewrite app_nil_r.
  - exists []. now rewrite app_nil_r.
  - destruct (http Wd url w) as [o w'].
    destruct (IH o w' (tr ++ [EvGet by_ url o])) as [tl Htl].
    exists (EvGet by_ url o :: tl). rewrite Htl, <- app_assoc. reflexivity.
  - destruct (render Wd url deep w) as [o w'].
    destruct (IH o w' (tr ++ [EvRender url deep o])) as [tl Htl].
    exists (EvRender url deep o :: tl). rewrite Htl, <- app_assoc. reflexivity.
  - destruct (IH w (tr ++ [EvSleep])) as [tl Htl].
    exists (EvSleep :: tl). rewrite Htl, <- app_assoc. reflexivity.
Qed.

(** ** [scraper.py]: one domain *)

Arguments bind : simpl never.
Arguments Scraper.fetch_emails : simpl never.
Arguments Scraper.fetch_emails_playwright : simpl never.
Arguments Scraper.discover_relevant_pages : simpl never.


Lemma quiet_app (yield : event -> list string) (l1 l2 : list event) :
  quiet yield (l1 ++ l2) <-> quiet yield l1 /\ quiet yield l2.
Proof. unfold quiet. apply Forall_app. Qed.

Lemma quiet_one (yield : event -> list string) (ev : event) :
  yield ev = [] -> quiet yield [ev].
Proof. intros H. constructor; [exact H | constructor]. Qed.

Lemma set_order_nil (set_iter : list string -> list string) :
  set_order set_iter -> set_iter [] = [].
Proof.
  intros H. destruct (H []) as [_ Hin].
  destruct (set_iter []) as [ | x l]; [reflexivity | ].
  exfalso. apply (Hin x). now left.
Qed.

Lemma set_order_nonempty (set_iter : list string -> list string) l :
  set_order set_iter -> l <> [] -> set_iter l <> [].
Proof.
  intros H Hl Hnil. destruct l as [ | x l]; [congruence | ].
  destruct (H (x :: l)) as [_ Hin]. rewrite Hnil in Hin.
  apply (Hin x). now left.
Qed.

Lemma nonempty_true {A : Type} (l : list A) :
  Scraper.nonempty l = true <-> l <> [].
Proof. destruct l; simpl; split; congruence. Qed.

Lemma nonempty_false {A : Type} (l : list A) :
  Scraper.nonempty l = false <-> l = [].
Proof. destruct l; simpl; split; congruence. Qed.

Section ScraperFacts.
Variable set_iter : list string -> list string.
Variable urljoin : string -> string -> exn + string.
Variable validate_email : string -> bool.

Local Notation "'WP'" := (wp any_http any_render).
Local Notation "'no_exn'" := (fun (_ : exn) (_ : list event) => False).
Local Notation "'cands'" := (candidates set_iter).
Local Notation "'halts'" :=
  (fun (e : exn) (tr : list event) => stopped set_iter e tr).

Lemma rejected_no_document (ev : event) (e : exn) :
  rejected ev = Some e -> document ev = None.
Proof.
  destruct ev as [[ | ] url o | url deep [e' | [h | source e']] | ]; simpl;
    try discriminate; try reflexivity.
  unfold delivered. destruct (delivered_text o) as [[h | source e'] | ];
    simpl; [discriminate | reflexivity | reflexivity].
Qed.

Lemma rejected_quiet (ev : event) (e : exn) :
  rejected ev = Some e -> cands ev = [].
Proof.
  intros H. unfold candidates. now rewrite (rejected_no_document ev e H).
Qed.

Lemma fetch_emails_playwright_wp (url : string) (deep : bool) tr :
  WP (Scraper.fetch_emails_playwright set_iter url deep)
     (fun new tr' =>
        exists ev, tr' = tr ++ [ev] /\ cands ev = new /\ url_of ev = url)
     (fun e tr' => exists ev, tr' = tr ++ [ev] /\ rejected ev = Some e)
     tr.
Proof.
  unfold Scraper.fetch_emails_playwright, playwright_content, bind. simpl.
  intros [e | [h | source e]] _; simpl; eexists; repeat split.
Qed.

Lemma fetch_emails_wp (url : string) (deep : bool) tr :
  WP (Scraper.fetch_emails set_iter url deep)
     (fun new tr' =>
        exists pre ev,
          tr' = tr ++ pre ++ [ev] /\ quiet cands pre /\
          cands ev = new /\ url_of ev = url)
     (fun e tr' =>
        exists pre ev,
          tr' = tr ++ pre ++ [ev] /\ quiet cands pre /\
          rejected ev = Some e)
     tr.
Proof.
  unfold Scraper.fetch_emails. destruct deep.
  - eapply wp_mono; [ | | apply fetch_emails_playwright_wp]; simpl.
    + intros new t (ev & -> & H1 & H2). exists [], ev. repeat split; auto.
      constructor.
    + intros e t (ev & -> & H1). exists [], ev. repeat split; auto.
      constructor.
  - unfold bind, session_get. simpl. intros o _.
    assert (Hfall : forall o',
      failed_get o' = true ->
      WP (Scraper.fetch_emails_playwright set_iter url false)
         (fun new tr' =>
            exists pre ev,
              tr' = tr ++ pre ++ [ev] /\ quiet cands pre /\
              cands ev = new /\ url_of ev = url)
         (fun e tr' =>
            exists pre ev,
              tr' = tr ++ pre ++ [ev] /\ quiet cands pre /\
              rejected ev = Some e)
         (tr ++ [EvGet Fetch url o'])).
    { intros o' Ho'.
      assert (Hq : quiet cands [EvGet Fetch url o']).
      { apply quiet_one. unfold candidates, document, delivered, delivered_text.
        destruct o' as [e | r]; [reflexivity | ]. simpl in Ho'.
        destruct (status r =? 200)%Z; [ | reflexivity].
        destruct (text r); [discriminate | reflexivity]. }
      eapply wp_mono; [ | | apply fetch_emails_playwright_wp]; simpl.
      - intros new t (ev & -> & H1 & H2).
        exists [EvGet Fetch url o'], ev. rewrite <- app_assoc.
        repeat split; auto.
      - intros e t (ev & -> & H1).
        exists [EvGet Fetch url o'], ev. rewrite <- app_assoc.
        repeat split; auto. }
    destruct o as [e | r]; simpl.
    + apply (Hfall (HttpRaise e)). reflexivity.
    + destruct (status r =? 200)%Z eqn:Hs; simpl.
      * unfold response_text.
        destruct (text r) as [[h | source e] | e] eqn:Ht; simpl.
        -- exists [], (EvGet Fetch url (HttpOk r)). repeat split.
           ++ constructor.
           ++ unfold candidates, document, delivered, delivered_text.
              rewrite Hs, Ht. reflexivity.
        -- exists [], (EvGet Fetch url (HttpOk r)). repeat split.
           ++ constructor.
           ++ unfold rejected, delivered_text. rewrite Hs, Ht. reflexivity.
        -- apply (Hfall (HttpOk r)). simpl. rewrite Ht. apply orb_true_r.
      * apply (Hfall (HttpOk r)). simpl. rewrite Hs. reflexivity.
Qed.

Lemma stopped_after (tr pre : list event) (ev : event) (e : exn) :
  quiet cands tr -> quiet cands pre -> rejected ev = Some e ->
  stopped set_iter e (tr ++ pre ++ [ev]).
Proof.
  intros Htr Hpre He. exists (tr ++ pre), ev.
  rewrite <- app_assoc. repeat split; auto. now apply quiet_app.
Qed.

Lemma stopped_quiet (e : exn) (tr : list event) :
  stopped set_iter e tr -> quiet cands tr.
Proof.
  intros (pre & ev & -> & Hq & He). apply quiet_app. split; [exact Hq | ].
  apply quiet_one. now apply rejected_quiet with (e := e).
Qed.

Hypothesis Hset : set_order set_iter.

Lemma searching_found st tr pre ev new :
  Scraper.st_emails st = [] ->
  tr = pre ++ [ev] -> quiet cands pre -> cands ev = new -> new <> [] ->
  searching set_iter
    (Scraper.mkState (set_iter (Scraper.st_emails st ++ new))
                     (Some (url_of ev)) (Scraper.st_base_url st)) tr.
Proof.
  intros Hst -> Hq Hc Hn. right. rewrite Hst. simpl. split.
  - apply set_order_nonempty; [exact Hset | exact Hn].
  - exists ev. split; [ | split; [reflexivity | now rewrite Hc]].
    exists pre. repeat split; auto. now rewrite Hc.
Qed.

Lemma pages_loop_wp (deep : bool) (pages : list string) :
  forall st tr,
    Scraper.st_emails st = [] -> quiet cands tr ->
    WP (Scraper.pages_loop set_iter deep pages st)
       (fun st' tr' =>
          searching set_iter st' tr' /\
          Scraper.st_base_url st' = Scraper.st_base_url st)
       halts tr.
Proof.
  induction pages as [ | page rest IH]; intros st tr Hst Hq; cbn.
  - split; [left; auto | reflexivity].
  - apply wp_bind.
    eapply wp_mono; [ | | apply fetch_emails_wp]; cbn.
    + intros new t (pre & ev & -> & Hpre & Hc & Hu).
      destruct (Scraper.nonempty new) eqn:Hn; cbn.
      * split; [ | reflexivity]. rewrite <- Hu.
        apply (searching_found st _ (tr ++ pre) ev new); auto.
        -- now rewrite app_assoc.
        -- apply quiet_app; auto.
        -- now apply nonempty_true.
      * apply IH; [exact Hst | ].
        apply nonempty_false in Hn. rewrite Hn in Hc.
        rewrite app_assoc. apply quiet_app. split.
        -- apply quiet_app; auto.
        -- apply quiet_one, Hc.
    + intros e t (pre & ev & -> & Hpre & He). now apply stopped_after.
Qed.

Lemma retry_loop_wp (deep : bool) (pages : list string) (n : nat) :
  forall st tr,
    searching set_iter st tr ->
    WP (Scraper.retry_loop set_iter deep pages n st)
       (fun st' tr' =>
          searching set_iter st' tr' /\
          Scraper.st_base_url st' = Scraper.st_base_url st)
       halts tr.
Proof.
  induction n as [ | n IH]; intros st tr Hs; cbn.
  - auto.
  - destruct (Scraper.nonempty (Scraper.st_emails st)) eqn:Hn; cbn.
    + auto.
    + apply nonempty_false in Hn.
      destruct Hs as [[_ Hq] | [Hne _]]; [ | congruence].
      apply wp_bind.
      eapply wp_mono; [ | | apply pages_loop_wp; auto]; cbn; [ | tauto].
      intros st' t [Hs' Hb].
      eapply wp_mono; [ | | apply IH; exact Hs']; cbn; [ | tauto].
      intros st'' t' [Hs'' Hb']. split; [exact Hs'' | congruence].
Qed.

(** Nothing leaves [discover_relevant_pages]: the request, the parser and
    [urljoin] all raise inside its [try]. *)
Lemma discover_relevant_pages_wp (base_url : string) tr :
  WP (Scraper.discover_relevant_pages set_iter urljoin base_url)
     (fun _ tr' => exists o, tr' = tr ++ [EvGet Discover base_url o])
     no_exn tr.
Proof.
  unfold Scraper.discover_relevant_pages, bind, session_get. cbn.
  intros [e | r] _; cbn; [eauto | ].
  destruct (status r =? 200)%Z; cbn; [ | eauto].
  unfold response_text. destruct (text r) as [[h | source e] | e]; cbn; eauto.
  destruct (Scraper.relevant_links urljoin base_url h); cbn; eauto.
Qed.

Lemma protocol_loop_wp (deep : bool) (d : string) (protocols : list string) :
  forall st tr,
    searching set_iter st tr ->
    WP (Scraper.protocol_loop set_iter urljoin deep d protocols st)
       (fun st' tr' => searching set_iter st' tr') halts tr.
Proof.
  induction protocols as [ | protocol rest IH]; intros st tr Hs; cbn -[Scraper.retry_loop].
  - exact Hs.
  - destruct (Scraper.nonempty (Scraper.st_emails st)) eqn:Hn; cbn -[Scraper.retry_loop].
    + exact Hs.
    + apply nonempty_false in Hn.
      destruct Hs as [[_ Hq] | [Hne _]]; [ | congruence].
      apply wp_bind.
      eapply wp_mono; [ | | apply discover_relevant_pages_wp]; cbn -[Scraper.retry_loop]; [ | tauto].
      intros pages t [o ->].
      apply wp_bind.
      eapply wp_mono; [ | | apply retry_loop_wp]; cbn -[Scraper.retry_loop]; [ | tauto | ].
      * intros st' t' [Hs' _]. apply IH, Hs'.
      * left. cbn -[Scraper.retry_loop]. split; [exact Hn | ].
        apply quiet_app. split; [exact Hq | ]. apply quiet_one. reflexivity.
Qed.

(** What one check does, in every environment: it returns the line number it
    was given and, for a host that is not blank, a record built from a loop
    state that agrees with the trace; or the parser stops it on the last
    event of the trace. *)
Lemma check_domain_wp (d : string) (ln : Z) (deep : bool) :
  WP (Scraper.check_domain set_iter urljoin validate_email d ln deep)
     (fun r tr =>
        if PyStr.is_empty (PyStr.strip d)
        then r = mkResult ln EmptyString not_found EmptyString /\ tr = []
        else exists st,
            r = Scraper.result_of set_iter validate_email d ln st /\
            searching set_iter st tr)
     halts [].
Proof.
  unfold Scraper.check_domain.
  destruct (PyStr.is_empty (PyStr.strip d)); cbn -[Scraper.protocol_loop]; [auto | ].
  apply wp_bind.
  eapply wp_mono; [ | | apply protocol_loop_wp]; cbn -[Scraper.protocol_loop]; [ | tauto | ].
  - intros st t Hs. exists st. auto.
  - left. cbn -[Scraper.protocol_loop]. split; [reflexivity | constructor].
Qed.

End ScraperFacts.

(** ** [scraper.py]: consequences for one run *)

Lemma failed_no_document (ev : event) : failed ev = true -> document ev = None.
Proof.
  destruct ev as [by_ url o | url deep o | ]; simpl; try reflexivity.
  - destruct by_; [reflexivity | ]. destruct o as [e | r]; [reflexivity | ].
    unfold delivered, delivered_text.
    simpl. destruct (status r =? 200)%Z; [ | reflexivity].
    destruct (text r); simpl; [discriminate | reflexivity].
  - destruct o; [reflexivity | discriminate].
Qed.

Lemma failed_not_rejected (ev : event) : failed ev = true -> rejected ev = None.
Proof.
  destruct ev as [by_ url o | url deep o | ]; simpl; try reflexivity.
  - destruct by_; [reflexivity | ]. destruct o as [e | r]; [reflexivity | ].
    unfold delivered_text.
    simpl. destruct (status r =? 200)%Z; [ | reflexivity].
    destruct (text r); simpl; [discriminate | reflexivity].
  - destruct o; [reflexivity | discriminate].
Qed.

(** In a trace that ends with its first yielding event, a yielding event is
    the last one. *)
Lemma first_yield_is_last (yield : event -> list string) :
  forall pre0 ev0 pre ev post,
    pre0 ++ [ev0] = pre ++ ev :: post ->
    quiet yield pre0 -> yield ev <> [] ->
    post = [] /\ pre = pre0 /\ ev = ev0.
Proof.
  induction pre0 as [ | x pre0 IH]; intros ev0 pre ev post Heq Hq Hy.
  - destruct pre as [ | y pre]; simpl in Heq.
    + injection Heq as <- <-. auto.
    + injection Heq as _ Heq. destruct pre; discriminate.
  - destruct pre as [ | y pre]; simpl in Heq.
    + injection Heq as <- _. inversion Hq; subst. contradiction.
    + injection Heq as <- Heq. inversion Hq as [ | ? ? _ Hq']; subst.
      destruct (IH ev0 pre ev post Heq Hq' Hy) as (-> & -> & ->). auto.
Qed.

Lemma quiet_no_yield (yield : event -> list string) :
  forall tr pre ev post,
    tr = pre ++ ev :: post -> quiet yield tr -> yield ev = [].
Proof.
  intros tr pre ev post -> Hq. apply quiet_app in Hq. destruct Hq as [_ Hq].
  now inversion Hq.
Qed.

Section ScraperRun.
Variable set_iter : list string -> list string.
Variable urljoin : string -> string -> exn + string.
Variable validate_email : string -> bool.

Local Notation "'check'" :=
  (Scraper.check_domain set_iter urljoin validate_email).

(** The lemmas below hold of every environment when [F] is [True], and of
    an environment that delivers no text the parser rejects when [F] is
    [False]. *)
Section Ends.
Variable HO : http_outcome -> Prop.
Variable RO : render_outcome -> Prop.
Variable F : Prop.
Hypothesis Hhttp : forall o, HO o -> F \/ parses_http o.
Hypothesis Hrender : forall o, RO o -> F \/ parses_render o.

Local Notation "'ENDS'" := (ends HO RO F).

Lemma fetch_emails_playwright_ends url deep :
  ENDS (fun _ => True) (Scraper.fetch_emails_playwright set_iter url deep).
Proof.
  unfold ends, Scraper.fetch_emails_playwright, playwright_content, bind.
  simpl. intros [e | [h | source e]] Ho; simpl; auto.
  destruct (Hrender _ Ho) as [Hf | Hp]; [exact Hf | discriminate].
Qed.

Lemma fetch_emails_ends url deep :
  ENDS (fun _ => True) (Scraper.fetch_emails set_iter url deep).
Proof.
  unfold Scraper.fetch_emails. destruct deep;
    [apply fetch_emails_playwright_ends | ].
  pose proof (fetch_emails_playwright_ends url false) as Hp.
  unfold ends in *. unfold bind, session_get. simpl. intros o Ho.
  assert (Hfall : forall ev,
             wp HO RO (Scraper.fetch_emails_playwright set_iter url false)
                (fun _ _ => True) (fun _ _ => F) ([] ++ [ev])).
  { intros ev.
    exact (wp_any_trace HO RO _ (fun _ => True) (fun _ => F) [] _ Hp). }
  destruct o as [e | r]; simpl; [apply Hfall | ].
  destruct (status r =? 200)%Z eqn:Hs; simpl; [ | apply Hfall].
  unfold response_text.
  destruct (text r) as [[h | source e] | e] eqn:Ht; simpl;
    [exact I | | apply Hfall].
  destruct (Hhttp _ Ho) as [Hf | Hparse]; [exact Hf | ].
  unfold parses_http, delivered_text in Hparse. simpl in Hparse.
  rewrite Hs, Ht in Hparse. discriminate.
Qed.

Lemma pages_loop_ends deep pages :
  forall st, ENDS (fun _ => True) (Scraper.pages_loop set_iter deep pages st).
Proof.
  induction pages as [ | page rest IH]; intros st; cbn.
  - exact I.
  - eapply ends_bind; [apply fetch_emails_ends | ].
    intros new _. destruct (Scraper.nonempty new); [exact I | apply IH].
Qed.

Lemma retry_loop_ends deep pages n :
  forall st, ENDS (fun _ => True) (Scraper.retry_loop set_iter deep pages n st).
Proof.
  induction n as [ | n IH]; intros st; cbn.
  - exact I.
  - destruct (Scraper.nonempty (Scraper.st_emails st)); [exact I | ].
    eapply ends_bind; [apply pages_loop_ends | ].
    intros st' _. apply IH.
Qed.

Lemma discover_relevant_pages_ends base_url :
  ENDS (fun _ => True)
       (Scraper.discover_relevant_pages set_iter urljoin base_url).
Proof.
  unfold ends.
  eapply wp_mono;
    [ | | apply (wp_any_restrict HO RO), discover_relevant_pages_wp];
    simpl; [auto | tauto].
Qed.

Lemma protocol_loop_ends deep d protocols :
  forall st,
    ENDS (fun _ => True)
         (Scraper.protocol_loop set_iter urljoin deep d protocols st).
Proof.
  induction protocols as [ | protocol rest IH]; intros st;
    cbn -[Scraper.retry_loop].
  - exact I.
  - destruct (Scraper.nonempty (Scraper.st_emails st)); [exact I | ].
    eapply ends_bind; [apply discover_relevant_pages_ends | ].
    intros pages _.
    eapply ends_bind; [apply retry_loop_ends | ].
    intros st' _. apply IH.
Qed.

(** The record [check_domain] returns carries the line number and the host
    it was given (the empty host for a blank one). *)
Lemma check_domain_ends (d : string) (ln : Z) (deep : bool) :
  ENDS (fun r =>
          line_number r = ln /\
          domain r = if PyStr.is_empty (PyStr.strip d) then EmptyString else d)
       (check d ln deep).
Proof.
  unfold Scraper.check_domain.
  destruct (PyStr.is_empty (PyStr.strip d)).
  - split; reflexivity.
  - eapply ends_bind; [apply protocol_loop_ends | ].
    intros st _. split; reflexivity.
Qed.

End Ends.

(** No exception leaves [check_domain] in an environment that delivers no
    text the parser rejects. *)
Lemma check_domain_returns (d : string) (ln : Z) (deep : bool) :
  returns parses_http parses_render
    (fun r =>
       line_number r = ln /\
       domain r = if PyStr.is_empty (PyStr.strip d) then EmptyString else d)
    (check d ln deep).
Proof. apply check_domain_ends; auto. Qed.

(** In any environment, a record it returns carries that line number and
    host. *)
Lemma check_domain_partial (d : string) (ln : Z) (deep : bool) :
  ends any_http any_render True
    (fun r =>
       line_number r = ln /\
       domain r = if PyStr.is_empty (PyStr.strip d) then EmptyString else d)
    (check d ln deep).
Proof. apply check_domain_ends; auto. Qed.

Lemma result_of_nothing (d : string) (ln : Z) (st : Scraper.loop_state) :
  set_order set_iter ->
  Scraper.st_emails st = [] ->
  Scraper.result_of set_iter validate_email d ln st
  = mkResult ln d not_found EmptyString.
Proof.
  intros Hset Hst. unfold Scraper.result_of. rewrite Hst.
  rewrite (set_order_nil set_iter Hset). reflexivity.
Qed.

Lemma result_of_found (d : string) (ln : Z) (st : Scraper.loop_state) url :
  Scraper.st_emails st <> [] ->
  Scraper.st_target st = Some url -> url <> EmptyString ->
  target_website (Scraper.result_of set_iter validate_email d ln st) = url.
Proof.
  intros Hst Ht Hu. unfold Scraper.result_of. simpl.
  apply nonempty_true in Hst. rewrite Hst, Ht. simpl.
  destruct url; [congruence | reflexivity].
Qed.

(** The run of one check, in any environment.  An event that yields
    candidates is the last of the trace, the check then returns and the
    event's URL is the recorded page.  A check that returns gives the line
    number it was given, and the not-found record after a trace of failures.
    A check that raises was stopped by the parser on its last event. *)
Lemma check_domain_run (Hset : set_order set_iter) (Wd : World)
      (w : wstate Wd) (d : string) (ln : Z) (deep : bool) :
  (forall pre ev post,
      trace (run Wd (check d ln deep) w) = pre ++ ev :: post ->
      candidates set_iter ev <> [] ->
      post = [] /\ quiet (candidates set_iter) pre /\
      exists r,
        value (run Wd (check d ln deep) w) = inr r /\
        (url_of ev <> EmptyString -> target_website r = url_of ev)) /\
  match value (run Wd (check d ln deep) w) with
  | inr r =>
      line_number r = ln /\
      (forallb failed (trace (run Wd (check d ln deep) w)) = true ->
       emails r = not_found /\ target_website r = EmptyString)
  | inl e => stopped set_iter e (trace (run Wd (check d ln deep) w))
  end.
Proof.
  pose proof (wp_run any_http any_render Wd (answers_any Wd) (check d ln deep)
                _ _ [] w (check_domain_wp set_iter urljoin validate_email Hset
                            d ln deep)) as H.
  unfold run.
  set (tr := trace (run_from Wd (check d ln deep) w [])) in *.
  destruct (value (run_from Wd (check d ln deep) w [])) as [e | r].
  { split; [ | exact H].
    intros pre ev post Heq Hy. exfalso. apply Hy.
    eapply quiet_no_yield; [exact Heq | ].
    eapply stopped_quiet, H. }
  destruct (PyStr.is_empty (PyStr.strip d)).
  - destruct H as [-> Htr]. rewrite Htr. split.
    + intros pre ev post Heq. destruct pre; discriminate.
    + split; [reflexivity | intros _; split; reflexivity].
  - destruct H as (st & -> & Hs).
    destruct Hs as [[Hst Hq] | (Hst & ev0 & (pre0 & Htr & Hq0 & Hy0) & Ht & He)].
    + split.
      * intros pre ev post Heq Hy. exfalso. apply Hy.
        eapply quiet_no_yield; eauto.
      * split; [reflexivity | ].
        intros _. rewrite (result_of_nothing d ln st Hset Hst). auto.
    + split.
      * intros pre ev post Heq Hy. rewrite Htr in Heq.
        destruct (first_yield_is_last _ _ _ _ _ _ Heq Hq0 Hy) as (-> & -> & ->).
        repeat split; auto.
        eexists. split; [reflexivity | ].
        intros Hu. apply result_of_found; auto.
      * split; [reflexivity | ].
        intros Hall. exfalso. apply Hy0.
        rewrite forallb_forall in Hall. unfold candidates.
        rewrite failed_no_document; [reflexivity | ].
        apply Hall. rewrite Htr. apply in_or_app. right. now left.
Qed.

End ScraperRun.

(** ** The sibling script: one domain *)

Arguments Workflow.fetch_page : simpl never.
Arguments Workflow.get_relevant_pages : simpl never.

Lemma nonempty_true_w {A : Type} (l : list A) :
  Workflow.nonempty l = true <-> l <> [].
Proof. destruct l; simpl; split; congruence. Qed.

Lemma nonempty_false_w {A : Type} (l : list A) :
  Workflow.nonempty l = false <-> l = [].
Proof. destruct l; simpl; split; congruence. Qed.

Section WorkflowFacts.
Variable set_iter : list string -> list string.
Variable urljoin : string -> string -> exn + string.
Variable validate_email : string -> bool.

Local Notation "'WP'" := (wp any_http any_render).
Local Notation "'vals'" := (validated set_iter validate_email).
(** An exception leaves only while nothing was found. *)
Local Notation "'escapes'" :=
  (fun (_ : exn) (tr : list event) => quiet vals tr).

Lemma fetch_page_wp (by_ : purpose) (url : string) tr :
  WP (Workflow.fetch_page by_ url)
     (fun html tr' =>
        exists o, tr' = tr ++ [EvGet by_ url o] /\ html = delivered_text o)
     (fun _ tr' =>
        exists o, tr' = tr ++ [EvGet by_ url o] /\ delivered_text o = None)
     tr.
Proof.
  unfold Workflow.fetch_page, bind, session_get. simpl.
  intros [e | r] Ho; simpl.
  - destruct e; simpl; eexists; split; reflexivity.
  - unfold delivered_text.
    destruct (status r =? 200)%Z eqn:Hs; simpl.
    + unfold response_text. destruct (text r) as [m | e] eqn:Ht; simpl.
      * exists (HttpOk r). simpl. rewrite Hs, Ht. auto.
      * destruct e; simpl; exists (HttpOk r); simpl; rewrite Hs, Ht;
          split; reflexivity.
    + exists (HttpOk r). simpl. rewrite Hs. auto.
Qed.

Lemma vals_no_text url o :
  delivered_text o = None -> vals (EvGet Fetch url o) = [].
Proof.
  intros H. unfold validated, document, delivered. now rewrite H.
Qed.

(** What the extractor makes of what a page request delivered. *)
Lemma extract_emails_from_html_wp url o tr :
  WP (Workflow.extract_emails_from_html set_iter validate_email
        (delivered_text o))
     (fun emails tr' => tr' = tr /\ emails = vals (EvGet Fetch url o))
     (fun _ tr' => tr' = tr /\ vals (EvGet Fetch url o) = [])
     tr.
Proof.
  unfold Workflow.extract_emails_from_html, validated, document, delivered.
  destruct (delivered_text o) as [[h | source e] | ]; simpl.
  - destruct (PyStr.is_empty (raw h)); simpl; auto.
  - destruct (PyStr.is_empty source); simpl; auto.
  - auto.
Qed.

Lemma attempt_loop_wp (page_url : string) (n : nat) :
  forall st tr,
    Workflow.all_emails st = [] -> Workflow.target st = EmptyString ->
    quiet vals tr ->
    WP (Workflow.attempt_loop set_iter validate_email page_url n st)
       (fun st' tr' => searching_w set_iter validate_email st' tr')
       escapes tr.
Proof.
  induction n as [ | n IH]; intros st tr Hst Ht Hq; cbn.
  - left. auto.
  - rewrite Hst. cbn. apply wp_bind.
    assert (Hs : quiet vals (tr ++ [EvSleep])).
    { apply quiet_app. split; [exact Hq | now apply quiet_one]. }
    eapply wp_mono; [ | | apply fetch_page_wp]; cbn.
    + intros html t (o & -> & ->).
      apply wp_bind.
      eapply wp_mono;
        [ | | apply (extract_emails_from_html_wp page_url o)]; cbn.
      * intros emails t [-> ->].
        destruct (Workflow.nonempty _) eqn:Hn; cbn.
        -- right. cbn. split; [now apply nonempty_true_w in Hn | ].
           exists (EvGet Fetch page_url o). repeat split.
           exists (tr ++ [EvSleep]). repeat split; auto.
           now apply nonempty_true_w in Hn.
        -- apply IH; auto. apply nonempty_false_w in Hn.
           apply quiet_app. split; [exact Hs | ].
           apply quiet_one. exact Hn.
      * intros e t [-> Hv]. apply quiet_app. split; [exact Hs | ].
        now apply quiet_one.
    + intros e t (o & -> & Hd).
      apply quiet_app. split; [exact Hs | ].
      apply quiet_one. now apply vals_no_text.
Qed.

Lemma page_loop_wp (pages : list string) :
  forall st tr,
    searching_w set_iter validate_email st tr ->
    WP (Workflow.page_loop set_iter validate_email pages st)
       (fun st' tr' => searching_w set_iter validate_email st' tr')
       escapes tr.
Proof.
  induction pages as [ | page_url rest IH]; intros st tr Hs;
    cbn -[Workflow.attempt_loop].
  - exact Hs.
  - destruct (Workflow.nonempty (Workflow.all_emails st)) eqn:Hn.
    + exact Hs.
    + apply nonempty_false_w in Hn.
      destruct Hs as [(_ & Ht & Hq) | [Hne _]]; [ | congruence].
      apply wp_bind.
      eapply wp_mono; [ | | apply attempt_loop_wp; auto]; cbn; [ | tauto].
      intros st' t Hs'. apply IH, Hs'.
Qed.

(** [get_relevant_pages] makes one request, whether it returns or the
    parser or [urljoin] stops it. *)
Lemma get_relevant_pages_wp (base_url : string) tr :
  WP (Workflow.get_relevant_pages set_iter urljoin base_url)
     (fun _ tr' => exists o, tr' = tr ++ [EvGet Discover base_url o])
     (fun _ tr' => exists o, tr' = tr ++ [EvGet Discover base_url o])
     tr.
Proof.
  unfold Workflow.get_relevant_pages. apply wp_bind.
  eapply wp_mono; [ | | apply fetch_page_wp]; cbn.
  - intros html t (o & -> & ->).
    destruct (delivered_text o) as [[h | source e] | ]; cbn; [ | | eauto].
    + destruct (PyStr.is_empty (raw h)); cbn; [eauto | ].
      unfold bind. cbn.
      destruct (Workflow.links urljoin base_url h); cbn; eauto.
    + destruct (PyStr.is_empty source); unfold bind; cbn; eauto.
  - intros e t (o & -> & _). eauto.
Qed.

Lemma protocol_loop_wp_w (d : string) (protocols : list string) :
  forall st tr,
    searching_w set_iter validate_email st tr ->
    WP (Workflow.protocol_loop set_iter urljoin validate_email d protocols st)
       (fun st' tr' => searching_w set_iter validate_email st' tr')
       escapes tr.
Proof.
  induction protocols as [ | protocol rest IH]; intros st tr Hs;
    cbn -[Workflow.page_loop].
  - exact Hs.
  - destruct (Workflow.nonempty (Workflow.all_emails st)) eqn:Hn.
    + exact Hs.
    + apply nonempty_false_w in Hn.
      destruct Hs as [(_ & Ht & Hq) | [Hne _]]; [ | congruence].
      assert (Hq' : forall o,
                 quiet vals (tr ++ [EvGet Discover (protocol +++ d) o])).
      { intros o. apply quiet_app. split; [exact Hq | now apply quiet_one]. }
      apply wp_bind.
      eapply wp_mono; [ | | apply get_relevant_pages_wp]; cbn.
      * intros pages t [o ->].
        apply wp_bind.
        eapply wp_mono; [ | | apply page_loop_wp]; cbn; [ | tauto | ].
        -- intros st' t' Hs'. apply IH, Hs'.
        -- left. auto.
      * intros e t [o ->]. auto.
Qed.

Lemma check_domain_wp_w (d : string) (ln : Z) :
  WP (Workflow.check_domain set_iter urljoin validate_email d ln)
     (fun r tr =>
        if PyStr.is_empty (PyStr.strip d)
        then r = mkResult ln EmptyString not_found EmptyString /\ tr = []
        else exists st,
            r = Workflow.result_of set_iter (PyStr.strip d) ln st /\
            searching_w set_iter validate_email st tr)
     escapes [].
Proof.
  unfold Workflow.check_domain.
  destruct (PyStr.is_empty (PyStr.strip d)); cbn -[Workflow.protocol_loop];
    [auto | ].
  apply wp_bind.
  eapply wp_mono; [ | | apply protocol_loop_wp_w];
    cbn -[Workflow.protocol_loop]; [ | tauto | ].
  - intros st t Hs. exists st. auto.
  - left. cbn. repeat split. constructor.
Qed.

(** The lemmas below hold of every environment when [F] is [True]; when [F]
    is [False], of an environment that raises only what [fetch_page] catches
    and delivers no text the parser rejects and no link on which [urljoin]
    raises. *)
Section Ends.
Variable HO : http_outcome -> Prop.
Variable RO : render_outcome -> Prop.
Variable F : Prop.
Hypothesis Hhttp : forall o, HO o -> F \/ harmless_http urljoin o.

Local Notation "'ENDS'" := (ends HO RO F).
Local Notation "'joined' h" :=
  (forall base href,
      In href (anchors h) -> exists full, urljoin base href = inr full)
  (at level 10, h at level 9).
Local Notation "'readable'" :=
  (fun html : option markup =>
     F \/ forall m, html = Some m -> exists h, m = Parsed h /\ joined h).

Lemma fetch_page_ends (by_ : purpose) (url : string) :
  ENDS readable (Workflow.fetch_page by_ url).
Proof.
  unfold ends, Workflow.fetch_page, bind, session_get. simpl.
  intros o Ho. destruct (Hhttp o Ho) as [Hf | (Hc & Hp & Hj)].
  { destruct o as [e | r]; simpl; [destruct e; simpl; auto | ].
    destruct (status r =? 200)%Z; simpl; [ | auto].
    unfold response_text. destruct (text r) as [m | e]; simpl; auto.
    destruct e; simpl; auto. }
  destruct o as [e | r]; simpl in *.
  - destruct e; simpl; try discriminate; right; intros m; discriminate.
  - unfold parses_http, joins_http, delivered, delivered_text in Hp, Hj.
    destruct (status r =? 200)%Z; simpl;
      [ | right; intros m; discriminate].
    unfold response_text. destruct (text r) as [m | e]; simpl.
    + right. intros m' E. injection E as <-.
      destruct m as [h | source e]; [ | discriminate]. eauto.
    + destruct e; simpl; try discriminate; right; intros m; discriminate.
Qed.

Lemma extract_emails_from_html_ends (html : option markup) :
  readable html ->
  ENDS (fun _ => True)
       (Workflow.extract_emails_from_html set_iter validate_email html).
Proof.
  intros Hr. unfold ends, Workflow.extract_emails_from_html.
  destruct html as [[h | source e] | ]; simpl; auto.
  - destruct (PyStr.is_empty (raw h)); simpl; auto.
  - destruct (PyStr.is_empty source); simpl; auto.
    destruct Hr as [Hf | Hr]; [exact Hf | ].
    destruct (Hr _ eq_refl) as (h & E & _). discriminate.
Qed.

Lemma collect_joined {X : Type} (f : X -> exn + list string) (l : list X) :
  (forall x, In x l -> exists ys, f x = inr ys) ->
  exists zs, collect f l = inr zs.
Proof.
  induction l as [ | x l IH]; intros Hf; simpl; [eauto | ].
  destruct (Hf x) as [ys ->]; [now left | ].
  destruct IH as [zs ->]; [ | eauto].
  intros y Hy. apply Hf. now right.
Qed.

Lemma links_ends (base_url : string) (h : Html) :
  F \/ joined h ->
  ENDS (fun _ => True) (lift (Workflow.links urljoin base_url h)).
Proof.
  unfold ends. intros [Hf | Hj].
  { destruct (Workflow.links urljoin base_url h); simpl; auto. }
  unfold Workflow.links.
  destruct (collect_joined
              (fun a =>
                 if existsb (fun k => PyStr.contains k (PyStr.lower a))
                            Workflow.keywords
                 then Workflow.add_joined urljoin base_url a else inr [])
              (anchors h)) as [zs Hz].
  { intros a Ha. destruct (existsb _ _); [ | eauto].
    unfold Workflow.add_joined. destruct (Hj base_url a Ha) as [u ->]. eauto. }
  rewrite Hz. exact I.
Qed.

Lemma get_relevant_pages_ends (base_url : string) :
  ENDS (fun _ => True) (Workflow.get_relevant_pages set_iter urljoin base_url).
Proof.
  unfold Workflow.get_relevant_pages.
  eapply ends_bind; [apply fetch_page_ends | ].
  cbn beta. intros html Hr.
  destruct html as [[h | source e] | ]; cbn; [ | | exact I].
  - destruct (PyStr.is_empty (raw h)); [exact I | ].
    unfold bind at 1. cbn [BeautifulSoup try_except].
    eapply ends_bind; [apply links_ends | ].
    + destruct Hr as [Hf | Hr]; [now left | right].
      destruct (Hr _ eq_refl) as (h' & E & Hj). injection E as <-. exact Hj.
    + intros ls _. exact I.
  - destruct (PyStr.is_empty source); [exact I | ].
    destruct Hr as [Hf | Hr]; [exact Hf | ].
    destruct (Hr _ eq_refl) as (h & E & _). discriminate.
Qed.

Lemma attempt_loop_ends (page_url : string) (n : nat) :
  forall st,
    ENDS (fun _ => True)
         (Workflow.attempt_loop set_iter validate_email page_url n st).
Proof.
  induction n as [ | n IH]; intros st; cbn.
  - exact I.
  - destruct (Workflow.nonempty (Workflow.all_emails st)); [exact I | ].
    unfold ends. cbn.
    apply (wp_any_trace HO RO _ (fun _ => True) (fun _ => F) []).
    change (ENDS (fun _ => True)
              (html <- Workflow.fetch_page Fetch page_url ;;
               emails <- Workflow.extract_emails_from_html set_iter
                           validate_email html ;;
               (if Workflow.nonempty emails
                then Ret (Workflow.mkState (Workflow.all_emails st ++ emails)
                            page_url)
                else Workflow.attempt_loop set_iter validate_email page_url
                       n st))).
    eapply ends_bind; [apply fetch_page_ends | ].
    cbn beta. intros html Hr.
    eapply ends_bind; [apply extract_emails_from_html_ends, Hr | ].
    intros emails _. destruct (Workflow.nonempty emails); [exact I | apply IH].
Qed.

Lemma page_loop_ends (pages : list string) :
  forall st,
    ENDS (fun _ => True) (Workflow.page_loop set_iter validate_email pages st).
Proof.
  induction pages as [ | page_url rest IH]; intros st;
    cbn -[Workflow.attempt_loop].
  - exact I.
  - destruct (Workflow.nonempty (Workflow.all_emails st)); [exact I | ].
    eapply ends_bind; [apply attempt_loop_ends | ].
    intros st' _. apply IH.
Qed.

Lemma protocol_loop_ends_w (d : string) (protocols : list string) :
  forall st,
    ENDS (fun _ => True)
         (Workflow.protocol_loop set_iter urljoin validate_email d
            protocols st).
Proof.
  induction protocols as [ | protocol rest IH]; intros st;
    cbn -[Workflow.page_loop].
  - exact I.
  - destruct (Workflow.nonempty (Workflow.all_emails st)); [exact I | ].
    eapply ends_bind; [apply get_relevant_pages_ends | ].
    intros pages _.
    eapply ends_bind; [apply page_loop_ends | ].
    intros st' _. apply IH.
Qed.

(** The record the sibling's [check_domain] returns carries the line number
    it was given and the stripped host. *)
Lemma check_domain_ends_w (d : string) (ln : Z) :
  ENDS (fun r => line_number r = ln /\ domain r = PyStr.strip d)
       (Workflow.check_domain set_iter urljoin validate_email d ln).
Proof.
  unfold Workflow.check_domain. cbv zeta.
  destruct (PyStr.is_empty (PyStr.strip d)) eqn:Hd.
  - split; [reflexivity | ]. cbn.
    destruct (PyStr.strip d); [reflexivity | discriminate].
  - eapply ends_bind; [apply protocol_loop_ends_w | ].
    intros st _. split; reflexivity.
Qed.

End Ends.

End WorkflowFacts.

(** In an environment that raises only what [fetch_page] catches and delivers
    no text the parser rejects and no link on which [urljoin] raises, the
    sibling's [check_domain] returns. *)
Lemma check_domain_returns_w set_iter urljoin validate_email
      (d : string) (ln : Z) :
  returns (harmless_http urljoin) any_render
    (fun r => line_number r = ln /\ domain r = PyStr.strip d)
    (Workflow.check_domain set_iter urljoin validate_email d ln).
Proof. apply check_domain_ends_w; auto. Qed.

(** In any environment, a record it returns carries the line number it was
    given and the stripped host. *)
Lemma check_domain_partial_w set_iter urljoin validate_email
      (d : string) (ln : Z) :
  ends any_http any_render True
    (fun r => line_number r = ln /\ domain r = PyStr.strip d)
    (Workflow.check_domain set_iter urljoin validate_email d ln).
Proof. apply check_domain_ends_w; auto. Qed.

Lemma result_of_found_w set_iter (d : string) (ln : Z)
      (st : Workflow.loop_state) url :
  Workflow.all_emails st <> [] ->
  Workflow.target st = url -> url <> EmptyString ->
  target_website (Workflow.result_of set_iter d ln st) = url.
Proof.
  intros Hst Ht Hu. unfold Workflow.result_of. cbn.
  rewrite Ht. destruct url; [congruence | reflexivity].
Qed.

(** The run of one check of the sibling, in any environment: an event that
    yields validated addresses is the last of the trace, the check then
    returns, and the event's URL is the recorded page. *)
Lemma check_domain_run_w set_iter urljoin validate_email (Wd : World)
      (w : wstate Wd) (d : string) (ln : Z) :
  forall pre ev post,
    trace (run Wd (Workflow.check_domain set_iter urljoin validate_email d ln) w)
    = pre ++ ev :: post ->
    validated set_iter validate_email ev <> [] ->
    post = [] /\ quiet (validated set_iter validate_email) pre /\
    exists r,
      value (run Wd (Workflow.check_domain set_iter urljoin validate_email
                       d ln) w) = inr r /\
      (url_of ev <> EmptyString -> target_website r = url_of ev).
Proof.
  intros pre ev post.
  pose proof (wp_run any_http any_render Wd (answers_any Wd)
                (Workflow.check_domain set_iter urljoin validate_email d ln)
                _ _ [] w
                (check_domain_wp_w set_iter urljoin validate_email d ln)) as H.
  unfold run.
  set (o := run_from Wd _ w []) in *.
  destruct (value o) as [e | r]; intros Heq Hy.
  - exfalso. apply Hy. eapply quiet_no_yield; eauto.
  - destruct (PyStr.is_empty (PyStr.strip d)).
    + destruct H as [_ Htr]. rewrite Htr in Heq. destruct pre; discriminate.
    + destruct H as (st & -> & Hs).
      destruct Hs as [(_ & _ & Hq)
                     | (Hst & ev0 & (pre0 & Htr & Hq0 & Hy0) & Ht & He)].
      * exfalso. apply Hy. eapply quiet_no_yield; eauto.
      * rewrite Htr in Heq.
        destruct (first_yield_is_last _ _ _ _ _ _ Heq Hq0 Hy) as (-> & -> & ->).
        repeat split; auto.
        eexists. split; [reflexivity | ].
        intros Hu. apply result_of_found_w; auto.
Qed.

(** The row the sibling reports: not found with an empty page, or the sorted
    addresses of the one event that yielded them. *)
Lemma check_domain_row_w set_iter urljoin validate_email (Wd : World)
      (w : wstate Wd) (d : string) (ln : Z) r :
  value (run Wd (Workflow.check_domain set_iter urljoin validate_email d ln) w)
  = inr r ->
  (emails r = not_found /\ target_website r = EmptyString) \/
  (exists ev,
      In ev (trace (run Wd (Workflow.check_domain set_iter urljoin
                              validate_email d ln) w)) /\
      validated set_iter validate_email ev <> [] /\
      emails r = PyStr.join ", "
                   (PyStr.sorted
                      (set_iter (validated set_iter validate_email ev)))).
Proof.
  pose proof (wp_run any_http any_render Wd (answers_any Wd)
                (Workflow.check_domain set_iter urljoin validate_email d ln)
                _ _ [] w
                (check_domain_wp_w set_iter urljoin validate_email d ln)) as H.
  unfold run.
  set (o := run_from Wd _ w []) in *.
  intros Hv. rewrite Hv in H.
  destruct (PyStr.is_empty (PyStr.strip d)).
  - destruct H as [-> _]. left. auto.
  - destruct H as (st & -> & Hs).
    destruct Hs as [(Hst & Ht & _)
                   | (Hst & ev0 & (pre0 & Htr & Hq0 & Hy0) & Ht & He)].
    + left. unfold Workflow.result_of. rewrite Hst, Ht. auto.
    + right. exists ev0. split; [ | split; [exact Hy0 | ]].
      * rewrite Htr. apply in_or_app. right. now left.
      * unfold Workflow.result_of. cbn.
        apply nonempty_true_w in Hst. rewrite Hst, He. reflexivity.
Qed.

(** ** The pool: every coroutine is delivered exactly once *)

Section PoolFacts.
Variable HO : http_outcome -> Prop.
Variable RO : render_outcome -> Prop.
Variable Wd : World.
Hypothesis Hw : answers HO RO Wd.
Variable F : Prop.
Variables A B : Type.
Variable tag : A -> B.

Local Notation "'delivers'" :=
  (fun (k : B) (p : prog A) => ends HO RO F (fun a => tag a = k) p).

Lemma pick_task (ks : list B) (ps : list (prog A)) :
  Forall2 delivers ks ps ->
  forall j p,
    nth_error ps j = Some p ->
    exists k ks1 ks2,
      ks = ks1 ++ k :: ks2 /\ delivers k p /\
      Forall2 delivers (ks1 ++ ks2) (remove_nth A j ps) /\
      (forall p', delivers k p' -> Forall2 delivers ks (replace_nth A j p' ps)).
Proof.
  induction 1 as [ | k p0 ks ps Hk Hrest IH]; intros j p Hj.
  - destruct j; discriminate.
  - destruct j as [ | j]; simpl in Hj.
    + injection Hj as ->. exists k, [], ks. simpl. repeat split; auto.
    + destruct (IH j p Hj) as (k' & ks1 & ks2 & -> & Hp & Hrm & Hrp).
      exists k', (k :: ks1), ks2. simpl. repeat split; auto.
Qed.

Lemma drain_delivers (ps : list (prog A)) :
  forall ks w tr done,
    Forall2 delivers ks ps ->
    match completed (drain Wd A ps w tr done) with
    | inr out => exists rs, out = done ++ rs /\ map tag rs = ks
    | inl _ => F
    end.
Proof.
  induction ps as [ | p ps IH]; intros ks w tr done H;
    inversion H as [ | k p' ks' ps' Hp Hrest]; subst; simpl.
  - exists []. now rewrite app_nil_r.
  - pose proof (ends_run HO RO Wd Hw F p _ tr w Hp) as Hr.
    destruct (value (run_from Wd p w tr)) as [e | a]; [exact Hr | ].
    specialize (IH _ (final (run_from Wd p w tr)) (trace (run_from Wd p w tr))
                   (done ++ [a]) Hrest).
    destruct (completed (drain Wd A ps _ _ (done ++ [a]))) as [e | out];
      [exact IH | ].
    destruct IH as (rs & -> & Hm).
    exists (a :: rs). rewrite <- app_assoc. simpl. split; congruence.
Qed.

Lemma delivers_step {X : Type} (k : B) (c : X -> prog A) (x : X)
      (ev : event) :
  wp HO RO (c x) (fun a _ => tag a = k) (fun _ _ => F) ([] ++ [ev]) ->
  delivers k (c x).
Proof.
  intros H. unfold ends.
  exact (wp_any_trace HO RO (c x) (fun a => tag a = k) (fun _ => F)
           _ [] H).
Qed.

(** Whatever the schedule, a pool that completes has delivered one result
    per coroutine: the completion order is a permutation of the submission
    order.  It completes unless a coroutine raises. *)
Lemma pool_delivers (sched : list nat) :
  forall ps ks w tr done,
    Forall2 delivers ks ps ->
    match completed (pool Wd A sched ps w tr done) with
    | inr out => exists rs, out = done ++ rs /\ Permutation (map tag rs) ks
    | inl _ => F
    end.
Proof.
  destruct Hw as [Hh Hr].
  induction sched as [ | i sched IH]; intros ps ks w tr done H.
  - pose proof (drain_delivers ps ks w tr done H) as Hd. simpl.
    destruct (completed (drain Wd A ps w tr done)) as [e | out]; [exact Hd | ].
    destruct Hd as (rs & -> & Hm). exists rs. rewrite Hm. auto.
  - simpl. destruct (nth_error ps (i mod length ps)) as [p | ] eqn:Hj.
    + destruct (pick_task ks ps H _ p Hj)
        as (k & ks1 & ks2 & -> & Hp & Hrm & Hrp).
      destruct p as [a | e | by_ url c | url deep c | c].
      * specialize (IH _ _ w tr (done ++ [a]) Hrm).
        destruct (completed (pool Wd A sched _ w tr (done ++ [a])))
          as [e | out]; [exact IH | ].
        destruct IH as (rs & -> & Hperm).
        exists (a :: rs). rewrite <- app_assoc. split; [reflexivity | ].
        simpl. unfold ends in Hp. simpl in Hp. rewrite Hp.
        apply Permutation_cons_app, Hperm.
      * unfold ends in Hp. simpl in Hp. exact Hp.
      * specialize (Hh url w). destruct (http Wd url w) as [o w'].
        apply IH. apply Hrp.
        unfold ends in Hp. simpl in Hp.
        eapply delivers_step. apply Hp, Hh.
      * specialize (Hr url deep w). destruct (render Wd url deep w) as [o w'].
        apply IH. apply Hrp.
        unfold ends in Hp. simpl in Hp.
        eapply delivers_step. apply Hp, Hr.
      * apply IH. apply Hrp.
        unfold ends in Hp. simpl in Hp.
        exact (wp_any_trace HO RO c (fun a => tag a = k) (fun _ => F)
                 _ [] Hp).
    + assert (ps = []) as ->.
      { destruct ps as [ | p ps]; [reflexivity | exfalso].
        apply nth_error_None in Hj.
        pose proof (Nat.mod_upper_bound i (length (p :: ps))) as Hlt.
        simpl in *. lia. }
      inversion H; subst. simpl. exists []. rewrite app_nil_r. auto.
Qed.

Lemma as_completed_delivers (sched : list nat) ps ks w :
  Forall2 delivers ks ps ->
  match completed (as_completed Wd A sched ps w) with
  | inr rs => Permutation (map tag rs) ks
  | inl _ => F
  end.
Proof.
  intros H. pose proof (pool_delivers sched ps ks w [] [] H) as Hp.
  unfold as_completed.
  destruct (completed (pool Wd A sched ps w [] [])) as [e | out];
    [exact Hp | ].
  destruct Hp as (rs & -> & Hperm). exact Hperm.
Qed.

End PoolFacts.

(** ** Reading the input *)

Lemma space_width_head (c : ascii) (s : string) :
  PyStr.space_width (String c s) = 0%nat -> PyStr.is_space c = false.
Proof.
  unfold PyStr.space_width. destruct (PyStr.is_space c); [discriminate | auto].
Qed.

(** A string that begins with no white space has no prefix that does. *)
Lemma space_width_prefix (t s : string) :
  prefix t s = true -> PyStr.space_width s = 0%nat ->
  PyStr.space_width t = 0%nat.
Proof.
  destruct t as [ | a t1]; [reflexivity | ].
  destruct s as [ | a' s1]; simpl; [discriminate | ].
  destruct (Ascii.ascii_dec a a') as [E | _]; [subst a' | discriminate].
  destruct (PyStr.is_space a); [discriminate | ].
  destruct t1 as [ | b t2]; [reflexivity | ].
  destruct s1 as [ | b' s2]; simpl; [discriminate | ].
  destruct (Ascii.ascii_dec b b') as [E | _]; [subst b' | discriminate].
  destruct (PyStr.is_space2 a b); [discriminate | ].
  destruct t2 as [ | c t3]; [reflexivity | ].
  destruct s2 as [ | c' s3]; simpl; [discriminate | ].
  destruct (Ascii.ascii_dec c c') as [E | _]; [subst c' | discriminate].
  destruct (PyStr.is_space3 a b c); [discriminate | reflexivity].
Qed.

Lemma prefix_nil (s : string) : prefix EmptyString s = true.
Proof. destruct s; reflexivity. Qed.

Lemma prefix_cons (c : ascii) (t s : string) :
  prefix t s = true -> prefix (String c t) (String c s) = true.
Proof.
  intros H. simpl. destruct (Ascii.ascii_dec c c); [exact H | congruence].
Qed.

(** The first token of a string that begins with no white space is a prefix
    of it. *)
Lemma first_token_prefix (s : string) :
  forall t ts,
    PyStr.split_from 0 s = t :: ts -> PyStr.space_width s = 0%nat ->
    prefix t s = true.
Proof.
  induction s as [ | c s IH]; intros t ts Hsplit Hw; [discriminate | ].
  cbn [PyStr.split_from] in Hsplit. rewrite Hw in Hsplit.
  destruct (PyStr.is_empty s || negb (PyStr.space_width s =? 0)%nat) eqn:Hb.
  - injection Hsplit as <- _. apply prefix_cons, prefix_nil.
  - apply orb_false_iff in Hb. destruct Hb as [_ Hb].
    apply negb_false_iff, Nat.eqb_eq in Hb.
    destruct (PyStr.split_from 0 s) as [ | t' ts'] eqn:Hs.
    + injection Hsplit as <- _. apply prefix_cons, prefix_nil.
    + injection Hsplit as <- _. apply prefix_cons.
      now apply (IH t' ts').
Qed.

Lemma split_from_tokens (s : string) :
  forall skip, Forall hostname (PyStr.split_from skip s).
Proof.
  induction s as [ | c s IH]; intros skip; [constructor | ].
  cbn [PyStr.split_from]. destruct skip as [ | k]; [ | apply IH].
  destruct (PyStr.space_width (String c s)) as [ | k] eqn:Hw; [ | apply IH].
  assert (Hone : hostname (String c EmptyString)).
  { split; [discriminate | ]. cbn [no_space].
    rewrite (space_width_prefix (String c EmptyString) (String c s));
      [reflexivity | apply prefix_cons, prefix_nil | exact Hw]. }
  destruct (PyStr.is_empty s || negb (PyStr.space_width s =? 0)%nat) eqn:Hb.
  - constructor; [exact Hone | apply IH].
  - apply orb_false_iff in Hb. destruct Hb as [_ Hb].
    apply negb_false_iff, Nat.eqb_eq in Hb.
    pose proof (IH 0%nat) as Htok.
    destruct (PyStr.split_from 0 s) as [ | t ts] eqn:Hs;
      [constructor; [exact Hone | constructor] | ].
    inversion Htok as [ | ? ? [Ht1 Ht2] Hts]; subst.
    constructor; [ | exact Hts].
    split; [discriminate | ]. cbn [no_space]. rewrite Ht2, andb_true_r.
    rewrite (space_width_prefix (String c t) (String c s));
      [reflexivity | | exact Hw].
    apply prefix_cons. now apply (first_token_prefix s t ts).
Qed.

Lemma split_ws_tokens (s : string) : Forall hostname (PyStr.split_ws s).
Proof. apply split_from_tokens. Qed.

Lemma lstrip_no_space (c : ascii) (s : string) :
  PyStr.space_width (String c s) = 0%nat ->
  PyStr.lstrip (String c s) = String c s.
Proof.
  intros H. unfold PyStr.lstrip. cbn [PyStr.lstrip_from]. now rewrite H.
Qed.

Lemma rstrip_no_space (s : string) : no_space s = true -> PyStr.rstrip s = s.
Proof.
  induction s as [ | c s IH]; [reflexivity | ].
  cbn [no_space PyStr.rstrip]. intros H.
  apply andb_true_iff in H. destruct H as [Hc Hs].
  apply Nat.eqb_eq in Hc.
  rewrite (lstrip_no_space c s Hc), IH; auto.
Qed.

Lemma strip_hostname (s : string) : hostname s -> PyStr.strip s = s.
Proof.
  intros [Hne Hs]. unfold PyStr.strip.
  destruct s as [ | c s]; [congruence | ].
  assert (Hc : PyStr.space_width (String c s) = 0%nat).
  { cbn [no_space] in Hs. apply andb_true_iff in Hs.
    destruct Hs as [Hc _]. now apply Nat.eqb_eq in Hc. }
  rewrite (lstrip_no_space c s Hc). now apply rstrip_no_space.
Qed.

Lemma hostname_not_blank (s : string) :
  hostname s -> PyStr.is_empty (PyStr.strip s) = false.
Proof.
  intros H. rewrite (strip_hostname s H). destruct H as [Hne _].
  destruct s; [congruence | reflexivity].
Qed.

(** What [Scraper.read_domains] returns: one pair per line that is not
    blank, numbered by the position of the line in the file, hosts that are
    tokens. *)
Lemma scraper_read_from (lines : list string) :
  forall idx ds,
    Scraper.read_from idx lines = inr ds ->
    map fst ds = nonblank_from idx lines /\
    Forall (fun d => (idx < fst d)%Z /\ hostname (snd d)) ds /\
    increasing ds.
Proof.
  induction lines as [ | line rest IH]; intros idx ds H; simpl in *.
  - injection H as <-. repeat split; constructor.
  - destruct (PyStr.is_empty (PyStr.strip line)).
    + destruct (IH _ _ H) as (H1 & H2 & H3). repeat split; auto.
      eapply Forall_impl; [ | exact H2]. simpl. intros d [Hd ?]. split; [lia | auto].
    + pose proof (split_ws_tokens
                    (PyStr.replace "https://" EmptyString
                       (PyStr.replace "http://" EmptyString
                          (PyStr.strip line)))) as Htok.
      destruct (PyStr.split_ws _) as [ | tok toks]; [discriminate | ].
      destruct (Scraper.read_from (idx + 1) rest) as [e | ds'] eqn:Hr;
        [discriminate | ].
      injection H as <-. destruct (IH _ _ Hr) as (H1 & H2 & H3).
      inversion Htok; subst. simpl. repeat split.
      * now rewrite H1.
      * constructor; [simpl; split; [lia | assumption] | ].
        eapply Forall_impl; [ | exact H2]. simpl. intros d [Hd ?].
        split; [lia | auto].
      * constructor; [exact H3 | ].
        eapply Forall_impl; [ | exact H2]. simpl. intros d [Hd ?]. lia.
Qed.

Lemma workflow_read_from (lines : list string) :
  forall idx ds,
    Workflow.read_from idx lines = inr ds ->
    map fst ds = map (fun i => idx + 1 + Z.of_nat i)%Z (seq 0 (length lines)) /\
    Forall (fun d => (idx < fst d)%Z /\ hostname (snd d)) ds /\
    increasing ds.
Proof.
  induction lines as [ | line rest IH]; intros idx ds H; simpl in *.
  - injection H as <-. repeat split; constructor.
  - pose proof (split_ws_tokens
                  (PyStr.replace "https://" EmptyString
                     (PyStr.replace "http://" EmptyString line))) as Htok.
    destruct (PyStr.split_ws _) as [ | tok toks]; [discriminate | ].
    destruct (Workflow.read_from (idx + 1) rest) as [e | ds'] eqn:Hr;
      [discriminate | ].
    injection H as <-. destruct (IH _ _ Hr) as (H1 & H2 & H3).
    inversion Htok; subst. simpl. repeat split.
    + f_equal; [lia | ]. rewrite H1, <- seq_shift, map_map.
      apply map_ext. intros i. lia.
    + constructor; [simpl; split; [lia | assumption] | ].
      eapply Forall_impl; [ | exact H2]. simpl. intros d [Hd ?].
      split; [lia | auto].
    + constructor; [exact H3 | ].
      eapply Forall_impl; [ | exact H2]. simpl. intros d [Hd ?]. lia.
Qed.

(** The input reads as soon as every line that is not blank leaves a token
    once the schemes are removed; a line that is a bare scheme does not. *)
Lemma scraper_read_ok (lines : list string) :
  Forall (fun line =>
            PyStr.is_empty (PyStr.strip line) = true \/
            PyStr.split_ws (PyStr.replace "https://" EmptyString
                              (PyStr.replace "http://" EmptyString
                                 (PyStr.strip line))) <> []) lines ->
  forall idx, exists ds, Scraper.read_from idx lines = inr ds.
Proof.
  induction 1 as [ | line rest Hline Hrest IH]; intros idx; simpl.
  - eauto.
  - destruct (PyStr.is_empty (PyStr.strip line)); [apply IH | ].
    destruct Hline as [Hb | Htok]; [discriminate | ].
    destruct (PyStr.split_ws _) as [ | tok toks]; [congruence | ].
    destruct (IH (idx + 1)%Z) as [ds ->]. eauto.
Qed.

Example bare_scheme_does_not_read :
  Scraper.read_domains ["example.com"; "http://"] = inl IndexError /\
  Workflow.read_domains ["example.com"; "https://"] = inl IndexError.
Proof. split; reflexivity. Qed.

(** ** Sorting by line number *)

Lemma insert_by_line_perm (r : DomainResult) (l : list DomainResult) :
  Permutation (insert_by_line r l) (r :: l).
Proof.
  induction l as [ | x l IH]; simpl; [reflexivity | ].
  destruct (line_number r <=? line_number x)%Z; [reflexivity | ].
  rewrite IH. apply perm_swap.
Qed.

Lemma sorted_by_line_perm (l : list DomainResult) :
  Permutation (sorted_by_line l) l.
Proof.
  induction l as [ | x l IH]; simpl; [reflexivity | ].
  rewrite insert_by_line_perm. now constructor.
Qed.

Lemma insert_by_line_sorted (r : DomainResult) (l : list DomainResult) :
  by_line l -> by_line (insert_by_line r l).
Proof.
  unfold by_line.
  induction l as [ | x l IH]; simpl; intros H.
  - repeat constructor.
  - inversion H as [ | ? ? Hl Hx]; subst.
    destruct (line_number r <=? line_number x)%Z eqn:Hc.
    + apply Z.leb_le in Hc. constructor; [exact H | ].
      constructor; [exact Hc | ].
      eapply Forall_impl; [ | exact Hx]. simpl. intros; lia.
    + apply Z.leb_gt in Hc. constructor; [now apply IH | ].
      eapply Permutation_Forall;
        [apply Permutation_sym, insert_by_line_perm | ].
      constructor; [lia | exact Hx].
Qed.

Lemma sorted_by_line_sorted (l : list DomainResult) :
  by_line (sorted_by_line l).
Proof.
  induction l as [ | x l IH]; simpl; [constructor | ].
  now apply insert_by_line_sorted.
Qed.

(** Records sorted by line whose keys are, in some order, a strictly
    increasing list of pairs carry those pairs in that very order. *)
Lemma sorted_keys_unique (l : list DomainResult) :
  forall ds,
    by_line l -> increasing ds -> Permutation (map key l) ds ->
    map key l = ds.
Proof.
  unfold by_line, increasing.
  induction l as [ | x l IH]; intros ds Hl Hds Hp; simpl in *.
  - apply Permutation_nil in Hp. now subst.
  - destruct ds as [ | d ds].
    + apply Permutation_sym, Permutation_nil in Hp. discriminate.
    + inversion Hl as [ | ? ? Hl' Hx]; subst.
      inversion Hds as [ | ? ? Hds' Hd]; subst.
      assert (Hxd : key x = d).
      { assert (Hin1 : In (key x) (d :: ds)).
        { eapply Permutation_in; [exact Hp | now left]. }
        assert (Hin2 : In d (key x :: map key l)).
        { eapply Permutation_in; [apply Permutation_sym, Hp | now left]. }
        destruct Hin1 as [E | Hin1]; [now symmetry | ].
        destruct Hin2 as [E | Hin2]; [exact E | ].
        exfalso.
        rewrite Forall_forall in Hd. specialize (Hd _ Hin1).
        apply in_map_iff in Hin2. destruct Hin2 as (y & <- & Hy).
        rewrite Forall_forall in Hx. specialize (Hx _ Hy).
        unfold key in Hd. simpl in Hd. lia. }
      subst d. f_equal. apply IH; auto.
      eapply Permutation_cons_inv, Hp.
Qed.

Lemma sorted_by_line_keys (l : list DomainResult) (ds : list (Z * string)) :
  increasing ds -> Permutation (map key l) ds ->
  map key (sorted_by_line l) = ds.
Proof.
  intros Hds Hp. apply sorted_keys_unique; auto.
  - apply sorted_by_line_sorted.
  - rewrite <- Hp. apply Permutation_map, sorted_by_line_perm.
Qed.

Lemma increasing_NoDup (ds : list (Z * string)) :
  increasing ds -> NoDup (map fst ds).
Proof.
  unfold increasing. induction 1 as [ | d ds Hs IH Hd]; simpl; constructor.
  - intros Hin. apply in_map_iff in Hin. destruct Hin as (y & Hy & Hin).
    rewrite Forall_forall in Hd. specialize (Hd _ Hin). lia.
  - exact IH.
Qed.

(** ** The result dictionary *)

Lemma dict_set_fresh (k : Z) (v : DomainResult) (d : dict) :
  ~ In k (map fst d) -> dict_set k v d = d ++ [(k, v)].
Proof.
  induction d as [ | [k' v'] d IH]; simpl; intros H; [reflexivity | ].
  destruct (k =? k')%Z eqn:E.
  - apply Z.eqb_eq in E. subst. tauto.
  - rewrite IH; tauto.
Qed.

Lemma dict_of_results_fold (rs : list DomainResult) :
  forall acc,
    NoDup (map fst acc ++ map line_number rs) ->
    fold_left (fun d r => dict_set (line_number r) r d) rs acc
    = acc ++ map (fun r => (line_number r, r)) rs.
Proof.
  induction rs as [ | r rs IH]; intros acc H; simpl.
  - now rewrite app_nil_r.
  - rewrite dict_set_fresh.
    + rewrite IH.
      * now rewrite <- app_assoc.
      * rewrite map_app, <- app_assoc. exact H.
    + apply NoDup_remove_2 in H. intros Hin. apply H.
      apply in_or_app. now left.
Qed.

(** With distinct line numbers the comprehension keeps the order of the
    results. *)
Lemma dict_of_results_distinct (rs : list DomainResult) :
  NoDup (map line_number rs) ->
  dict_of_results rs = map (fun r => (line_number r, r)) rs.
Proof.
  intros H. unfold dict_of_results. now rewrite dict_of_results_fold.
Qed.

Lemma merged_initial (rs : list DomainResult) :
  Forall2 (merged []) (map (fun r => (line_number r, r)) rs) rs.
Proof.
  induction rs as [ | r rs IH]; simpl; constructor; auto.
  unfold merged. simpl. auto.
Qed.

Lemma merged_more (seen seen' : list DomainResult) d rs :
  Forall2 (merged seen) d rs -> Forall2 (merged (seen ++ seen')) d rs.
Proof.
  intros H. eapply Forall2_impl; [ | exact H].
  intros kv r (H1 & H2 & [H3 | (H3 & H4 & H5)]); repeat split; auto.
  right. repeat split; auto. apply in_or_app. now left.
Qed.

(** Storing a deep record that found addresses for the line of [r], a Pass 1
    record without any. *)
Lemma merged_set (seen : list DomainResult) (dr r : DomainResult) d rs :
  NoDup (map line_number rs) ->
  Forall2 (merged seen) d rs ->
  In r rs -> found r = false -> key dr = key r -> found dr = true ->
  In dr seen ->
  Forall2 (merged seen) (dict_set (line_number dr) dr d) rs.
Proof.
  intros Hnd H. revert Hnd.
  induction H as [ | [k v] r0 d rs Hm Hrest IH]; intros Hnd Hin Hf Hk Hfd Hs.
  - destruct Hin.
  - simpl in Hnd. inversion Hnd as [ | ? ? Hnot Hnd']; subst.
    assert (Hln : line_number dr = line_number r).
    { unfold key in Hk. congruence. }
    destruct Hm as (Hm1 & Hm2 & Hm3). simpl in Hm1. subst k.
    simpl. destruct (line_number dr =? line_number r0)%Z eqn:E.
    + apply Z.eqb_eq in E. constructor; [ | exact Hrest].
      assert (r = r0) as <-.
      { destruct Hin as [-> | Hin]; [reflexivity | exfalso].
        apply Hnot. rewrite <- E, Hln. now apply in_map. }
      unfold merged. simpl. repeat split; auto.
    + apply Z.eqb_neq in E. constructor; [unfold merged; simpl; auto | ].
      apply IH; auto. destruct Hin as [-> | Hin]; [congruence | exact Hin].
Qed.

Lemma merged_keys (seen : list DomainResult) d rs :
  Forall2 (merged seen) d rs -> map key (dict_values d) = map key rs.
Proof.
  induction 1 as [ | kv r d rs (H1 & H2 & H3) Hrest IH]; simpl; congruence.
Qed.

Lemma merged_get (seen : list DomainResult) d rs :
  Forall2 (merged seen) d rs ->
  forall i rf,
    dict_get i d = Some rf ->
    exists r1, In r1 rs /\ line_number r1 = i /\ merged seen (i, rf) r1.
Proof.
  induction 1 as [ | [k v] r d rs Hm Hrest IH]; intros i rf Hg; simpl in *.
  - discriminate.
  - destruct (i =? k)%Z eqn:E.
    + apply Z.eqb_eq in E. subst k. injection Hg as <-.
      exists r. destruct Hm as (H1 & H2 & H3). simpl in *.
      repeat split; auto.
    + destruct (IH i rf Hg) as (r1 & Hin & Hl & Hm').
      exists r1. auto.
Qed.

(** ** [scraper.py]: the two passes *)

Lemma found_not_found (r : DomainResult) :
  found r = negb (Scraper.is_not_found r).
Proof. reflexivity. Qed.

(** The lemmas of this section hold of every environment when [F] is [True],
    and of an environment that delivers no text the parser rejects when [F]
    is [False]. *)
Section ScraperMain.
Variable set_iter : list string -> list string.
Variable urljoin : string -> string -> exn + string.
Variable validate_email : string -> bool.
Variable HO : http_outcome -> Prop.
Variable RO : render_outcome -> Prop.
Variable F : Prop.
Hypothesis Hhttp : forall o, HO o -> F \/ parses_http o.
Hypothesis Hrender : forall o, RO o -> F \/ parses_render o.
Variable Wd : World.
Hypothesis Hw : answers HO RO Wd.

Local Notation "'check'" :=
  (Scraper.check_domain set_iter urljoin validate_email).
Local Notation "'ENDS'" := (ends HO RO F).

Lemma check_domain_key (d : string) (ln : Z) (deep : bool) :
  hostname d -> ENDS (fun r => key r = (ln, d)) (check d ln deep).
Proof.
  intros Hd.
  eapply ends_weaken;
    [ | | apply (check_domain_ends set_iter urljoin validate_email HO RO F
                   Hhttp Hrender d ln deep)]; [ | auto].
  intros r [H1 H2]. rewrite (hostname_not_blank d Hd) in H2.
  unfold key. congruence.
Qed.

Lemma pass1_tasks (ds : list (Z * string)) :
  Forall (fun d => hostname (snd d)) ds ->
  Forall2 (fun k p => ENDS (fun r => key r = k) p) ds
          (map (fun '(line_no, d) => check d line_no false) ds).
Proof.
  induction 1 as [ | [ln d] ds Hd Hds IH]; simpl; constructor; auto.
  now apply check_domain_key.
Qed.

Lemma retry_tasks (l : list DomainResult) :
  Forall2 (fun (k : unit) p => ENDS (fun _ => tt = k) p)
          (map (fun _ => tt) l)
          (map (fun r => check (domain r) (line_number r) true) l).
Proof.
  induction l as [ | r l IH]; simpl; constructor; auto.
  eapply ends_weaken;
    [ | | apply (check_domain_ends set_iter urljoin validate_email HO RO F
                   Hhttp Hrender)]; auto.
Qed.

Lemma merge_loop_ends (rs : list DomainResult) :
  NoDup (map line_number rs) ->
  forall to_retry d seen,
    Forall (fun r => In r rs /\ found r = false /\ hostname (domain r))
           to_retry ->
    Forall2 (merged seen) d rs ->
    ENDS (fun out => Forall2 (merged (snd out)) (fst out) rs)
         (Scraper.merge_loop set_iter urljoin validate_email to_retry d seen).
Proof.
  intros Hnd.
  induction to_retry as [ | r rest IH]; intros d seen Hall Hm;
    cbn -[Scraper.check_domain].
  - exact Hm.
  - inversion Hall as [ | ? ? (Hin & Hf & Hh) Hrest]; subst.
    eapply ends_bind; [apply (check_domain_key _ (line_number r) true Hh) | ].
    intros dr Hk. cbn beta.
    apply IH; [exact Hrest | ].
    fold (found dr). destruct (found dr) eqn:Hfd.
    + apply merged_set with (r := r); auto.
      * now apply merged_more.
      * apply in_or_app. right. now left.
    + now apply merged_more.
Qed.

(** How [main] ends, under every schedule: with an input that does not read
    it raises what the reading raised; with no host it returns early; with
    hosts it reaches the final write, unless a check raised. *)
Lemma main_ends (lines : list string) (sched1 sched2 : list nat)
      (w : wstate Wd) :
  match Scraper.main set_iter urljoin validate_email Wd lines sched1 sched2 w
  with
  | Scraper.Finished rep =>
      exists ds,
        Scraper.read_domains lines = inr ds /\ ds <> [] /\
        Permutation (map key (Scraper.results_pass1 rep)) ds /\
        Scraper.to_retry rep
        = filter Scraper.is_not_found (Scraper.results_pass1 rep) /\
        Forall2 (merged (Scraper.deep_results rep))
                (Scraper.final_results rep) (Scraper.results_pass1 rep) /\
        Scraper.output_file rep
        = header :: map row_of
                      (sorted_by_line
                         (dict_values (Scraper.final_results rep)))
  | Scraper.NoDomains => Scraper.read_domains lines = inr []
  | Scraper.Crashed e => Scraper.read_domains lines = inl e \/ F
  end.
Proof.
  unfold Scraper.main.
  destruct (Scraper.read_domains lines) as [e | ds] eqn:Hread; [now left | ].
  destruct ds as [ | d0 ds0]; [reflexivity | ].
  set (ds := d0 :: ds0) in *.
  destruct (scraper_read_from lines 0 ds Hread) as (Hpos & Hall & Hinc).
  assert (Hhosts : Forall (fun d => hostname (snd d)) ds).
  { eapply Forall_impl; [ | exact Hall]. simpl. tauto. }
  cbv zeta.
  pose proof (as_completed_delivers HO RO Wd Hw F DomainResult (Z * string)
                key sched1 _ ds w (pass1_tasks ds Hhosts)) as Hp1.
  destruct (completed (as_completed Wd DomainResult sched1 _ w))
    as [e | rs]; [now right | ].
  assert (Hnd : NoDup (map line_number rs)).
  { apply (Permutation_NoDup (l := map fst ds)); [ | now apply increasing_NoDup].
    apply Permutation_sym.
    replace (map line_number rs) with (map fst (map key rs))
      by (rewrite map_map; reflexivity).
    now apply Permutation_map. }
  set (to_retry := filter Scraper.is_not_found rs).
  assert (Hretry : Forall (fun r => In r rs /\ found r = false /\
                                    hostname (domain r)) to_retry).
  { apply Forall_forall. intros r Hr. apply filter_In in Hr.
    destruct Hr as [Hin Hnf]. split; [exact Hin | split].
    - rewrite found_not_found, Hnf. reflexivity.
    - assert (Hk : In (key r) ds).
      { eapply Permutation_in; [exact Hp1 | now apply in_map]. }
      rewrite Forall_forall in Hhosts. exact (Hhosts _ Hk). }
  set (p2 := if Scraper.nonempty to_retry then _ else _).
  assert (Hp2 : match completed p2 with inr _ => True | inl _ => F end).
  { subst p2. destruct (Scraper.nonempty to_retry); [ | exact I].
    pose proof (as_completed_delivers HO RO Wd Hw F DomainResult unit
                  (fun _ => tt) sched2 _ _
                  (pool_final (as_completed Wd DomainResult sched1
                     (map (fun '(line_no, d) => check d line_no false) ds) w))
                  (retry_tasks to_retry)) as Hd.
    destruct (completed (as_completed Wd DomainResult sched2 _ _));
      [exact Hd | exact I]. }
  destruct (completed p2) as [e | l]; [now right | ].
  pose proof (ends_run HO RO Wd Hw F
                (Scraper.merge_loop set_iter urljoin validate_email to_retry
                   (dict_of_results rs) [])
                _ [] (pool_final p2)
                (merge_loop_ends rs Hnd to_retry (dict_of_results rs) []
                   Hretry
                   (eq_ind_r (fun d => Forall2 (merged []) d rs)
                      (merged_initial rs) (dict_of_results_distinct rs Hnd))))
    as Hm.
  unfold run.
  destruct (value (run_from Wd _ (pool_final p2) [])) as [e | [fin deep]];
    [now right | ].
  exists ds. cbn. repeat split; auto. discriminate.
Qed.

End ScraperMain.

(** In an environment that delivers no text the parser rejects, [main]
    reaches the final write as soon as the input reads and names a host. *)
Lemma main_finishes set_iter urljoin validate_email (Wd : World)
      (Hw : answers parses_http parses_render Wd)
      (lines : list string) (ds : list (Z * string))
      (sched1 sched2 : list nat) (w : wstate Wd) :
  Scraper.read_domains lines = inr ds -> ds <> [] ->
  exists rep,
    Scraper.main set_iter urljoin validate_email Wd lines sched1 sched2 w
    = Scraper.Finished rep.
Proof.
  intros Hread Hne.
  pose proof (main_ends set_iter urljoin validate_email parses_http
                parses_render False (fun o H => or_intror H)
                (fun o H => or_intror H) Wd Hw lines sched1 sched2 w) as H.
  destruct (Scraper.main set_iter urljoin validate_email Wd lines sched1
              sched2 w) as [e | | rep].
  - destruct H as [H | []]. congruence.
  - congruence.
  - eauto.
Qed.

(** What a run that reaches the final write has done, in any environment. *)
Lemma main_finished set_iter urljoin validate_email (Wd : World)
      (lines : list string) (sched1 sched2 : list nat) (w : wstate Wd) rep :
  Scraper.main set_iter urljoin validate_email Wd lines sched1 sched2 w
  = Scraper.Finished rep ->
  exists ds,
    Scraper.read_domains lines = inr ds /\ ds <> [] /\
    Permutation (map key (Scraper.results_pass1 rep)) ds /\
    Scraper.to_retry rep
    = filter Scraper.is_not_found (Scraper.results_pass1 rep) /\
    Forall2 (merged (Scraper.deep_results rep))
            (Scraper.final_results rep) (Scraper.results_pass1 rep) /\
    Scraper.output_file rep
    = header :: map row_of
                  (sorted_by_line (dict_values (Scraper.final_results rep))).
Proof.
  intros Hmain.
  pose proof (main_ends set_iter urljoin validate_email any_http any_render
                True (fun o H => or_introl I) (fun o H => or_introl I)
                Wd (answers_any Wd) lines sched1 sched2 w) as H.
  rewrite Hmain in H. exact H.
Qed.

Lemma merged_lookup (seen : list DomainResult) d rs :
  Forall2 (merged seen) d rs -> NoDup (map line_number rs) ->
  forall r1,
    In r1 rs ->
    exists rf,
      dict_get (line_number r1) d = Some rf /\
      merged seen (line_number r1, rf) r1.
Proof.
  induction 1 as [ | [k v] r d rs Hm Hrest IH]; intros Hnd r1 Hin.
  - destruct Hin.
  - simpl in Hnd. inversion Hnd as [ | ? ? Hnot Hnd']; subst.
    destruct Hm as (H1 & H2 & H3). simpl in H1. subst k. simpl.
    destruct Hin as [-> | Hin].
    + rewrite Z.eqb_refl. exists v. unfold merged. simpl. auto.
    + destruct (line_number r1 =? line_number r)%Z eqn:E.
      * apply Z.eqb_eq in E. exfalso. apply Hnot. rewrite <- E.
        now apply in_map.
      * now apply IH.
Qed.

Lemma keys_NoDup (rs : list DomainResult) (ds : list (Z * string)) :
  increasing ds -> Permutation (map key rs) ds ->
  NoDup (map line_number rs).
Proof.
  intros Hinc Hperm.
  apply (Permutation_NoDup (l := map fst ds)); [ | now apply increasing_NoDup].
  apply Permutation_sym.
  replace (map line_number rs) with (map fst (map key rs))
    by (rewrite map_map; reflexivity).
  now apply Permutation_map.
Qed.

(** ** The sibling script: the single pass *)

(** As above: every environment when [F] is [True]; an environment that
    raises only what [fetch_page] catches and delivers no text the parser
    rejects and no link on which [urljoin] raises, when [F] is [False]. *)
Section WorkflowMain.
Variable set_iter : list string -> list string.
Variable urljoin : string -> string -> exn + string.
Variable validate_email : string -> bool.
Variable HO : http_outcome -> Prop.
Variable RO : render_outcome -> Prop.
Variable F : Prop.
Hypothesis Hhttp : forall o, HO o -> F \/ harmless_http urljoin o.
Variable Wd : World.
Hypothesis Hw : answers HO RO Wd.

Lemma workflow_tasks (ds : list (Z * string)) :
  Forall (fun d => hostname (snd d)) ds ->
  Forall2 (fun k p => ends HO RO F (fun r => key r = k) p)
          ds
          (map (fun '(line_no, d) =>
                  Workflow.check_domain set_iter urljoin validate_email
                    d line_no) ds).
Proof.
  induction 1 as [ | [ln d] ds Hd Hds IH]; simpl; constructor; auto.
  eapply ends_weaken;
    [ | | apply (check_domain_ends_w set_iter urljoin validate_email HO RO F
                   Hhttp d ln)]; [ | auto].
  intros r [H1 H2]. simpl in Hd. rewrite (strip_hostname d Hd) in H2.
  unfold key. congruence.
Qed.

Lemma main_ends_w (file : list string) (sched : list nat) (w : wstate Wd) :
  match Workflow.main set_iter urljoin validate_email Wd file sched w with
  | Workflow.Finished rep =>
      exists ds,
        Workflow.read_domains file = inr ds /\ ds <> [] /\
        Permutation (map key (Workflow.results rep)) ds /\
        Workflow.interim_file rep
        = header :: map row_of (Workflow.results rep) /\
        Workflow.output_file rep
        = header :: map row_of (sorted_by_line (Workflow.results rep))
  | Workflow.NoDomains => Workflow.read_domains file = inr []
  | Workflow.Crashed e => Workflow.read_domains file = inl e \/ F
  end.
Proof.
  unfold Workflow.main.
  destruct (Workflow.read_domains file) as [e | ds] eqn:Hread; [now left | ].
  destruct ds as [ | d0 ds0]; [reflexivity | ].
  set (ds := d0 :: ds0) in *.
  destruct (workflow_read_from _ 0 ds Hread) as (Hpos & Hall & Hinc).
  assert (Hhosts : Forall (fun d => hostname (snd d)) ds).
  { eapply Forall_impl; [ | exact Hall]. simpl. tauto. }
  cbv zeta.
  pose proof (as_completed_delivers HO RO Wd Hw F DomainResult (Z * string)
                key sched _ ds w (workflow_tasks ds Hhosts)) as Hp.
  destruct (completed (as_completed Wd DomainResult sched _ w))
    as [e | rs]; [now right | ].
  exists ds. cbn. repeat split; auto. discriminate.
Qed.

End WorkflowMain.

Lemma main_finishes_w set_iter urljoin validate_email (Wd : World)
      (Hw : answers (harmless_http urljoin) any_render Wd)
      (file : list string) (ds : list (Z * string))
      (sched : list nat) (w : wstate Wd) :
  Workflow.read_domains file = inr ds -> ds <> [] ->
  exists rep,
    Workflow.main set_iter urljoin validate_email Wd file sched w
    = Workflow.Finished rep.
Proof.
  intros Hread Hne.
  pose proof (main_ends_w set_iter urljoin validate_email
                (harmless_http urljoin) any_render False
                (fun o H => or_intror H) Wd Hw file sched w) as H.
  destruct (Workflow.main set_iter urljoin validate_email Wd file sched w)
    as [e | | rep].
  - destruct H as [H | []]. congruence.
  - congruence.
  - eauto.
Qed.

Lemma main_finished_w set_iter urljoin validate_email (Wd : World)
      (file : list string) (sched : list nat) (w : wstate Wd) rep :
  Workflow.main set_iter urljoin validate_email Wd file sched w
  = Workflow.Finished rep ->
  exists ds,
    Workflow.read_domains file = inr ds /\ ds <> [] /\
    Permutation (map key (Workflow.results rep)) ds /\
    Workflow.interim_file rep = header :: map row_of (Workflow.results rep) /\
    Workflow.output_file rep
    = header :: map row_of (sorted_by_line (Workflow.results rep)).
Proof.
  intros Hmain.
  pose proof (main_ends_w set_iter urljoin validate_email any_http any_render
                True (fun o H => or_introl I)
                Wd (answers_any Wd) file sched w) as H.
  rewrite Hmain in H. exact H.
Qed.



(** The sibling script keeps the lines [scraper.py] numbers. *)
Lemma read_lines_length (lines : list string) :
  forall idx,
    length (Workflow.read_lines lines) = length (nonblank_from idx lines).
Proof.
  unfold Workflow.read_lines.
  induction lines as [ | line rest IH]; intros idx; simpl; [reflexivity | ].
  destruct (PyStr.is_empty (PyStr.strip line)); simpl; auto.
Qed.

(** ** The fixtures are legitimate *)

Lemma dedup_In (l : list string) : forall x, In x (Fixtures.dedup l) <-> In x l.
Proof.
  induction l as [ | y l IH]; intros x; simpl; [tauto | ].
  rewrite filter_In, IH, negb_true_iff.
  destruct (String.eqb_spec y x) as [-> | Hne].
  - tauto.
  - intuition congruence.
Qed.

Lemma dedup_NoDup (l : list string) : NoDup (Fixtures.dedup l).
Proof.
  induction l as [ | y l IH]; simpl; constructor.
  - rewrite filter_In, String.eqb_refl. intros [_ H]. discriminate.
  - now apply NoDup_filter.
Qed.

Lemma insertion_order_ok : set_order Fixtures.insertion_order.
Proof.
  intros l. split; [apply dedup_NoDup | apply dedup_In].
Qed.

Lemma reverse_order_ok : set_order Fixtures.reverse_order.
Proof.
  intros l. unfold Fixtures.reverse_order. split.
  - apply NoDup_rev, dedup_NoDup.
  - intros x. rewrite <- in_rev. apply dedup_In.
Qed.

(** A site answers within [HO] and [RO] when its listed answers and the
    answer of an unlisted URL do. *)
Lemma site_answers (HO : http_outcome -> Prop) (RO : render_outcome -> Prop)
      pages rendered :
  HO (HttpRaise ClientError) -> RO (RenderRaise PlaywrightError) ->
  Forall (fun e => HO (snd e)) pages ->
  Forall (fun e => RO (snd e)) rendered ->
  answers HO RO (Fixtures.site pages rendered).
Proof.
  intros H0 R0 H R. split.
  - intros url w. simpl. clear w.
    induction H as [ | [u o] pages Ho Hrest IH]; simpl; [exact H0 | ].
    destruct (String.eqb url u); [exact Ho | exact IH].
  - intros url deep w. simpl. clear w.
    induction R as [ | [u o] rendered Ro Hrest IH]; simpl; [exact R0 | ].
    destruct (String.eqb url u); [exact Ro | exact IH].
Qed.

Lemma fixture_urljoin (base href : string) :
  PyStr.startswith "//[" href && negb (PyStr.contains "]" href) = false ->
  exists full, Fixtures.urljoin base href = inr full.
Proof.
  intros H. unfold Fixtures.urljoin. rewrite H.
  destruct (PyStr.contains "://" href); [eauto | ].
  destruct (PyStr.startswith "/" href); eauto.
Qed.

Lemma example_site_parses :
  answers parses_http parses_render Fixtures.example_site.
Proof. apply site_answers; repeat constructor. Qed.

Lemma rendered_site_parses :
  answers parses_http parses_render Fixtures.rendered_site.
Proof. apply site_answers; repeat constructor. Qed.

Lemma example_site_harmless :
  answers (harmless_http Fixtures.urljoin) any_render Fixtures.example_site.
Proof.
  apply site_answers; repeat constructor.
  intros base href [<- | []]. now apply fixture_urljoin.
Qed.

(** The final write is not reached in every environment: the sibling script
    stops on a link [urljoin] refuses and on a text the parser rejects, where
    [scraper.py] absorbs the first inside [discover_relevant_pages]. *)
Example sibling_main_stops :
  Workflow.main Fixtures.insertion_order Fixtures.urljoin
    Fixtures.validate_email Fixtures.bad_link_site ["example.com"] [] tt
  = Workflow.Crashed ValueError /\
  Workflow.main Fixtures.insertion_order Fixtures.urljoin
    Fixtures.validate_email Fixtures.rejected_site ["example.com"] [] tt
  = Workflow.Crashed ParserRejectedMarkup /\
  value (run Fixtures.bad_link_site
           (Scraper.check_domain Fixtures.insertion_order Fixtures.urljoin
              Fixtures.validate_email "example.com" 1 false) tt)
  = inr (mkResult 1 "example.com" "Not found" EmptyString).
Proof. vm_compute. repeat split. Qed.

Lemma strip_all_space (s : string) :
  all_space s = true -> PyStr.strip s = EmptyString.
Proof.
  unfold PyStr.strip, PyStr.lstrip.
  induction s as [ | c s IH]; [reflexivity | ].
  cbn [all_space PyStr.lstrip_from PyStr.space_width].
  intros H. apply andb_true_iff in H. destruct H as [Hc Hs].
  rewrite Hc. now apply IH.
Qed.

(** ** Page discovery: what does hold *)

(** [scraper.py]: at most ten pages, none when the base URL gives no
    document; [check_domain] then falls back on the base URL alone. *)
Lemma scraper_discover_run set_iter urljoin (Wd : World) (w : wstate Wd)
      (base_url : string) :
  exists pages,
    value (run Wd (Scraper.discover_relevant_pages set_iter urljoin base_url) w)
    = inr pages /\
    (length pages <= 10)%nat /\
    (delivered (fst (http Wd base_url w)) = None -> pages = []).
Proof.
  unfold run, Scraper.discover_relevant_pages, bind, session_get. cbn -[firstn].
  unfold delivered, delivered_text.
  destruct (http Wd base_url w) as [[e | r] w']; cbn -[firstn].
  - exists []. repeat split; auto. cbn -[firstn]. lia.
  - destruct (status r =? 200)%Z; cbn -[firstn].
    + unfold response_text.
      destruct (text r) as [[h | source e] | e]; cbn -[firstn].
      * destruct (Scraper.relevant_links urljoin base_url h); cbn -[firstn].
        -- exists []. repeat split; auto. cbn -[firstn]. lia.
        -- eexists. split; [reflexivity | split; [ | discriminate]].
           rewrite length_firstn. lia.
      * exists []. repeat split; auto. cbn -[firstn]. lia.
      * exists []. repeat split; auto. cbn -[firstn]. lia.
    + exists []. repeat split; auto. cbn -[firstn]. lia.
Qed.

(** The sibling script: at most five pages, and the base URL alone when it
    gives no document. *)
Lemma workflow_discover_run set_iter urljoin (Wd : World) (w : wstate Wd)
      (base_url : string) pages :
  value (run Wd (Workflow.get_relevant_pages set_iter urljoin base_url) w)
  = inr pages ->
  (length pages <= 5)%nat /\
  (delivered (fst (http Wd base_url w)) = None -> pages = [base_url]).
Proof.
  unfold run, Workflow.get_relevant_pages, Workflow.fetch_page, bind,
    session_get. cbn -[firstn].
  unfold delivered, delivered_text.
  destruct (http Wd base_url w) as [[e | r] w']; cbn -[firstn].
  - destruct e; cbn -[firstn]; intros H; try discriminate; injection H as <-;
      cbn -[firstn]; split; auto; lia.
  - destruct (status r =? 200)%Z; cbn -[firstn].
    + unfold response_text.
      destruct (text r) as [[h | source e] | e]; cbn -[firstn].
      * destruct (PyStr.is_empty (raw h)); cbn -[firstn].
        -- intros H. injection H as <-. cbn. split; [lia | auto].
        -- destruct (Workflow.links urljoin base_url h) as [e | ls];
             cbn -[firstn]; intros H; [discriminate | ].
           assert (Hp : firstn 5 (set_iter ls) = pages) by congruence.
           rewrite <- Hp. split; [rewrite length_firstn; lia | discriminate].
      * destruct (PyStr.is_empty source); cbn -[firstn]; intros H.
        -- injection H as <-. cbn. split; [lia | auto].
        -- discriminate.
      * destruct e; cbn -[firstn]; intros H; try discriminate; injection H as <-;
          cbn -[firstn]; split; auto; lia.
    + intros H; injection H as <-. cbn -[firstn]. split; auto; lia.
Qed.

(** ** The sink does not see the completion order *)

Lemma by_line_unique (l1 : list DomainResult) :
  forall l2,
    by_line l1 -> by_line l2 -> Permutation l1 l2 ->
    NoDup (map line_number l1) -> l1 = l2.
Proof.
  unfold by_line.
  induction l1 as [ | x l1 IH]; intros l2 H1 H2 Hp Hnd.
  - apply Permutation_nil in Hp. now subst.
  - destruct l2 as [ | y l2].
    + apply Permutation_sym, Permutation_nil in Hp. discriminate.
    + inversion H1 as [ | ? ? H1' Hx]; subst.
      inversion H2 as [ | ? ? H2' Hy]; subst.
      simpl in Hnd. inversion Hnd as [ | ? ? Hnot Hnd']; subst.
      assert (Hxy : x = y).
      { assert (Hin1 : In x (y :: l2)).
        { eapply Permutation_in; [exact Hp | now left]. }
        assert (Hin2 : In y (x :: l1)).
        { eapply Permutation_in; [apply Permutation_sym, Hp | now left]. }
        destruct Hin1 as [E | Hin1]; [now symmetry | ].
        destruct Hin2 as [E | Hin2]; [exact E | ].
        exfalso. apply Hnot.
        rewrite Forall_forall in Hx, Hy.
        specialize (Hx _ Hin2). specialize (Hy _ Hin1).
        replace (line_number x) with (line_number y) by lia.
        now apply in_map. }
      subst y. f_equal. apply IH; auto.
      eapply Permutation_cons_inv, Hp.
Qed.

(** Results with distinct line numbers sort to the same list in whatever
    order they were collected. *)
Lemma sorted_by_line_order_free (l1 l2 : list DomainResult) :
  Permutation l1 l2 -> NoDup (map line_number l1) ->
  sorted_by_line l1 = sorted_by_line l2.
Proof.
  intros Hp Hnd. apply by_line_unique.
  - apply sorted_by_line_sorted.
  - apply sorted_by_line_sorted.
  - rewrite sorted_by_line_perm, Hp. symmetry. apply sorted_by_line_perm.
  - eapply Permutation_NoDup; [ | exact Hnd].
    apply Permutation_map. symmetry. apply sorted_by_line_perm.
Qed.

(** A record of [scraper.py] whose [emails] field is not [Not found] holds
    at least one validated address. *)
Lemma result_of_found_has_email set_iter validate_email d ln st :
  found (Scraper.result_of set_iter validate_email d ln st) = true ->
  exists e,
    In e (filter validate_email (set_iter (Scraper.st_emails st))) /\
    validate_email e = true.
Proof.
  unfold found, Scraper.result_of. simpl.
  destruct (filter validate_email (set_iter (Scraper.st_emails st)))
    as [ | e l] eqn:Hf; simpl.
  - discriminate.
  - intros _. exists e. split; [now left | ].
    assert (Hin : In e (filter validate_email
                          (set_iter (Scraper.st_emails st)))).
    { rewrite Hf. now left. }
    apply filter_In in Hin. tauto.
Qed.

(** ** Counting the events of a run *)

Lemma count_app (P : event -> bool) (l1 l2 : list event) :
  count P (l1 ++ l2) = (count P l1 + count P l2)%nat.
Proof. unfold count. now rewrite filter_app, length_app. Qed.

Lemma count_one (P : event -> bool) (ev : event) : count P [ev] = weight P ev.
Proof. unfold count, weight. simpl. now destruct (P ev). Qed.

Section EmitsFacts.
Variable P : event -> bool.

Lemma emits_mono {A : Type} (p : prog A) :
  forall n (R R' : A -> nat -> Prop) (X X' : exn -> nat -> Prop),
    (forall a m, R a m -> R' a m) ->
    (forall e m, X e m -> X' e m) ->
    emits P p n R X -> emits P p n R' X'.
Proof.
  induction p as [a | e | by_ url k IH | url deep k IH | k IH];
    intros n R R' X X' HR HX; simpl; auto.
  - intros H o. destruct (H o) as (m & Hn & Hm). exists m. split; eauto.
  - intros H o. destruct (H o) as (m & Hn & Hm). exists m. split; eauto.
  - intros (m & Hn & Hm). exists m. split; eauto.
Qed.

Lemma emits_try_except {A B : Type} (p : prog A) :
  forall (f : A -> prog B) (h : exn -> prog B) n R X,
    emits P p n (fun a m => emits P (f a) m R X)
                (fun e m => emits P (h e) m R X) ->
    emits P (try_except p f h) n R X.
Proof.
  induction p as [a | e | by_ url k IH | url deep k IH | k IH];
    intros f h n R X; simpl; auto.
  - intros H o. destruct (H o) as (m & Hn & Hm). exists m. split; auto.
  - intros H o. destruct (H o) as (m & Hn & Hm). exists m. split; auto.
  - intros (m & Hn & Hm). exists m. split; auto.
Qed.

Lemma emits_bind {A B : Type} (p : prog A) (f : A -> prog B) n R X :
  emits P p n (fun a m => emits P (f a) m R X) X ->
  emits P (bind p f) n R X.
Proof.
  intros H. unfold bind. apply emits_try_except.
  eapply emits_mono; [ | | exact H]; simpl; auto.
Qed.

(** A coroutine that emits exactly [n], followed by one that emits exactly
    [m]. *)
Lemma emits_exactly_bind {A B : Type} (p : prog A) (f : A -> prog B) n m :
  emits P p (n + m) (fun _ k => k = m) (fun _ _ => True) ->
  (forall a, emits_exactly P m (f a)) ->
  emits_exactly P (n + m) (bind p f).
Proof.
  intros Hp Hf. unfold emits_exactly. apply emits_bind.
  eapply emits_mono; [ | | exact Hp]; simpl; [ | tauto].
  intros a k ->. apply Hf.
Qed.

Lemma emits_run (Wd : World) {A : Type} (p : prog A) :
  forall n R X (w : wstate Wd) tr,
    emits P p n R X ->
    exists m,
      (count P (trace (run_from Wd p w tr)) + m = count P tr + n)%nat /\
      match value (run_from Wd p w tr) with
      | inr a => R a m
      | inl e => X e m
      end.
Proof.
  induction p as [a | e | by_ url k IH | url deep k IH | k IH];
    intros n R X w tr H; simpl in *.
  - exists n. auto.
  - exists n. auto.
  - destruct (http Wd url w) as [o w'].
    destruct (H o) as (m & -> & Hm).
    destruct (IH o m R X w' (tr ++ [EvGet by_ url o]) Hm) as (m' & Hc & Hv).
    exists m'. split; [ | exact Hv].
    rewrite count_app, count_one in Hc. lia.
  - destruct (render Wd url deep w) as [o w'].
    destruct (H o) as (m & -> & Hm).
    destruct (IH o m R X w' (tr ++ [EvRender url deep o]) Hm)
      as (m' & Hc & Hv).
    exists m'. split; [ | exact Hv].
    rewrite count_app, count_one in Hc. lia.
  - destruct H as (m & -> & Hm).
    destruct (IH m R X w (tr ++ [EvSleep]) Hm) as (m' & Hc & Hv).
    exists m'. split; [ | exact Hv].
    rewrite count_app, count_one in Hc. lia.
Qed.

(** A coroutine that emits exactly [n] has emitted them when it returns. *)
Lemma emits_exactly_run (Wd : World) {A : Type} (p : prog A) n
      (w : wstate Wd) tr a :
  emits_exactly P n p ->
  value (run_from Wd p w tr) = inr a ->
  count P (trace (run_from Wd p w tr)) = (count P tr + n)%nat.
Proof.
  intros H Ha. destruct (emits_run Wd p n _ _ w tr H) as (m & Hc & Hv).
  rewrite Ha in Hv. subst m. lia.
Qed.

(** *** The pool adds up what its coroutines emit *)

Section PoolCount.
Variable Wd : World.
Variable A : Type.

Lemma pick_emitter (ns : list nat) (ps : list (prog A)) :
  Forall2 (emits_exactly P) ns ps ->
  forall j p,
    nth_error ps j = Some p ->
    exists n ns1 ns2,
      ns = ns1 ++ n :: ns2 /\ emits_exactly P n p /\
      Forall2 (emits_exactly P) (ns1 ++ ns2) (remove_nth A j ps) /\
      (forall p' n',
          emits_exactly P n' p' ->
          Forall2 (emits_exactly P) (ns1 ++ n' :: ns2)
                  (replace_nth A j p' ps)).
Proof.
  induction 1 as [ | n p0 ns ps Hn Hrest IH]; intros j p Hj.
  - destruct j; discriminate.
  - destruct j as [ | j]; simpl in Hj.
    + injection Hj as ->. exists n, [], ns. simpl. repeat split; auto.
    + destruct (IH j p Hj) as (n' & ns1 & ns2 & -> & Hp & Hrm & Hrp).
      exists n', (n :: ns1), ns2. simpl. repeat split; auto.
Qed.

Lemma drain_count (ps : list (prog A)) :
  forall ns w tr done rs,
    Forall2 (emits_exactly P) ns ps ->
    completed (drain Wd A ps w tr done) = inr rs ->
    count P (pool_trace (drain Wd A ps w tr done))
    = (count P tr + list_sum ns)%nat.
Proof.
  induction ps as [ | p ps IH]; intros ns w tr done rs H;
    inversion H as [ | n p' ns' ps' Hp Hrest]; subst; simpl.
  - lia.
  - destruct (value (run_from Wd p w tr)) as [e | a] eqn:Ha;
      [discriminate | ].
    intros Hdone.
    rewrite (IH _ _ _ _ _ Hrest Hdone),
      (emits_exactly_run Wd p n w tr a Hp Ha). lia.
Qed.

Lemma list_sum_middle (ns1 ns2 : list nat) (n : nat) :
  list_sum (ns1 ++ n :: ns2) = (n + list_sum (ns1 ++ ns2))%nat.
Proof. rewrite !list_sum_app. simpl. lia. Qed.

(** A pool that completes has emitted what its coroutines emit, whatever
    the schedule. *)
Lemma pool_count (sched : list nat) :
  forall ps ns w tr done rs,
    Forall2 (emits_exactly P) ns ps ->
    completed (pool Wd A sched ps w tr done) = inr rs ->
    count P (pool_trace (pool Wd A sched ps w tr done))
    = (count P tr + list_sum ns)%nat.
Proof.
  induction sched as [ | i sched IH]; intros ps ns w tr done rs H.
  - now apply drain_count.
  - simpl. destruct (nth_error ps (i mod length ps)) as [p | ] eqn:Hj.
    + destruct (pick_emitter ns ps H _ p Hj)
        as (n & ns1 & ns2 & -> & Hp & Hrm & Hrp).
      rewrite list_sum_middle.
      destruct p as [a | e | by_ url c | url deep c | c];
        unfold emits_exactly in Hp; simpl in Hp.
      * subst n. intros Hdone. rewrite (IH _ _ _ _ _ _ Hrm Hdone). lia.
      * discriminate.
      * destruct (http Wd url w) as [o w'].
        destruct (Hp o) as (m & -> & Hm). intros Hdone.
        rewrite (IH _ _ _ _ _ _ (Hrp _ _ Hm) Hdone).
        rewrite count_app, count_one, list_sum_middle. lia.
      * destruct (render Wd url deep w) as [o w'].
        destruct (Hp o) as (m & -> & Hm). intros Hdone.
        rewrite (IH _ _ _ _ _ _ (Hrp _ _ Hm) Hdone).
        rewrite count_app, count_one, list_sum_middle. lia.
      * destruct Hp as (m & -> & Hm). intros Hdone.
        rewrite (IH _ _ _ _ _ _ (Hrp _ _ Hm) Hdone).
        rewrite count_app, count_one, list_sum_middle. lia.
    + assert (ps = []) as ->.
      { destruct ps as [ | p ps]; [reflexivity | exfalso].
        apply nth_error_None in Hj.
        pose proof (Nat.mod_upper_bound i (length (p :: ps))) as Hlt.
        simpl in *. lia. }
      inversion H; subst. simpl. intros _. lia.
Qed.

End PoolCount.
End EmitsFacts.

(** ** [scraper.py]: how often a host is checked *)

Section ScraperCount.
Variable set_iter : list string -> list string.
Variable urljoin : string -> string -> exn + string.
Variable validate_email : string -> bool.
Variable d0 : string.

Local Notation "'silent' p" :=
  (forall n, emits (opens d0) p n (fun _ m => m = n) (fun _ _ => True))
  (at level 10, p at level 9).

Lemma fetch_emails_silent url deep :
  silent (Scraper.fetch_emails set_iter url deep).
Proof.
  intros n.
  assert (Hp : forall dp n',
             emits (opens d0) (Scraper.fetch_emails_playwright set_iter url dp)
                   n' (fun _ m => m = n') (fun _ _ => True)).
  { intros dp n'. unfold Scraper.fetch_emails_playwright, playwright_content.
    simpl. intros o. exists n'. split; [reflexivity | ].
    destruct o as [e | [h | source e]]; unfold bind; cbn; auto. }
  unfold Scraper.fetch_emails. destruct deep; [apply Hp | ].
  unfold bind, session_get. cbn. intros o. exists n.
  split; [reflexivity | ].
  destruct o as [e | r]; cbn; [apply Hp | ].
  destruct (status r =? 200)%Z; cbn; [ | apply Hp].
  unfold response_text.
  destruct (text r) as [[h | source e] | e]; unfold bind; cbn; auto;
    apply Hp.
Qed.

Lemma pages_loop_silent deep pages :
  forall st, silent (Scraper.pages_loop set_iter deep pages st).
Proof.
  induction pages as [ | page rest IH]; intros st n; cbn.
  - reflexivity.
  - apply emits_bind.
    eapply emits_mono; [ | | apply fetch_emails_silent]; cbn; [ | tauto].
    intros new m ->. destruct (Scraper.nonempty new); cbn; [reflexivity | ].
    apply IH.
Qed.

Lemma retry_loop_silent deep pages k :
  forall st, silent (Scraper.retry_loop set_iter deep pages k st).
Proof.
  induction k as [ | k IH]; intros st n; cbn.
  - reflexivity.
  - destruct (Scraper.nonempty (Scraper.st_emails st)); cbn; [reflexivity | ].
    apply emits_bind.
    eapply emits_mono; [ | | apply pages_loop_silent]; cbn; [ | tauto].
    intros st' m ->. apply IH.
Qed.

Lemma discover_relevant_pages_emits base_url n :
  emits (opens d0) (Scraper.discover_relevant_pages set_iter urljoin base_url)
        ((if String.eqb base_url ("https://" +++ d0) then 1 else 0) + n)
        (fun _ m => m = n) (fun _ _ => True).
Proof.
  unfold Scraper.discover_relevant_pages, bind, session_get. simpl.
  intros o. exists n. split; [reflexivity | ].
  destruct o as [e | r]; simpl; [reflexivity | ].
  destruct (status r =? 200)%Z; simpl; [ | reflexivity].
  unfold response_text.
  destruct (text r) as [[h | source e] | e]; unfold bind; cbn; auto.
  destruct (Scraper.relevant_links urljoin base_url h); cbn; auto.
Qed.

Lemma one_protocol_emits deep d protocol n (st : Scraper.loop_state)
      (rest : Scraper.loop_state -> prog Scraper.loop_state) :
  (forall st', emits_exactly (opens d0) n (rest st')) ->
  emits_exactly (opens d0)
    ((if String.eqb (protocol +++ "://" +++ d) ("https://" +++ d0)
      then 1 else 0) + n)
    (relevant_pages <-
       Scraper.discover_relevant_pages set_iter urljoin
         (protocol +++ "://" +++ d) ;;
     st' <- Scraper.retry_loop set_iter deep
              (if Scraper.nonempty relevant_pages then relevant_pages
               else [protocol +++ "://" +++ d])
              (Scraper.MAX_RETRIES + 1)
              (Scraper.mkState (Scraper.st_emails st) (Scraper.st_target st)
                 (protocol +++ "://" +++ d)) ;;
     rest st').
Proof.
  intros Hrest. unfold emits_exactly. apply emits_bind.
  eapply emits_mono; [ | | apply discover_relevant_pages_emits];
    cbn -[Scraper.retry_loop]; [ | tauto].
  intros pages m ->. apply emits_bind.
  eapply emits_mono; [ | | apply retry_loop_silent];
    cbn -[Scraper.retry_loop]; [ | tauto].
  intros st' m ->. apply Hrest.
Qed.

(** One check of a host opens with the discovery request for its https URL
    and makes it once. *)
Lemma check_domain_opens (d : string) (ln : Z) (deep : bool) :
  hostname d ->
  emits_exactly (opens d0) (if String.eqb d d0 then 1 else 0)
    (Scraper.check_domain set_iter urljoin validate_email d ln deep).
Proof.
  intros Hd. unfold Scraper.check_domain.
  rewrite (hostname_not_blank d Hd).
  unfold emits_exactly. apply emits_bind.
  assert (Hloop :
    emits_exactly (opens d0) ((if String.eqb d d0 then 1 else 0) + 0)
      (Scraper.protocol_loop set_iter urljoin deep d ["https"; "http"]
         (Scraper.mkState [] None EmptyString))).
  { cbn -[Scraper.retry_loop String.eqb].
    replace (String.eqb d d0)
      with (String.eqb ("https" +++ "://" +++ d) ("https://" +++ d0))
      by reflexivity.
    apply (one_protocol_emits deep d "https" 0
             (Scraper.mkState [] None EmptyString)
             (fun st' => Scraper.protocol_loop set_iter urljoin deep d
                           ["http"] st')).
    intros st'. cbn -[Scraper.retry_loop String.eqb].
    destruct (Scraper.nonempty (Scraper.st_emails st')); [reflexivity | ].
    replace 0%nat
      with ((if String.eqb ("http" +++ "://" +++ d) ("https://" +++ d0)
             then 1 else 0) + 0)%nat by reflexivity.
    apply (one_protocol_emits deep d "http" 0 st' (fun st'' => Ret st'')).
    intros st''. reflexivity. }
  rewrite Nat.add_0_r in Hloop.
  eapply emits_mono; [ | | exact Hloop]; cbn; [ | tauto].
  intros st m ->. reflexivity.
Qed.

End ScraperCount.

Lemma emits_plus (P : event -> bool) {A : Type} (p : prog A) :
  forall n k,
    emits_exactly P n p ->
    emits P p (n + k) (fun _ m => m = k) (fun _ _ => True).
Proof.
  unfold emits_exactly.
  induction p as [a | e | by_ url c IH | url deep c IH | c IH];
    intros n k; simpl.
  - intros ->. reflexivity.
  - tauto.
  - intros H o. destruct (H o) as (m & -> & Hm).
    exists (m + k)%nat. split; [lia | auto].
  - intros H o. destruct (H o) as (m & -> & Hm).
    exists (m + k)%nat. split; [lia | auto].
  - intros (m & -> & Hm). exists (m + k)%nat. split; [lia | auto].
Qed.

Section ScraperPass2Count.
Variable set_iter : list string -> list string.
Variable urljoin : string -> string -> exn + string.
Variable validate_email : string -> bool.
Variable Wd : World.

Local Notation "'check'" :=
  (Scraper.check_domain set_iter urljoin validate_email).

Lemma retry_tasks_emit (d0 : string) (l : list DomainResult) :
  Forall (fun r => hostname (domain r)) l ->
  Forall2 (emits_exactly (opens d0))
          (map (fun r => if String.eqb (domain r) d0 then 1 else 0)%nat l)
          (map (fun r => check (domain r) (line_number r) true) l).
Proof.
  induction 1 as [ | r l Hr Hl IH]; simpl; constructor; auto.
  now apply check_domain_opens.
Qed.

Lemma hosts_equal_to_sum (d0 : string) (l : list DomainResult) :
  list_sum (map (fun r => if String.eqb (domain r) d0 then 1 else 0)%nat l)
  = hosts_equal_to d0 l.
Proof.
  unfold hosts_equal_to. induction l as [ | r l IH]; simpl; [reflexivity | ].
  destruct (String.eqb (domain r) d0); simpl; lia.
Qed.

Lemma merge_loop_emits (d0 : string) (to_retry : list DomainResult) :
  Forall (fun r => hostname (domain r)) to_retry ->
  forall d seen,
    emits_exactly (opens d0) (hosts_equal_to d0 to_retry)
      (Scraper.merge_loop set_iter urljoin validate_email to_retry d seen).
Proof.
  induction 1 as [ | r rest Hr Hrest IH]; intros d seen;
    cbn -[Scraper.check_domain].
  - reflexivity.
  - unfold hosts_equal_to. cbn -[Scraper.check_domain].
    assert (Hsplit :
      length (if String.eqb (domain r) d0
              then r :: filter (fun r0 => String.eqb (domain r0) d0) rest
              else filter (fun r0 => String.eqb (domain r0) d0) rest)
      = ((if String.eqb (domain r) d0 then 1 else 0)
         + hosts_equal_to d0 rest)%nat).
    { unfold hosts_equal_to. destruct (String.eqb (domain r) d0); reflexivity. }
    rewrite Hsplit. apply emits_exactly_bind.
    + apply emits_plus.
      exact (check_domain_opens set_iter urljoin validate_email d0
               (domain r) (line_number r) true Hr).
    + intros dr. apply IH.
Qed.

(** Where the two traces of Pass 2 come from: a pool that completed and a
    merge loop that returned. *)
Lemma main_traces (lines : list string) (sched1 sched2 : list nat)
      (w : wstate Wd) rep :
  Scraper.main set_iter urljoin validate_email Wd lines sched1 sched2 w
  = Scraper.Finished rep ->
  Scraper.to_retry rep
  = filter Scraper.is_not_found (Scraper.results_pass1 rep) /\
  (exists w1,
      Scraper.trace_retry rep
      = (if Scraper.nonempty (Scraper.to_retry rep)
         then pool_trace
                (as_completed Wd DomainResult sched2
                   (map (fun r => check (domain r) (line_number r) true)
                        (Scraper.to_retry rep)) w1)
         else []) /\
      (Scraper.nonempty (Scraper.to_retry rep) = true ->
       exists l,
         completed
           (as_completed Wd DomainResult sched2
              (map (fun r => check (domain r) (line_number r) true)
                   (Scraper.to_retry rep)) w1) = inr l)) /\
  (exists w2 out,
      Scraper.trace_merge rep
      = trace (run Wd (Scraper.merge_loop set_iter urljoin validate_email
                         (Scraper.to_retry rep)
                         (dict_of_results (Scraper.results_pass1 rep)) [])
                 w2) /\
      value (run Wd (Scraper.merge_loop set_iter urljoin validate_email
                       (Scraper.to_retry rep)
                       (dict_of_results (Scraper.results_pass1 rep)) [])
               w2) = inr out).
Proof.
  unfold Scraper.main.
  destruct (Scraper.read_domains lines) as [e | [ | d0 ds]]; try discriminate.
  cbv zeta.
  destruct (completed (as_completed Wd DomainResult sched1 _ w))
    as [e | rs]; [discriminate | ].
  set (to_retry := filter Scraper.is_not_found rs).
  set (w1 := pool_final (as_completed Wd DomainResult sched1 _ w)).
  destruct (Scraper.nonempty to_retry) eqn:Hne.
  - destruct (completed (as_completed Wd DomainResult sched2 _ w1))
      as [e | l] eqn:Hl; [discriminate | ].
    destruct (value (run Wd _ _)) as [e | [fin deep]] eqn:Hm;
      [discriminate | ].
    intros H. injection H as <-. simpl. rewrite Hne.
    split; [reflexivity | split].
    + exists w1. split; [reflexivity | ]. intros _. exists l. exact Hl.
    + eexists _, _. split; [reflexivity | exact Hm].
  - simpl.
    destruct (value (run Wd _ _)) as [e | [fin deep]] eqn:Hm;
      [discriminate | ].
    intros H. injection H as <-. simpl. rewrite Hne.
    split; [reflexivity | split].
    + exists w. split; [reflexivity | discriminate].
    + eexists _, _. split; [reflexivity | exact Hm].
Qed.

Lemma pass1_hosts (lines : list string) (ds : list (Z * string))
      (rs : list DomainResult) :
  Scraper.read_domains lines = inr ds ->
  Permutation (map key rs) ds ->
  Forall (fun r => hostname (domain r)) rs.
Proof.
  intros Hread Hperm.
  destruct (scraper_read_from lines 0 ds Hread) as (_ & Hall & _).
  apply Forall_forall. intros r Hr.
  assert (Hk : In (key r) ds).
  { eapply Permutation_in; [exact Hperm | now apply in_map]. }
  rewrite Forall_forall in Hall. destruct (Hall _ Hk) as [_ Hh]. exact Hh.
Qed.

(** In every run that reaches the final write, each of the two stages of
    Pass 2, the pool and the merge loop, opens one deep check per record of
    [to_retry]. *)
Lemma deep_checks_counted (lines : list string) (sched1 sched2 : list nat)
      (w : wstate Wd) rep :
  Scraper.main set_iter urljoin validate_email Wd lines sched1 sched2 w
  = Scraper.Finished rep ->
  forall d0,
    checks_of d0 (Scraper.trace_retry rep)
    = hosts_equal_to d0 (Scraper.to_retry rep) /\
    checks_of d0 (Scraper.trace_merge rep)
    = hosts_equal_to d0 (Scraper.to_retry rep).
Proof.
  intros Hmain d0.
  destruct (main_traces lines sched1 sched2 w rep Hmain)
    as (Hretry & (w1 & Ht1 & Hc1) & (w2 & out & Ht2 & Hc2)).
  assert (Hhosts : Forall (fun r => hostname (domain r))
                          (Scraper.to_retry rep)).
  { destruct (main_finished set_iter urljoin validate_email Wd lines
                sched1 sched2 w rep Hmain) as (ds & Hread & _ & Hperm & _).
    pose proof (pass1_hosts lines _ _ Hread Hperm) as Hall.
    rewrite Hretry. apply Forall_forall. intros r Hr.
    apply filter_In in Hr. rewrite Forall_forall in Hall. now apply Hall. }
  split.
  - rewrite Ht1. destruct (Scraper.nonempty (Scraper.to_retry rep)) eqn:Hne.
    + destruct (Hc1 eq_refl) as [l Hl].
      unfold as_completed, checks_of in *.
      change (length (filter (opens d0) ?t)) with (count (opens d0) t).
      rewrite (pool_count (opens d0) Wd DomainResult sched2 _ _ w1 [] [] l
                 (retry_tasks_emit d0 _ Hhosts) Hl).
      rewrite hosts_equal_to_sum. reflexivity.
    + apply nonempty_false in Hne. rewrite Hne. reflexivity.
  - rewrite Ht2. unfold run, checks_of in *.
    change (length (filter (opens d0) ?t)) with (count (opens d0) t).
    rewrite (emits_exactly_run (opens d0) Wd _ _ w2 [] out
               (merge_loop_emits d0 _ Hhosts
                  (dict_of_results (Scraper.results_pass1 rep)) []) Hc2).
    reflexivity.
Qed.

Lemma hosts_equal_to_distinct (rs : list DomainResult) (f : DomainResult -> bool) :
  NoDup (map domain rs) ->
  forall r1,
    In r1 rs ->
    hosts_equal_to (domain r1) (filter f rs) = if f r1 then 1%nat else 0%nat.
Proof.
  unfold hosts_equal_to.
  induction rs as [ | r rs IH]; intros Hnd r1 Hin; [destruct Hin | ].
  simpl in Hnd. inversion Hnd as [ | ? ? Hnot Hnd']; subst.
  assert (Hzero : forall l,
             (forall x, In x l -> In x rs) ->
             length (filter (fun r0 => String.eqb (domain r0) (domain r)) l)
             = 0%nat).
  { intros l Hl. induction l as [ | x l IHl]; simpl; [reflexivity | ].
    destruct (String.eqb_spec (domain x) (domain r)) as [E | E].
    - exfalso. apply Hnot. rewrite <- E. apply in_map, Hl. now left.
    - apply IHl. intros y Hy. apply Hl. now right. }
  destruct Hin as [-> | Hin].
  - simpl. destruct (f r1); simpl.
    + rewrite String.eqb_refl. simpl. f_equal. apply Hzero.
      intros x Hx. apply filter_In in Hx. tauto.
    + apply Hzero. intros x Hx. apply filter_In in Hx. tauto.
  - assert (Hne : String.eqb (domain r) (domain r1) = false).
    { apply String.eqb_neq. intros E. apply Hnot. rewrite E. now apply in_map. }
    simpl. destruct (f r); simpl; [rewrite Hne | ]; now apply IH.
Qed.

(** With distinct hosts in the input: a host for which Pass 1 found nothing
    is checked in deep mode twice, a host for which it found addresses not at
    all. *)
Lemma deep_checks_per_host (lines : list string) (sched1 sched2 : list nat)
      (w : wstate Wd) rep :
  Scraper.main set_iter urljoin validate_email Wd lines sched1 sched2 w
  = Scraper.Finished rep ->
  NoDup (map domain (Scraper.results_pass1 rep)) ->
  forall r1,
    In r1 (Scraper.results_pass1 rep) ->
    checks_of (domain r1)
      (Scraper.trace_retry rep ++ Scraper.trace_merge rep)
    = if found r1 then 0%nat else 2%nat.
Proof.
  intros Hmain Hnd r1 Hin.
  destruct (deep_checks_counted lines sched1 sched2 w rep Hmain (domain r1))
    as [H1 H2].
  destruct (main_traces lines sched1 sched2 w rep Hmain) as (Hretry & _).
  unfold checks_of in *. rewrite filter_app, length_app, H1, H2, Hretry.
  rewrite (hosts_equal_to_distinct _ Scraper.is_not_found Hnd r1 Hin).
  rewrite found_not_found. destruct (Scraper.is_not_found r1); reflexivity.
Qed.

End ScraperPass2Count.

(** ** Against recorded responses the schedule does not matter *)

Section OracleFacts.
Variable o : Oracle.

Lemma run_denote {A : Type} (p : prog A) :
  forall (w : wstate (world_of o)) tr,
    value (run_from (world_of o) p w tr) = denote o p.
Proof.
  induction p as [a | e | by_ url k IH | url deep k IH | k IH];
    intros w tr; simpl; auto.
Qed.

Lemma denote_try_except {A B : Type} (p : prog A) (f : A -> prog B)
      (h : exn -> prog B) :
  denote o (try_except p f h)
  = match denote o p with
    | inr a => denote o (f a)
    | inl e => denote o (h e)
    end.
Proof.
  induction p as [a | e | by_ url k IH | url deep k IH | k IH]; simpl; auto.
Qed.

Lemma denote_bind {A B : Type} (p : prog A) (f : A -> prog B) :
  denote o (bind p f)
  = match denote o p with
    | inr a => denote o (f a)
    | inl e => inl e
    end.
Proof. unfold bind. now rewrite denote_try_except. Qed.

Section PoolOracle.
Variable A : Type.

Local Notation "'values' ps" := (map (denote o (A := A)) ps)
  (at level 10, ps at level 9).

Lemma values_replace (ps : list (prog A)) :
  forall j p p',
    nth_error ps j = Some p -> denote o p' = denote o p ->
    values (replace_nth A j p' ps) = values ps.
Proof.
  induction ps as [ | q ps IH]; intros [ | j] p p' Hj Hp; simpl in *;
    try discriminate.
  - injection Hj as ->. now rewrite Hp.
  - f_equal. now apply IH with (p := p).
Qed.

Lemma values_remove (ps : list (prog A)) :
  forall j p,
    nth_error ps j = Some p ->
    Permutation (denote o p :: values (remove_nth A j ps)) (values ps).
Proof.
  induction ps as [ | q ps IH]; intros [ | j] p Hj; simpl in *;
    try discriminate.
  - injection Hj as ->. reflexivity.
  - etransitivity; [apply perm_swap | ]. constructor. now apply IH.
Qed.

(** Against an oracle the pool completes when every coroutine returns, with
    their values in some order, and raises what one of them raises
    otherwise. *)
Lemma pool_values (sched : list nat) :
  forall ps (w : wstate (world_of o)) tr done,
    match completed (pool (world_of o) A sched ps w tr done) with
    | inr rs' =>
        exists rs, rs' = done ++ rs /\ Permutation (map inr rs) (values ps)
    | inl e => In (inl e) (values ps)
    end.
Proof.
  induction sched as [ | i sched IH]; intros ps w tr done.
  - simpl. revert w tr done.
    induction ps as [ | p ps IHp]; intros w tr done; simpl.
    + exists []. now rewrite app_nil_r.
    + rewrite run_denote. destruct (denote o p) as [e | a]; simpl.
      * now left.
      * specialize (IHp (final (run_from (world_of o) p w tr))
                        (trace (run_from (world_of o) p w tr))
                        (done ++ [a])).
        destruct (completed (drain (world_of o) A ps _ _ _)) as [e | rs'].
        -- now right.
        -- destruct IHp as (rs & -> & Hperm). exists (a :: rs).
           rewrite <- app_assoc. split; [reflexivity | ].
           simpl. now constructor.
  - simpl. destruct (nth_error ps (i mod length ps)) as [p | ] eqn:Hj.
    + pose proof (values_remove ps _ p Hj) as Hrm.
      pose proof (fun p' => values_replace ps _ p p' Hj) as Hrp.
      destruct p as [a | e | by_ url c | url deep c | c]; simpl in *.
      * specialize (IH (remove_nth A (i mod length ps) ps) w tr
                       (done ++ [a])).
        destruct (completed (pool (world_of o) A sched _ w tr (done ++ [a])))
          as [e | rs'].
        -- eapply Permutation_in; [exact Hrm | now right].
        -- destruct IH as (rs & -> & Hperm). exists (a :: rs).
           rewrite <- app_assoc. split; [reflexivity | ].
           simpl. rewrite <- Hrm. now constructor.
      * eapply Permutation_in; [exact Hrm | now left].
      * rewrite <- (Hrp (c (answer_get o url)) eq_refl). apply IH.
      * rewrite <- (Hrp (c (answer_render o url deep)) eq_refl). apply IH.
      * rewrite <- (Hrp c eq_refl). apply IH.
    + assert (ps = []) as ->.
      { destruct ps as [ | p ps]; [reflexivity | exfalso].
        apply nth_error_None in Hj.
        pose proof (Nat.mod_upper_bound i (length (p :: ps))) as Hlt.
        simpl in *. lia. }
      exists []. rewrite app_nil_r. auto.
Qed.

End PoolOracle.

Lemma map_inr_inj {E A : Type} (l1 l2 : list A) :
  map (@inr E A) l1 = map inr l2 -> l1 = l2.
Proof.
  revert l2. induction l1 as [ | a l1 IH]; intros [ | b l2] H; simpl in H;
    try discriminate; [reflexivity | ].
  injection H as -> H. f_equal. now apply IH.
Qed.

Lemma forallb_perm {A : Type} (f : A -> bool) (l1 l2 : list A) :
  Permutation l1 l2 -> forallb f l1 = forallb f l2.
Proof.
  induction 1 as [ | x l1 l2 _ IH | x y l | l1 l2 l3 _ IH1 _ IH2]; simpl.
  - reflexivity.
  - now rewrite IH.
  - destruct (f x), (f y); reflexivity.
  - congruence.
Qed.

Lemma filter_perm {A : Type} (f : A -> bool) (l1 l2 : list A) :
  Permutation l1 l2 -> Permutation (filter f l1) (filter f l2).
Proof.
  induction 1 as [ | x l1 l2 _ IH | x y l | l1 l2 l3 _ IH1 _ IH2]; simpl.
  - constructor.
  - destruct (f x); [now constructor | exact IH].
  - destruct (f x), (f y); try reflexivity. apply perm_swap.
  - etransitivity; eauto.
Qed.

Section ScraperOracle.
Variable set_iter : list string -> list string.
Variable urljoin : string -> string -> exn + string.
Variable validate_email : string -> bool.

Local Notation "'check'" :=
  (Scraper.check_domain set_iter urljoin validate_email).
Local Notation "'checked_'" := (checked set_iter urljoin validate_email o).
Local Notation "'completes_'" :=
  (completes set_iter urljoin validate_email o).
Local Notation "'settle_'" := (settle set_iter urljoin validate_email o).

Lemma denote_check (d : string) (ln : Z) (deep : bool) :
  denote o (check d ln deep)
  = (if completes_ d ln deep then inr (checked_ d ln deep)
     else denote o (check d ln deep)) /\
  line_number (checked_ d ln deep) = ln /\
  (hostname d -> domain (checked_ d ln deep) = d).
Proof.
  pose proof (ends_run any_http any_render (world_of o)
                (answers_any (world_of o)) True
                (check d ln deep) _ [] tt
                (check_domain_partial set_iter urljoin validate_email
                   d ln deep)) as H.
  rewrite run_denote in H. unfold checked, completes.
  destruct (denote o (check d ln deep)) as [e | r]; simpl.
  - auto.
  - destruct H as [Hl Hd]. repeat split; auto.
    intros Hh. now rewrite (hostname_not_blank d Hh) in Hd.
Qed.

Lemma completes_false (d : string) (ln : Z) (deep : bool) :
  completes_ d ln deep = false ->
  exists e, denote o (check d ln deep) = inl e.
Proof.
  unfold completes. destruct (denote o (check d ln deep)); eauto.
  discriminate.
Qed.

Lemma settle_key (r : DomainResult) :
  hostname (domain r) -> key (settle_ r) = key r.
Proof.
  intros Hh. unfold settle.
  destruct (Scraper.is_not_found r); [ | reflexivity].
  destruct (denote_check (domain r) (line_number r) true) as (_ & Hl & Hd).
  cbv zeta. destruct (found _); [ | reflexivity].
  unfold key. rewrite Hl, (Hd Hh). reflexivity.
Qed.

(** The merge loop returns when each of its deep checks does. *)
Lemma denote_merge_loop (to_retry : list DomainResult) :
  forall d seen,
    if forallb (fun r => completes_ (domain r) (line_number r) true) to_retry
    then
      exists seen',
        denote o (Scraper.merge_loop set_iter urljoin validate_email
                    to_retry d seen)
        = inr (fold_left (merge_step set_iter urljoin validate_email o)
                 to_retry d, seen')
    else
      exists e,
        denote o (Scraper.merge_loop set_iter urljoin validate_email
                    to_retry d seen) = inl e.
Proof.
  induction to_retry as [ | r rest IH]; intros d seen;
    cbn -[Scraper.check_domain].
  - eauto.
  - rewrite denote_bind.
    destruct (denote_check (domain r) (line_number r) true) as (Hv & _).
    destruct (completes_ (domain r) (line_number r) true) eqn:Hc;
      cbn -[Scraper.check_domain].
    + rewrite Hv. apply IH.
    + destruct (completes_false _ _ _ Hc) as [e He]. rewrite He. eauto.
Qed.

End ScraperOracle.
End OracleFacts.

Section ScraperDeterminism.
Variable set_iter : list string -> list string.
Variable urljoin : string -> string -> exn + string.
Variable validate_email : string -> bool.
Variable o : Oracle.

Local Notation "'check'" :=
  (Scraper.check_domain set_iter urljoin validate_email).
Local Notation "'checked_'" := (checked set_iter urljoin validate_email o).
Local Notation "'settle_'" := (settle set_iter urljoin validate_email o).
Local Notation "'step_'" := (merge_step set_iter urljoin validate_email o).
Local Notation "'pending_'" := (pending set_iter urljoin validate_email o).

Lemma pending_initial (rs : list DomainResult) :
  Forall2 (pending_ (filter Scraper.is_not_found rs))
          (map (fun r => (line_number r, r)) rs) rs.
Proof.
  assert (H : forall l,
             (forall r, In r l -> Scraper.is_not_found r = true ->
                        In r (filter Scraper.is_not_found rs)) ->
             Forall2 (pending_ (filter Scraper.is_not_found rs))
                     (map (fun r => (line_number r, r)) l) l).
  { induction l as [ | r l IH]; intros Hl; simpl; constructor.
    - split; [reflexivity | ]. simpl.
      destruct (Scraper.is_not_found r) eqn:Hnf.
      + right. split; [reflexivity | ]. apply Hl; [now left | exact Hnf].
      + left. unfold settle. now rewrite Hnf.
    - apply IH. intros r' Hr'. apply Hl. now right. }
  apply H. intros r Hr Hnf. apply filter_In. auto.
Qed.

Lemma pending_drop (r0 : DomainResult) rest d rs :
  Forall2 (pending_ (r0 :: rest)) d rs ->
  ~ In r0 rs ->
  Forall2 (pending_ rest) d rs.
Proof.
  induction 1 as [ | kv r d rs (Hk & Hv) Hrest IH]; intros Hnot;
    constructor.
  - split; [exact Hk | ].
    destruct Hv as [Hv | [Hv [<- | Hin]]]; auto.
    exfalso. apply Hnot. now left.
  - apply IH. intros Hin. apply Hnot. now right.
Qed.

Lemma pending_step (rs : list DomainResult) :
  NoDup (map line_number rs) ->
  forall d r0 rest,
    Forall2 (pending_ (r0 :: rest)) d rs ->
    In r0 rs -> Scraper.is_not_found r0 = true -> hostname (domain r0) ->
    Forall2 (pending_ rest) (step_ d r0) rs.
Proof.
  intros Hnd d r0 rest H Hin Hnf Hh.
  destruct (denote_check o set_iter urljoin validate_email (domain r0)
              (line_number r0) true) as (_ & Hl & _).
  assert (Hsettle : settle_ r0
                    = if found (checked_ (domain r0) (line_number r0) true)
                      then checked_ (domain r0) (line_number r0) true
                      else r0).
  { unfold settle. now rewrite Hnf. }
  unfold merge_step. cbv zeta. rewrite Hl.
  set (dr := checked_ (domain r0) (line_number r0) true) in *.
  revert Hnd Hin.
  induction H as [ | [k v] r d rs (Hk & Hv) Hrest IH]; intros Hnd Hin.
  - destruct Hin.
  - simpl in Hnd. inversion Hnd as [ | ? ? Hnot Hnd']; subst.
    simpl in Hk. subst k.
    destruct Hin as [-> | Hin].
    + assert (Hfresh : ~ In r0 rs).
      { intros Hin. apply Hnot. now apply in_map. }
      destruct (found dr) eqn:Hf.
      * simpl. rewrite Z.eqb_refl. constructor.
        -- split; [reflexivity | ]. left. simpl. now rewrite Hsettle.
        -- now apply pending_drop with (r0 := r0).
      * constructor.
        -- split; [reflexivity | ]. left. simpl. rewrite Hsettle.
           destruct Hv as [Hv | [Hv _]]; [ | exact Hv].
           simpl in Hv. rewrite Hv, Hsettle. reflexivity.
        -- now apply pending_drop with (r0 := r0).
    + assert (Hne : line_number r0 <> line_number r).
      { intros E. apply Hnot. rewrite <- E. now apply in_map. }
      assert (Hhead : pending_ rest (line_number r, v) r).
      { split; [reflexivity | ].
        destruct Hv as [Hv | [Hv [E | Hin']]]; auto.
        exfalso. apply Hne. now rewrite E. }
      specialize (IH Hnd' Hin).
      destruct (found dr) eqn:Hf.
      * simpl. apply Z.eqb_neq in Hne. rewrite Hne.
        constructor; [exact Hhead | exact IH].
      * constructor; [exact Hhead | exact IH].
Qed.

Lemma pending_fold (rs : list DomainResult) :
  NoDup (map line_number rs) ->
  forall to_retry d,
    Forall (fun r => In r rs /\ Scraper.is_not_found r = true /\
                     hostname (domain r)) to_retry ->
    Forall2 (pending_ to_retry) d rs ->
    Forall2 (pending_ []) (fold_left step_ to_retry d) rs.
Proof.
  intros Hnd.
  induction to_retry as [ | r0 rest IH]; intros d Hall H; simpl.
  - exact H.
  - inversion Hall as [ | ? ? (Hin & Hnf & Hh) Hrest]; subst.
    apply IH; [exact Hrest | ]. now apply pending_step.
Qed.

Lemma pending_done (d : dict) (rs : list DomainResult) :
  Forall2 (pending_ []) d rs -> dict_values d = map settle_ rs.
Proof.
  induction 1 as [ | kv r d rs (Hk & Hv) Hrest IH]; simpl; [reflexivity | ].
  destruct Hv as [Hv | [_ []]]. congruence.
Qed.

(** What the merge loop leaves, in terms of the Pass 1 records alone. *)
Lemma merge_settles (rs : list DomainResult) :
  NoDup (map line_number rs) ->
  Forall (fun r => hostname (domain r)) rs ->
  dict_values (fold_left step_ (filter Scraper.is_not_found rs)
                 (dict_of_results rs))
  = map settle_ rs.
Proof.
  intros Hnd Hh. apply pending_done, pending_fold; auto.
  - apply Forall_forall. intros r Hr. apply filter_In in Hr.
    destruct Hr as [Hin Hnf]. rewrite Forall_forall in Hh. auto.
  - rewrite dict_of_results_distinct by exact Hnd. apply pending_initial.
Qed.

End ScraperDeterminism.

Section ScraperParts.
Variable set_iter : list string -> list string.
Variable urljoin : string -> string -> exn + string.
Variable validate_email : string -> bool.
Variable o : Oracle.

Local Notation "'check'" :=
  (Scraper.check_domain set_iter urljoin validate_email).
Local Notation "'checked_'" := (checked set_iter urljoin validate_email o).
Local Notation "'completes_'" :=
  (completes set_iter urljoin validate_email o).
Local Notation "'settle_'" := (settle set_iter urljoin validate_email o).

Lemma oracle_keys (ds : list (Z * string)) :
  Forall (fun d => hostname (snd d)) ds ->
  map key (map (fun '(line_no, d) => checked_ d line_no false) ds) = ds.
Proof.
  induction 1 as [ | [ln d] ds Hd Hds IH]; simpl; [reflexivity | ].
  destruct (denote_check o set_iter urljoin validate_email d ln false)
    as (_ & Hl & Hh).
  unfold key at 1. rewrite Hl, (Hh Hd), IH. reflexivity.
Qed.

Lemma pass1_values (ds : list (Z * string)) :
  if forallb (fun '(line_no, h) => completes_ h line_no false) ds
  then map (denote o) (map (fun '(line_no, d) => check d line_no false) ds)
       = map inr (map (fun '(line_no, d) => checked_ d line_no false) ds)
  else forall rs,
         ~ Permutation (map inr rs)
             (map (denote o)
                  (map (fun '(line_no, d) => check d line_no false) ds)).
Proof.
  induction ds as [ | [ln d] ds IH]; cbn -[Scraper.check_domain];
    [reflexivity | ].
  destruct (denote_check o set_iter urljoin validate_email d ln false)
    as (Hv & _).
  destruct (completes_ d ln false) eqn:Hc; cbn -[Scraper.check_domain].
  - destruct (forallb _ ds).
    + now rewrite Hv, IH.
    + intros rs Hp.
      assert (Hin : In (denote o (check d ln false)) (map inr rs)).
      { eapply Permutation_in; [symmetry; exact Hp | now left]. }
      apply in_map_iff in Hin. destruct Hin as (r & Hr & Hin).
      destruct (in_split _ _ Hin) as (l1 & l2 & ->).
      apply (IH (l1 ++ l2)).
      rewrite map_app in Hp. cbn -[Scraper.check_domain] in Hp.
      rewrite Hr in Hp. apply Permutation_sym, Permutation_cons_app_inv in Hp.
      rewrite map_app. now symmetry.
  - intros rs Hp. destruct (completes_false _ _ _ _ _ _ _ Hc) as [e He].
    assert (Hin : In (denote o (check d ln false)) (map inr rs)).
    { eapply Permutation_in; [symmetry; exact Hp | now left]. }
    rewrite He in Hin. apply in_map_iff in Hin.
    destruct Hin as (r & Hr & _). discriminate.
Qed.

Lemma retry_values (l : list DomainResult) :
  if forallb (fun r => completes_ (domain r) (line_number r) true) l
  then True
  else forall rs,
         ~ Permutation (map inr rs)
             (map (denote o)
                  (map (fun r => check (domain r) (line_number r) true) l)).
Proof.
  induction l as [ | r l IH]; cbn -[Scraper.check_domain]; [exact I | ].
  destruct (completes_ (domain r) (line_number r) true) eqn:Hc;
    cbn -[Scraper.check_domain].
  - destruct (forallb _ l); [exact I | ].
    intros rs Hp.
    assert (Hin : In (denote o (check (domain r) (line_number r) true))
                     (map inr rs)).
    { eapply Permutation_in; [symmetry; exact Hp | now left]. }
    apply in_map_iff in Hin. destruct Hin as (r' & Hr & Hin).
    destruct (in_split _ _ Hin) as (l1 & l2 & ->).
    apply (IH (l1 ++ l2)).
    rewrite map_app in Hp. cbn -[Scraper.check_domain] in Hp.
    rewrite <- Hr in Hp.
    apply Permutation_sym, Permutation_cons_app_inv in Hp.
    rewrite map_app. now symmetry.
  - intros rs Hp. destruct (completes_false _ _ _ _ _ _ _ Hc) as [e He].
    assert (Hin : In (denote o (check (domain r) (line_number r) true))
                     (map inr rs)).
    { eapply Permutation_in; [symmetry; exact Hp | now left]. }
    rewrite He in Hin. apply in_map_iff in Hin.
    destruct Hin as (r' & Hr & _). discriminate.
Qed.

(** Against an oracle the file [scraper.py] writes is a function of the
    input lines: the schedules do not appear in it. *)
Lemma main_written_oracle (lines : list string) (sched1 sched2 : list nat) :
  written (Scraper.main set_iter urljoin validate_email (world_of o) lines
             sched1 sched2 tt)
  = match Scraper.read_domains lines with
    | inr (d :: ds) =>
        settled_file set_iter urljoin validate_email o (d :: ds)
    | _ => None
    end.
Proof.
  destruct (Scraper.read_domains lines) as [e | ds] eqn:Hread.
  { unfold Scraper.main. now rewrite Hread. }
  destruct ds as [ | d0 ds0].
  { unfold Scraper.main. now rewrite Hread. }
  set (ds := d0 :: ds0) in *.
  destruct (scraper_read_from lines 0 ds Hread) as (_ & Hall & Hinc).
  assert (Hhosts : Forall (fun d => hostname (snd d)) ds).
  { eapply Forall_impl; [ | exact Hall]. simpl. tauto. }
  unfold Scraper.main, settled_file. rewrite Hread. cbv zeta.
  fold ds.
  set (vs := map (fun '(line_no, h) => checked_ h line_no false) ds).
  pose proof (pool_values o DomainResult sched1
                (map (fun '(line_no, d) => check d line_no false) ds)
                tt [] []) as Hp1.
  pose proof (pass1_values ds) as Hv1.
  unfold as_completed.
  destruct (completed (pool (world_of o) DomainResult sched1 _ tt [] []))
    as [e | rs].
  { destruct (forallb _ ds); [ | reflexivity].
    rewrite Hv1 in Hp1. apply in_map_iff in Hp1.
    destruct Hp1 as (r & Hr & _). discriminate. }
  destruct Hp1 as (rs' & Hrs' & Hperm). simpl in Hrs'. subst rs'.
  destruct (forallb _ ds); [ | exfalso; exact (Hv1 rs Hperm)].
  rewrite Hv1 in Hperm. fold vs in Hperm.
  assert (Hvals : Permutation rs vs).
  { destruct (Permutation_map_inv _ _ (Permutation_sym Hperm))
      as (l & Hl & Hpl).
    apply map_inr_inj in Hl. subst l. now symmetry. }
  clear Hperm Hv1.
  assert (Hkeys : Permutation (map key rs) ds).
  { rewrite <- (oracle_keys ds Hhosts). now apply Permutation_map. }
  assert (Hnd : NoDup (map line_number rs)).
  { eapply keys_NoDup; eauto. }
  assert (Hrs : Forall (fun r => hostname (domain r)) rs).
  { eapply pass1_hosts; eauto. }
  set (to_retry := filter Scraper.is_not_found rs).
  rewrite <- (forallb_perm _ _ _
                (filter_perm Scraper.is_not_found rs vs Hvals)).
  fold to_retry. cbn [andb].
  pose proof (retry_values to_retry) as Hv2.
  pose proof (denote_merge_loop o set_iter urljoin validate_email to_retry
                (dict_of_results rs) []) as Hm.
  set (p2 := if Scraper.nonempty to_retry then _ else _).
  assert (Hp2 : match completed p2 with
                | inr _ => True
                | inl _ =>
                    forallb (fun r => completes_ (domain r) (line_number r)
                                        true) to_retry = false
                end).
  { subst p2. destruct (Scraper.nonempty to_retry); [ | exact I].
    pose proof (pool_values o DomainResult sched2
                  (map (fun r => check (domain r) (line_number r) true)
                       to_retry)
                  (pool_final (pool (world_of o) DomainResult sched1
                     (map (fun '(line_no, d) => check d line_no false) ds)
                     tt [] [])) [] []) as Hp.
    destruct (completed (pool (world_of o) DomainResult sched2 _ _ [] []))
      as [e | l]; [ | exact I].
    destruct (forallb _ to_retry) eqn:Hall2; [ | reflexivity].
    exfalso. clear Hv2 Hm.
    induction to_retry as [ | r l IH]; [destruct Hp | ].
    cbn -[Scraper.check_domain] in Hall2, Hp.
    apply andb_true_iff in Hall2. destruct Hall2 as [Hr Hl].
    destruct Hp as [Hp | Hp]; [ | now apply IH].
    unfold completes in Hr. rewrite Hp in Hr. discriminate. }
  destruct (completed p2) as [e | l].
  { rewrite Hp2. reflexivity. }
  unfold run. rewrite run_denote.
  destruct (forallb _ to_retry).
  - destruct Hm as [seen' Hm]. rewrite Hm. subst to_retry.
    change (Some (header ::
                  map row_of
                    (sorted_by_line
                       (dict_values
                          (fold_left
                             (merge_step set_iter urljoin validate_email o)
                             (filter Scraper.is_not_found rs)
                             (dict_of_results rs)))))
            = Some (header :: map row_of (sorted_by_line (map settle_ vs)))).
    do 3 f_equal.
    rewrite (merge_settles set_iter urljoin validate_email o rs Hnd Hrs).
    apply sorted_by_line_order_free.
    + now apply Permutation_map.
    + replace (map line_number (map settle_ rs)) with (map line_number rs);
        [exact Hnd | ].
      rewrite map_map. apply map_ext_in. intros r Hr.
      rewrite Forall_forall in Hrs.
      pose proof (settle_key o set_iter urljoin validate_email r (Hrs r Hr))
        as Hk.
      unfold key in Hk. congruence.
  - destruct Hm as [e Hm]. rewrite Hm. reflexivity.
Qed.

(** Two runs of [scraper.py] with the same set order against the same
    recorded responses write the same file, whatever their schedules. *)
Lemma main_schedule_free (lines : list string)
      (sched1 sched2 sched1' sched2' : list nat) :
  written (Scraper.main set_iter urljoin validate_email (world_of o) lines
             sched1 sched2 tt)
  = written (Scraper.main set_iter urljoin validate_email (world_of o) lines
               sched1' sched2' tt).
Proof. now rewrite !main_written_oracle. Qed.

End ScraperParts.

(** * The claims *)

(** C1.  At the input of the specification's scenario, [scraper.py] checks
    the host that Pass 1 left without address twice in deep mode, once in the
    pool whose results are dropped and once more in the merge loop: the two
    together drive the browser six times to its https URL, where one check
    does so three times.  The host Pass 1 found is not checked again. *)
Theorem deep_check_runs_twice :
  exists rep,
    Scraper.main Fixtures.insertion_order Fixtures.urljoin
      Fixtures.validate_email Fixtures.example_site Fixtures.example_lines
      [] [] tt = Scraper.Finished rep /\
    map key (Scraper.to_retry rep) = [(3%Z, "nomail.test")] /\
    checks_of "nomail.test" (Scraper.trace_retry rep) = 1%nat /\
    checks_of "nomail.test" (Scraper.trace_merge rep) = 1%nat /\
    checks_of "nomail.test"
      (Scraper.trace_retry rep ++ Scraper.trace_merge rep) = 2%nat /\
    deep_renders "https://nomail.test"
      (Scraper.trace_retry rep ++ Scraper.trace_merge rep) = 6%nat /\
    deep_renders "https://nomail.test"
      (trace (run Fixtures.example_site
                (Scraper.check_domain Fixtures.insertion_order Fixtures.urljoin
                   Fixtures.validate_email "nomail.test" 3 true) tt)) = 3%nat /\
    checks_of "example.com"
      (Scraper.trace_retry rep ++ Scraper.trace_merge rep) = 0%nat.
Proof.
  eexists. split; [vm_compute; reflexivity | ].
  vm_compute. repeat split.
Qed.

(** C2.  In [scraper.py], every line Pass 1 reported has an entry in
    [final_results], and that entry is either the Pass 1 record itself or,
    whole, a record returned by a deep check that found addresses, stored for
    a line Pass 1 had found nothing for.  A line for which Pass 1 found
    addresses keeps its record, so no line goes from found to not found. *)
Theorem pass2_replaces_whole_records :
  forall (set_iter : list string -> list string)
         (urljoin : string -> string -> exn + string)
         (validate_email : string -> bool)
         (Wd : World) (lines : list string) (sched1 sched2 : list nat)
         (w : wstate Wd) (rep : Scraper.report (wstate Wd)),
    Scraper.main set_iter urljoin validate_email Wd lines sched1 sched2 w
    = Scraper.Finished rep ->
    forall r1,
      In r1 (Scraper.results_pass1 rep) ->
      exists rf,
        dict_get (line_number r1) (Scraper.final_results rep) = Some rf /\
        (rf = r1 \/
         (In rf (Scraper.deep_results rep) /\ found rf = true /\
          found r1 = false)) /\
        (found r1 = true -> rf = r1 /\ found rf = true).
Proof.
  intros set_iter urljoin validate_email Wd lines sched1 sched2 w rep Hmain
         r1 Hin.
  destruct (main_finished set_iter urljoin validate_email Wd lines
              sched1 sched2 w rep Hmain)
    as (ds & Hread & _ & Hperm & _ & Hmerged & _).
  destruct (scraper_read_from lines 0 _ Hread) as (_ & _ & Hinc).
  destruct (merged_lookup _ _ _ Hmerged (keys_NoDup _ _ Hinc Hperm) r1 Hin)
    as (rf & Hget & _ & _ & Hcase).
  exists rf. simpl in Hcase. split; [exact Hget | split; [exact Hcase | ]].
  intros Hf. destruct Hcase as [-> | (_ & _ & Hnf)]; [auto | congruence].
Qed.

Lemma pass2_replaces_whole_records_witness :
  exists rep,
    Scraper.main Fixtures.insertion_order Fixtures.urljoin
      Fixtures.validate_email Fixtures.rendered_site Fixtures.rendered_lines
      [2; 0; 1]%nat [] tt = Scraper.Finished rep /\
    map emails (dict_values (Scraper.final_results rep))
    = ["info@example.com"; "hi@acme.org"; "Not found"] /\
    forall r1,
      In r1 (Scraper.results_pass1 rep) ->
      exists rf,
        dict_get (line_number r1) (Scraper.final_results rep) = Some rf /\
        (rf = r1 \/
         (In rf (Scraper.deep_results rep) /\ found rf = true /\
          found r1 = false)) /\
        (found r1 = true -> rf = r1 /\ found rf = true).
Proof.
  eexists. split; [vm_compute; reflexivity | ].
  split; [vm_compute; reflexivity | ].
  apply (pass2_replaces_whole_records Fixtures.insertion_order Fixtures.urljoin
           Fixtures.validate_email Fixtures.rendered_site
           Fixtures.rendered_lines [2; 0; 1]%nat [] tt).
  vm_compute. reflexivity.
Defined.

(** C3.  Whatever the schedules, and so whatever the completion order, the
    final write of either script is the header row [domain, emails,
    target_website] followed by one row [domain, emails, target_website] per
    line of the input that is not blank, in the order of the lines: the rows
    are those of records whose line numbers and hosts are, in this order,
    the pairs the script read from the file.  In [scraper.py] the line
    number is the 1-based position of the line in the file, in the sibling
    script its 1-based position among the lines that are not blank.  A blank
    line is one [str.strip] empties, so also one made of Unicode blanks.
    The final write is reached, under every schedule, when the input reads
    and names a host and the environment delivers no text the parser
    rejects; for the sibling script also no exception other than those its
    [fetch_page] catches and no link on which [urljoin] raises. *)
Theorem final_rows_in_input_order :
  forall (set_iter : list string -> list string)
         (urljoin : string -> string -> exn + string)
         (validate_email : string -> bool)
         (Wd : World) (lines : list string) (w : wstate Wd),
    (forall sched1 sched2 rep,
        Scraper.main set_iter urljoin validate_email Wd lines sched1 sched2 w
        = Scraper.Finished rep ->
        exists recs,
          Scraper.output_file rep
          = ["domain"; "emails"; "target_website"]
            :: map (fun r => [domain r; emails r; target_website r]) recs /\
          map line_number recs = nonblank_from 0 lines /\
          Scraper.read_domains lines
          = inr (map (fun r => (line_number r, domain r)) recs)) /\
    (forall ds sched1 sched2,
        answers parses_http parses_render Wd ->
        Scraper.read_domains lines = inr ds -> ds <> [] ->
        exists rep,
          Scraper.main set_iter urljoin validate_email Wd lines sched1 sched2 w
          = Scraper.Finished rep) /\
    (forall sched rep,
        Workflow.main set_iter urljoin validate_email Wd lines sched w
        = Workflow.Finished rep ->
        exists recs,
          Workflow.output_file rep
          = ["domain"; "emails"; "target_website"]
            :: map (fun r => [domain r; emails r; target_website r]) recs /\
          map line_number recs
          = map (fun i => 1 + Z.of_nat i)%Z
              (seq 0 (length (nonblank_from 0 lines))) /\
          Workflow.read_domains lines
          = inr (map (fun r => (line_number r, domain r)) recs)) /\
    (forall ds sched,
        answers (harmless_http urljoin) any_render Wd ->
        Workflow.read_domains lines = inr ds -> ds <> [] ->
        exists rep,
          Workflow.main set_iter urljoin validate_email Wd lines sched w
          = Workflow.Finished rep).
Proof.
  intros set_iter urljoin validate_email Wd lines w.
  split; [ | split; [ | split]].
  - intros sched1 sched2 rep Hmain.
    destruct (main_finished set_iter urljoin validate_email Wd lines
                sched1 sched2 w rep Hmain)
      as (ds & Hread & _ & Hperm & _ & Hmerged & Hout).
    destruct (scraper_read_from lines 0 ds Hread) as (Hpos & _ & Hinc).
    exists (sorted_by_line (dict_values (Scraper.final_results rep))).
    assert (Hkeys : map key (sorted_by_line
                               (dict_values (Scraper.final_results rep))) = ds).
    { apply sorted_by_line_keys; [exact Hinc | ].
      rewrite (merged_keys _ _ _ Hmerged). exact Hperm. }
    split; [exact Hout | split].
    + rewrite <- Hpos, <- Hkeys, map_map. reflexivity.
    + rewrite Hread. f_equal. symmetry. exact Hkeys.
  - intros ds sched1 sched2 Hw Hread Hne.
    exact (main_finishes set_iter urljoin validate_email Wd Hw lines ds
             sched1 sched2 w Hread Hne).
  - intros sched rep Hmain.
    destruct (main_finished_w set_iter urljoin validate_email Wd lines
                sched w rep Hmain)
      as (ds & Hread & _ & Hperm & _ & Hout).
    destruct (workflow_read_from _ 0 ds Hread) as (Hpos & _ & Hinc).
    exists (sorted_by_line (Workflow.results rep)).
    assert (Hkeys : map key (sorted_by_line (Workflow.results rep)) = ds).
    { apply sorted_by_line_keys; auto. }
    split; [exact Hout | split].
    + replace (map line_number (sorted_by_line (Workflow.results rep)))
        with (map fst (map key (sorted_by_line (Workflow.results rep))))
        by (rewrite map_map; reflexivity).
      rewrite Hkeys, Hpos, (read_lines_length lines 0). apply map_ext.
      intros i. lia.
    + rewrite Hread. f_equal. symmetry. exact Hkeys.
  - intros ds sched Hw Hread Hne.
    exact (main_finishes_w set_iter urljoin validate_email Wd Hw lines ds
             sched w Hread Hne).
Qed.

Lemma final_rows_in_input_order_witness :
  (exists rep,
      Scraper.main Fixtures.insertion_order Fixtures.urljoin
        Fixtures.validate_email Fixtures.example_site Fixtures.spaced_lines
        [1; 0; 1; 1]%nat [0]%nat tt = Scraper.Finished rep /\
      nonblank_from 0 Fixtures.spaced_lines = [1; 3]%Z /\
      exists recs,
        Scraper.output_file rep
        = ["domain"; "emails"; "target_website"]
          :: map (fun r => [domain r; emails r; target_website r]) recs /\
        map line_number recs = nonblank_from 0 Fixtures.spaced_lines /\
        Scraper.read_domains Fixtures.spaced_lines
        = inr (map (fun r => (line_number r, domain r)) recs)) /\
  (exists rep,
      Scraper.main Fixtures.insertion_order Fixtures.urljoin
        Fixtures.validate_email Fixtures.example_site Fixtures.spaced_lines
        [3; 1; 2]%nat [] tt = Scraper.Finished rep) /\
  (exists rep,
      Workflow.main Fixtures.insertion_order Fixtures.urljoin
        Fixtures.validate_email Fixtures.example_site Fixtures.spaced_lines
        [1; 0; 1; 1]%nat tt = Workflow.Finished rep /\
      exists recs,
        Workflow.output_file rep
        = ["domain"; "emails"; "target_website"]
          :: map (fun r => [domain r; emails r; target_website r]) recs /\
        map line_number recs
        = map (fun i => 1 + Z.of_nat i)%Z
            (seq 0 (length (nonblank_from 0 Fixtures.spaced_lines))) /\
        Workflow.read_domains Fixtures.spaced_lines
        = inr (map (fun r => (line_number r, domain r)) recs)) /\
  (exists rep,
      Workflow.main Fixtures.insertion_order Fixtures.urljoin
        Fixtures.validate_email Fixtures.example_site Fixtures.spaced_lines
        [3; 1; 2]%nat tt = Workflow.Finished rep).
Proof.
  pose proof (final_rows_in_input_order Fixtures.insertion_order
                Fixtures.urljoin Fixtures.validate_email
                Fixtures.example_site Fixtures.spaced_lines tt)
    as (H1 & H2 & H3 & H4).
  split; [ | split; [ | split]].
  - eexists. split; [vm_compute; reflexivity | ].
    split; [vm_compute; reflexivity | ].
    apply (H1 [1; 0; 1; 1]%nat [0]%nat). vm_compute. reflexivity.
  - apply (H2 [(1%Z, "example.com"); (3%Z, "nomail.test")]).
    + exact example_site_parses.
    + vm_compute. reflexivity.
    + discriminate.
  - eexists. split; [vm_compute; reflexivity | ].
    apply (H3 [1; 0; 1; 1]%nat). vm_compute. reflexivity.
  - apply (H4 [(1%Z, "example.com"); (2%Z, "nomail.test")]).
    + exact example_site_harmless.
    + vm_compute. reflexivity.
    + discriminate.
Defined.

(** C4.  [cleanup_email] normalises the spaced forms, but the extractor of
    [scraper.py] never hands them to it: the pattern finds nothing in either
    text, of a match it does find it keeps the first character only, and two
    mailto links that differ by case come out twice.  The sibling script finds
    nothing in the texts either, and its [cleanup_email] leaves the blanks. *)
Theorem extractor_loses_obfuscated_text :
  Scraper.cleanup_email "foo [at] bar [dot] com" = "foo@bar.com" /\
  Scraper.cleanup_email "foo (at) bar (dot) com" = "foo@bar.com" /\
  Scraper.extract_emails Fixtures.insertion_order
    (Fixtures.page "Contact: foo [at] bar [dot] com" []) = [] /\
  Scraper.extract_emails Fixtures.insertion_order
    (Fixtures.page "foo (at) bar (dot) com" []) = [] /\
  Scraper.extract_emails Fixtures.insertion_order
    (Fixtures.page "foo[at]bar[dot]com" []) = ["f"] /\
  Scraper.extract_emails Fixtures.insertion_order
    (Fixtures.page "hello" ["mailto:A@b.com"; "mailto:a@b.com"])
  = ["a@b.com"; "a@b.com"] /\
  Workflow.extract_emails_from_html Fixtures.insertion_order
    Fixtures.validate_email
    (Some (Parsed (Fixtures.page "Contact: foo [at] bar [dot] com" [])))
  = Ret [] /\
  Workflow.extract_emails_from_html Fixtures.insertion_order
    Fixtures.validate_email
    (Some (Parsed (Fixtures.page "foo (at) bar (dot) com" []))) = Ret [] /\
  Workflow.cleanup_email "foo [at] bar [dot] com" = "foo @ bar . com".
Proof. vm_compute. repeat split. Qed.

(** C5.  A home page that answers and has a footer link: [scraper.py]
    discovers the linked page only, the base URL is not a candidate.  A home
    page with five keyword links: the sibling adds the base URL last and the
    cut to five drops it when the set iterates in insertion order. *)
Theorem discovery_drops_base_url :
  value (run Fixtures.footer_site
           (Scraper.discover_relevant_pages Fixtures.insertion_order
              Fixtures.urljoin "https://example.com") tt)
  = inr ["https://example.com/contact"] /\
  map url_of
    (trace (run Fixtures.footer_site
              (Scraper.check_domain Fixtures.insertion_order Fixtures.urljoin
                 Fixtures.validate_email "example.com" 1 false) tt))
  = ["https://example.com";
     "https://example.com/contact"; "https://example.com/contact";
     "https://example.com/contact"; "https://example.com/contact";
     "https://example.com/contact"; "https://example.com/contact";
     "http://example.com";
     "http://example.com"; "http://example.com"; "http://example.com";
     "http://example.com"; "http://example.com"; "http://example.com"] /\
  value (run Fixtures.links_site
           (Workflow.get_relevant_pages Fixtures.insertion_order
              Fixtures.urljoin "https://example.com") tt)
  = inr ["https://example.com/contact"; "https://example.com/about";
         "https://example.com/team"; "https://example.com/support";
         "https://example.com/privacy"].
Proof. vm_compute. repeat split. Qed.

(** C6.  In a run of [check_domain], an event that yields a validated address
    is the last event of the trace: no page, protocol or retry is requested
    after it.  The check returns, and the page it records is the URL of that
    event (an empty URL is falsy in Python and is replaced).  This holds for
    both scripts, in every environment. *)
Theorem short_circuit_on_first_email :
  forall (set_iter : list string -> list string)
         (urljoin : string -> string -> exn + string)
         (validate_email : string -> bool),
    set_order set_iter ->
    forall (Wd : World) (w : wstate Wd) (d : string) (ln : Z),
      (forall deep pre ev post,
          trace (run Wd (Scraper.check_domain set_iter urljoin validate_email
                           d ln deep) w) = pre ++ ev :: post ->
          (exists e, In e (candidates set_iter ev) /\ validate_email e = true) ->
          post = [] /\
          exists r,
            value (run Wd (Scraper.check_domain set_iter urljoin validate_email
                             d ln deep) w) = inr r /\
            (url_of ev <> EmptyString -> target_website r = url_of ev)) /\
      (forall pre ev post,
          trace (run Wd (Workflow.check_domain set_iter urljoin validate_email
                           d ln) w) = pre ++ ev :: post ->
          validated set_iter validate_email ev <> [] ->
          post = [] /\
          exists r,
            value (run Wd (Workflow.check_domain set_iter urljoin validate_email
                             d ln) w) = inr r /\
            (url_of ev <> EmptyString -> target_website r = url_of ev)).
Proof.
  intros set_iter urljoin validate_email Hset Wd w d ln. split.
  - intros deep pre ev post Heq (e & He & _).
    destruct (check_domain_run set_iter urljoin validate_email Hset Wd w d ln
                deep) as [Hlast _].
    destruct (Hlast pre ev post Heq) as (Hpost & _ & Hr).
    + intros Hnil. rewrite Hnil in He. destruct He.
    + auto.
  - intros pre ev post Heq Hy.
    destruct (check_domain_run_w set_iter urljoin validate_email Wd w d ln
                pre ev post Heq Hy) as (Hpost & _ & Hr).
    auto.
Qed.

Lemma short_circuit_on_first_email_witness :
  (exists r,
      value (run Fixtures.example_site
               (Scraper.check_domain Fixtures.insertion_order Fixtures.urljoin
                  Fixtures.validate_email "example.com" 1 false) tt) = inr r /\
      target_website r = "https://example.com") /\
  (exists r,
      value (run Fixtures.example_site
               (Workflow.check_domain Fixtures.insertion_order Fixtures.urljoin
                  Fixtures.validate_email "example.com" 1) tt) = inr r /\
      target_website r = "https://example.com").
Proof.
  destruct (short_circuit_on_first_email Fixtures.insertion_order
              Fixtures.urljoin Fixtures.validate_email insertion_order_ok
              Fixtures.example_site tt "example.com" 1) as [Hs Hwf].
  split.
  - destruct (Hs false
                [EvGet Discover "https://example.com"
                   (Fixtures.ok (Fixtures.page "hello"
                                   ["mailto:info@example.com"]))]
                (EvGet Fetch "https://example.com"
                   (Fixtures.ok (Fixtures.page "hello"
                                   ["mailto:info@example.com"])))
                [] eq_refl
                (ex_intro _ "info@example.com"
                   (conj (or_introl eq_refl) eq_refl)))
      as [_ (r & Hv & Ht)].
    exists r. split; [exact Hv | apply Ht; discriminate].
  - destruct (Hwf
                [EvGet Discover "https://example.com"
                   (Fixtures.ok (Fixtures.page "hello"
                                   ["mailto:info@example.com"]));
                 EvSleep]
                (EvGet Fetch "https://example.com"
                   (Fixtures.ok (Fixtures.page "hello"
                                   ["mailto:info@example.com"])))
                [] eq_refl)
      as [_ (r & Hv & Ht)].
    + vm_compute. discriminate.
    + exists r. split; [exact Hv | apply Ht; discriminate].
Defined.

(** C7.  A home page that prints an address in its text: [scraper.py] keeps
    the first character of the match, which does not validate, and reports
    [Not found] together with the page.  A home page with two mailto links:
    the addresses are joined in the iteration order of the set, here not the
    sorted one.  The sibling script reports the sorted list. *)
Theorem row_breaks_the_format :
  value (run Fixtures.text_only_site
           (Scraper.check_domain Fixtures.insertion_order Fixtures.urljoin
              Fixtures.validate_email "example.com" 1 false) tt)
  = inr (mkResult 1 "example.com" "Not found" "https://example.com") /\
  value (run Fixtures.two_mailto_site
           (Scraper.check_domain Fixtures.insertion_order Fixtures.urljoin
              Fixtures.validate_email "example.com" 1 false) tt)
  = inr (mkResult 1 "example.com" "b@example.com, a@example.com"
           "https://example.com") /\
  value (run Fixtures.two_mailto_site
           (Workflow.check_domain Fixtures.insertion_order Fixtures.urljoin
              Fixtures.validate_email "example.com" 1) tt)
  = inr (mkResult 1 "example.com" "a@example.com, b@example.com"
           "https://example.com").
Proof. vm_compute. repeat split. Qed.

(** C8.  Two runs of [scraper.py] on the same input against the same site,
    under two iteration orders a set of strings may have, write different
    files. *)
Theorem output_depends_on_set_order :
  set_order Fixtures.insertion_order /\
  set_order Fixtures.reverse_order /\
  exists rep1 rep2,
    Scraper.main Fixtures.insertion_order Fixtures.urljoin
      Fixtures.validate_email Fixtures.two_mailto_site ["example.com"]
      [] [] tt = Scraper.Finished rep1 /\
    Scraper.main Fixtures.reverse_order Fixtures.urljoin
      Fixtures.validate_email Fixtures.two_mailto_site ["example.com"]
      [] [] tt = Scraper.Finished rep2 /\
    Scraper.output_file rep1
    = [header; ["example.com"; "b@example.com, a@example.com";
                "https://example.com"]] /\
    Scraper.output_file rep2
    = [header; ["example.com"; "a@example.com, b@example.com";
                "https://example.com"]] /\
    Csv.contents (Scraper.output_file rep1)
    <> Csv.contents (Scraper.output_file rep2).
Proof.
  split; [exact insertion_order_ok | split; [exact reverse_order_ok | ]].
  eexists. eexists.
  split; [vm_compute; reflexivity | ].
  split; [vm_compute; reflexivity | ].
  vm_compute. repeat split. discriminate.
Qed.

(** C9.  In [scraper.py] the page is parsed after the [try] that guards the
    request, and [check_domain] has no handler around [fetch_emails]: a home
    page that answers 200 with a text the parser rejects makes [check_domain]
    raise right after the page fetch, a rendered page the parser rejects
    makes the deep check raise, and the exception ends [main] before anything
    but the header is written.  Failed requests are absorbed: where nothing
    answers, the check returns the not-found record. *)
Theorem parser_error_escapes_check_domain :
  value (run Fixtures.rejected_site
           (Scraper.check_domain Fixtures.insertion_order Fixtures.urljoin
              Fixtures.validate_email "example.com" 1 false) tt)
  = inl ParserRejectedMarkup /\
  trace (run Fixtures.rejected_site
           (Scraper.check_domain Fixtures.insertion_order Fixtures.urljoin
              Fixtures.validate_email "example.com" 1 false) tt)
  = [EvGet Discover "https://example.com"
       (Fixtures.malformed Fixtures.rejected_text);
     EvGet Fetch "https://example.com"
       (Fixtures.malformed Fixtures.rejected_text)] /\
  value (run Fixtures.rejected_render_site
           (Scraper.check_domain Fixtures.insertion_order Fixtures.urljoin
              Fixtures.validate_email "example.com" 1 true) tt)
  = inl ParserRejectedMarkup /\
  Scraper.main Fixtures.insertion_order Fixtures.urljoin
    Fixtures.validate_email Fixtures.rejected_site ["example.com"] [] [] tt
  = Scraper.Crashed ParserRejectedMarkup /\
  value (run Fixtures.unreachable
           (Scraper.check_domain Fixtures.insertion_order Fixtures.urljoin
              Fixtures.validate_email "nomail.test" 3 false) tt)
  = inr (mkResult 3 "nomail.test" "Not found" EmptyString).
Proof. vm_compute. repeat split. Qed.

(** C10.  For a host that is empty or made of blanks, [check_domain] is a
    plain [return] of the not-found record with an empty host: it has no
    suspension point, so no request and no discovery happen.  Both scripts. *)
Theorem blank_host_returns_at_once :
  forall (set_iter : list string -> list string)
         (urljoin : string -> string -> exn + string)
         (validate_email : string -> bool)
         (d : string) (ln : Z),
    all_space d = true ->
    (forall deep,
        Scraper.check_domain set_iter urljoin validate_email d ln deep
        = Ret (mkResult ln EmptyString not_found EmptyString)) /\
    Workflow.check_domain set_iter urljoin validate_email d ln
    = Ret (mkResult ln EmptyString not_found EmptyString) /\
    (forall (Wd : World) (w : wstate Wd) deep,
        trace (run Wd (Scraper.check_domain set_iter urljoin validate_email
                         d ln deep) w) = [] /\
        trace (run Wd (Workflow.check_domain set_iter urljoin validate_email
                         d ln) w) = []).
Proof.
  intros set_iter urljoin validate_email d ln Hd.
  apply strip_all_space in Hd.
  assert (H1 : forall deep,
             Scraper.check_domain set_iter urljoin validate_email d ln deep
             = Ret (mkResult ln EmptyString not_found EmptyString)).
  { intros deep. unfold Scraper.check_domain. now rewrite Hd. }
  assert (H2 : Workflow.check_domain set_iter urljoin validate_email d ln
               = Ret (mkResult ln EmptyString not_found EmptyString)).
  { unfold Workflow.check_domain. now rewrite Hd. }
  split; [exact H1 | split; [exact H2 | ]].
  intros Wd w deep. now rewrite H1, H2.
Qed.

Lemma blank_host_returns_at_once_witness :
  Scraper.check_domain Fixtures.insertion_order Fixtures.urljoin
    Fixtures.validate_email "  " 7 true
  = Ret (mkResult 7 EmptyString not_found EmptyString) /\
  Workflow.check_domain Fixtures.insertion_order Fixtures.urljoin
    Fixtures.validate_email "  " 7
  = Ret (mkResult 7 EmptyString not_found EmptyString).
Proof.
  destruct (blank_host_returns_at_once Fixtures.insertion_order Fixtures.urljoin
              Fixtures.validate_email "  " 7 eq_refl) as (H1 & H2 & _).
  split; [apply H1 | exact H2].
Defined.

(** * Further properties *)

(** ** How many requests one check of [scraper.py] makes *)
Section AtMost.
Variable P : event -> bool.

Lemma at_most_weaken {A : Type} (p : prog A) :
  forall n n' (Q Q' : A -> Prop),
    (n <= n')%nat -> (forall a, Q a -> Q' a) ->
    at_most P n Q p -> at_most P n' Q' p.
Proof.
  unfold at_most.
  induction p as [a | e | by_ url k IH | url deep k IH | k IH];
    intros n n' Q Q' Hn HQ; simpl; auto.
  - intros H o. destruct (H o) as (m & -> & Hm).
    exists (m + (n' - (weight P (EvGet by_ url o) + m)))%nat.
    split; [lia | ]. eapply IH; [ | exact HQ | exact Hm]. lia.
  - intros H o. destruct (H o) as (m & -> & Hm).
    exists (m + (n' - (weight P (EvRender url deep o) + m)))%nat.
    split; [lia | ]. eapply IH; [ | exact HQ | exact Hm]. lia.
  - intros (m & -> & Hm).
    exists (m + (n' - (weight P EvSleep + m)))%nat.
    split; [lia | ]. eapply IH; [ | exact HQ | exact Hm]. lia.
Qed.

Lemma at_most_try_except {A B : Type} (p : prog A) :
  forall (f : A -> prog B) (h : exn -> prog B) n m (Q : A -> Prop)
         (Q' : B -> Prop),
    at_most P n Q p ->
    (forall a, Q a -> at_most P m Q' (f a)) ->
    (forall e, at_most P m Q' (h e)) ->
    at_most P (n + m) Q' (try_except p f h).
Proof.
  unfold at_most.
  induction p as [a | e | by_ url k IH | url deep k IH | k IH];
    intros f h n m Q Q' Hp Hf Hh; simpl in *.
  - exact (at_most_weaken (f a) m (n + m) Q' Q' ltac:(lia) (fun _ H => H)
             (Hf a Hp)).
  - exact (at_most_weaken (h e) m (n + m) Q' Q' ltac:(lia) (fun _ H => H)
             (Hh e)).
  - intros o. destruct (Hp o) as (k' & -> & Hk).
    exists (k' + m)%nat. split; [lia | ]. eapply IH; eauto.
  - intros o. destruct (Hp o) as (k' & -> & Hk).
    exists (k' + m)%nat. split; [lia | ]. eapply IH; eauto.
  - destruct Hp as (k' & -> & Hk).
    exists (k' + m)%nat. split; [lia | ]. eapply IH; eauto.
Qed.

Lemma at_most_ret {A : Type} (a : A) n (Q : A -> Prop) :
  Q a -> at_most P n Q (Ret a).
Proof. intros H. exact H. Qed.

Lemma at_most_bind {A B : Type} (p : prog A) (f : A -> prog B) n m
      (Q : A -> Prop) (Q' : B -> Prop) :
  at_most P n Q p ->
  (forall a, Q a -> at_most P m Q' (f a)) ->
  at_most P (n + m) Q' (bind p f).
Proof.
  intros Hp Hf. unfold bind.
  eapply at_most_try_except; [exact Hp | exact Hf | ].
  intros e. exact I.
Qed.

Lemma at_most_run (Wd : World) {A : Type} (p : prog A) n (Q : A -> Prop)
      (w : wstate Wd) tr :
  at_most P n Q p ->
  (count P (trace (run_from Wd p w tr)) <= count P tr + n)%nat /\
  forall a, value (run_from Wd p w tr) = inr a -> Q a.
Proof.
  intros H. destruct (emits_run P Wd p n _ _ w tr H) as (m & Hc & Hv).
  split; [lia | ].
  intros a Ha. rewrite Ha in Hv. exact Hv.
Qed.

End AtMost.


Arguments kind_eqb : simpl never.

Section ScraperBudget.
Variable set_iter : list string -> list string.
Variable urljoin : string -> string -> exn + string.
Variable validate_email : string -> bool.
Variable k0 : kind.

Local Notation "'P'" := (of_kind k0).
Local Notation "'one' k" := (if kind_eqb k k0 then 1%nat else 0%nat)
  (at level 10, k at level 9).
Local Notation "'per_page' deep" :=
  (if deep then one DeepRender else (one PageGet + one ShallowRender)%nat)
  (at level 10, deep at level 9).
Local Notation "'anything'" := (fun _ => True).

Lemma fetch_emails_playwright_cost url (deep : bool) :
  at_most P (one (if deep then DeepRender else ShallowRender)) anything
    (Scraper.fetch_emails_playwright set_iter url deep).
Proof.
  unfold at_most, Scraper.fetch_emails_playwright, playwright_content. simpl.
  intros o. exists 0%nat. split.
  - unfold weight, of_kind. simpl. destruct deep; simpl; lia.
  - destruct o as [e | [h | source e]]; exact I.
Qed.

Lemma fetch_emails_cost url (deep : bool) :
  at_most P (per_page deep) anything (Scraper.fetch_emails set_iter url deep).
Proof.
  unfold Scraper.fetch_emails. destruct deep.
  - apply (fetch_emails_playwright_cost url true).
  - unfold at_most, bind, session_get. simpl. intros o.
    exists (one ShallowRender). split; [reflexivity | ].
    destruct o as [e | r]; simpl;
      [apply (fetch_emails_playwright_cost url false) | ].
    destruct (status r =? 200)%Z; simpl;
      [ | apply (fetch_emails_playwright_cost url false)].
    unfold response_text. destruct (text r) as [[h | source e] | e]; simpl;
      [exact I | exact I | apply (fetch_emails_playwright_cost url false)].
Qed.

Lemma pages_loop_cost (deep : bool) pages :
  forall st,
    at_most P (length pages * per_page deep) anything
      (Scraper.pages_loop set_iter deep pages st).
Proof.
  induction pages as [ | page rest IH]; intros st; cbn.
  - exact I.
  - apply (at_most_bind P _ _ (per_page deep) (length rest * per_page deep)
             anything anything).
    + apply fetch_emails_cost.
    + intros new _. destruct (Scraper.nonempty new); [ | apply IH].
      apply at_most_ret. exact I.
Qed.

Lemma retry_loop_cost (deep : bool) pages n :
  forall st,
    at_most P (n * (length pages * per_page deep)) anything
      (Scraper.retry_loop set_iter deep pages n st).
Proof.
  induction n as [ | n IH]; intros st; cbn -[Nat.mul].
  - exact I.
  - destruct (Scraper.nonempty (Scraper.st_emails st)).
    + apply at_most_ret. exact I.
    + apply (at_most_bind P _ _ (length pages * per_page deep)
               (n * (length pages * per_page deep)) anything anything).
      * apply pages_loop_cost.
      * intros st' _. apply IH.
Qed.

Lemma discover_relevant_pages_cost base_url :
  at_most P (one DiscoveryGet) (fun pages => (length pages <= 10)%nat)
    (Scraper.discover_relevant_pages set_iter urljoin base_url).
Proof.
  unfold at_most, Scraper.discover_relevant_pages, bind, session_get.
  cbn -[firstn]. intros o. exists 0%nat. split.
  - unfold weight, of_kind. simpl. lia.
  - destruct o as [e | r]; cbn -[firstn]; [lia | ].
    destruct (status r =? 200)%Z; cbn -[firstn]; [ | lia].
    unfold response_text.
    destruct (text r) as [[h | source e] | e]; cbn -[firstn]; try lia.
    destruct (Scraper.relevant_links urljoin base_url h); cbn -[firstn];
      [lia | ].
    rewrite length_firstn. lia.
Qed.

Lemma protocol_loop_cost (deep : bool) d protocols :
  forall st,
    at_most P (length protocols * (one DiscoveryGet + 30 * per_page deep))
      anything
      (Scraper.protocol_loop set_iter urljoin deep d protocols st).
Proof.
  induction protocols as [ | protocol rest IH]; intros st;
    cbn -[Scraper.retry_loop Nat.mul].
  - exact I.
  - destruct (Scraper.nonempty (Scraper.st_emails st)).
    + apply at_most_ret. exact I.
    + eapply at_most_weaken
        with (n := (one DiscoveryGet
                    + (30 * per_page deep
                       + length rest
                         * (one DiscoveryGet + 30 * per_page deep)))%nat)
             (Q := anything); [cbn [length]; lia | auto | ].
      eapply at_most_bind; [apply discover_relevant_pages_cost | ].
      cbn beta. intros pages Hlen.
      eapply at_most_bind with (Q := anything); [ | intros st' _; apply IH].
      eapply at_most_weaken; [ | | apply retry_loop_cost]; [ | auto].
      unfold Scraper.MAX_RETRIES. cbn [Nat.add].
      match goal with
      | |- context [length ?l] =>
          assert (Hl : (length l <= 10)%nat)
            by (destruct (Scraper.nonempty pages); simpl; lia);
          set (n := length l) in *
      end.
      set (c := per_page deep). nia.
Qed.

Lemma check_domain_cost d ln (deep : bool) :
  at_most P (2 * (one DiscoveryGet + 30 * per_page deep)) anything
    (Scraper.check_domain set_iter urljoin validate_email d ln deep).
Proof.
  unfold Scraper.check_domain.
  destruct (PyStr.is_empty (PyStr.strip d)).
  - apply at_most_ret. exact I.
  - eapply at_most_weaken
      with (n := (2 * (one DiscoveryGet + 30 * per_page deep) + 0)%nat)
           (Q := anything); [lia | auto | ].
    eapply at_most_bind with (Q := anything).
    + apply (protocol_loop_cost deep d ["https"; "http"]).
    + intros st _. exact I.
Qed.

End ScraperBudget.


(** ** How many requests one check of the sibling script makes *)

Lemma paced_app (l1 l2 : list event) :
  paced l1 = true -> paced (l1 ++ l2) = paced l2.
Proof.
  assert (H : forall n l, (length l <= n)%nat ->
                          paced l = true -> paced (l ++ l2) = paced l2).
  { induction n as [ | n IH]; intros l Hl Hp.
    - destruct l; [reflexivity | simpl in Hl; lia].
    - destruct l as [ | ev l]; [reflexivity | ].
      destruct ev as [[ | ] url o | url deep o | ]; simpl in *.
      + apply IH; [lia | exact Hp].
      + discriminate.
      + discriminate.
      + destruct l as [ | [[ | ] url o | url deep o | ] l]; simpl in *;
          try discriminate.
        apply IH; [lia | exact Hp]. }
  apply (H (length l1)). lia.
Qed.

Section WorkflowBudget.
Variable set_iter : list string -> list string.
Variable urljoin : string -> string -> exn + string.
Variable validate_email : string -> bool.
Variable k0 : kind.

Local Notation "'P'" := (of_kind k0).
Local Notation "'one' k" := (if kind_eqb k k0 then 1%nat else 0%nat)
  (at level 10, k at level 9).
Local Notation "'anything'" := (fun _ => True).

Lemma fetch_page_cost (by_ : purpose) url :
  at_most P (one (match by_ with Discover => DiscoveryGet | Fetch => PageGet end))
    anything (Workflow.fetch_page by_ url).
Proof.
  unfold at_most, Workflow.fetch_page, bind, session_get. simpl.
  intros o. exists 0%nat. split.
  - unfold weight, of_kind. destruct by_; simpl; lia.
  - destruct o as [e | r]; simpl; [destruct e; exact I | ].
    destruct (status r =? 200)%Z; simpl; [ | exact I].
    unfold response_text. destruct (text r) as [h | e]; simpl;
      [exact I | destruct e; exact I].
Qed.

Lemma get_relevant_pages_cost base_url :
  at_most P (one DiscoveryGet) (fun pages => (length pages <= 5)%nat)
    (Workflow.get_relevant_pages set_iter urljoin base_url).
Proof.
  unfold Workflow.get_relevant_pages.
  eapply at_most_weaken with (n := (one DiscoveryGet + 0)%nat);
    [lia | intros a H; exact H | ].
  eapply at_most_bind; [apply (fetch_page_cost Discover) | ].
  intros html _.
  unfold at_most.
  destruct html as [[h | source e] | ]; cbn -[firstn]; [ | | lia].
  - destruct (PyStr.is_empty (raw h)); [cbn; lia | ].
    unfold bind. cbn -[firstn].
    destruct (Workflow.links urljoin base_url h); cbn -[firstn]; [exact I | ].
    rewrite length_firstn. lia.
  - destruct (PyStr.is_empty source); [cbn; lia | exact I].
Qed.

(** The extractor makes no request: it returns or raises on the spot. *)
Lemma extract_emails_from_html_pure (html : option markup) :
  exists x,
    Workflow.extract_emails_from_html set_iter validate_email html = lift x.
Proof.
  unfold Workflow.extract_emails_from_html.
  destruct html as [[h | source e] | ].
  - cbn. destruct (PyStr.is_empty (raw h)); [exists (inr []); reflexivity | ].
    exists (inr (Workflow.scan set_iter validate_email h)). reflexivity.
  - cbn. destruct (PyStr.is_empty source);
      [exists (inr []) | exists (inl e)]; reflexivity.
  - exists (inr []). reflexivity.
Qed.

Lemma attempt_loop_cost page_url n :
  forall st,
    at_most P (n * (one Pause + one PageGet)) anything
      (Workflow.attempt_loop set_iter validate_email page_url n st).
Proof.
  induction n as [ | n IH]; intros st; cbn -[Nat.mul].
  - exact I.
  - destruct (Workflow.nonempty (Workflow.all_emails st)).
    + apply at_most_ret. exact I.
    + unfold at_most. cbn -[Nat.mul].
      exists (one PageGet + n * (one Pause + one PageGet))%nat. split.
      * unfold weight, of_kind. simpl. lia.
      * apply (at_most_bind P _ _ (one PageGet)
                 (n * (one Pause + one PageGet)) anything anything).
        -- apply (fetch_page_cost Fetch).
        -- intros html _.
           destruct (extract_emails_from_html_pure html) as [[e | emails] ->];
             unfold bind; cbn -[Nat.mul]; [exact I | ].
           destruct (Workflow.nonempty _); [apply at_most_ret; exact I | ].
           apply IH.
Qed.

Lemma page_loop_cost pages :
  forall st,
    at_most P (length pages * (3 * (one Pause + one PageGet))) anything
      (Workflow.page_loop set_iter validate_email pages st).
Proof.
  induction pages as [ | page_url rest IH]; intros st;
    cbn -[Workflow.attempt_loop Nat.mul].
  - exact I.
  - destruct (Workflow.nonempty (Workflow.all_emails st)).
    + apply at_most_ret. exact I.
    + eapply at_most_weaken
        with (n := (3 * (one Pause + one PageGet)
                    + length rest * (3 * (one Pause + one PageGet)))%nat)
             (Q := anything); [lia | auto | ].
      eapply at_most_bind with (Q := anything).
      * apply (attempt_loop_cost page_url 3).
      * intros st' _. apply IH.
Qed.

Lemma protocol_loop_cost_w d protocols :
  forall st,
    at_most P (length protocols
               * (one DiscoveryGet + 15 * (one Pause + one PageGet)))
      anything
      (Workflow.protocol_loop set_iter urljoin validate_email d protocols st).
Proof.
  induction protocols as [ | protocol rest IH]; intros st;
    cbn -[Workflow.page_loop Nat.mul].
  - exact I.
  - destruct (Workflow.nonempty (Workflow.all_emails st)).
    + apply at_most_ret. exact I.
    + eapply at_most_weaken
        with (n := (one DiscoveryGet
                    + (15 * (one Pause + one PageGet)
                       + length rest
                         * (one DiscoveryGet
                            + 15 * (one Pause + one PageGet))))%nat)
             (Q := anything); [lia | auto | ].
      eapply at_most_bind; [apply get_relevant_pages_cost | ].
      cbn beta. intros pages Hlen.
      eapply at_most_bind with (Q := anything); [ | intros st' _; apply IH].
      eapply at_most_weaken; [ | | apply page_loop_cost]; [ | auto].
      set (c := (one Pause + one PageGet)%nat). nia.
Qed.

Lemma check_domain_cost_w d ln :
  at_most P (2 * (one DiscoveryGet + 15 * (one Pause + one PageGet))) anything
    (Workflow.check_domain set_iter urljoin validate_email d ln).
Proof.
  unfold Workflow.check_domain. cbv zeta.
  destruct (PyStr.is_empty (PyStr.strip d)).
  - apply at_most_ret. exact I.
  - eapply at_most_weaken
      with (n := (2 * (one DiscoveryGet + 15 * (one Pause + one PageGet))
                  + 0)%nat)
           (Q := anything); [lia | auto | ].
    eapply at_most_bind with (Q := anything).
    + apply (protocol_loop_cost_w (PyStr.strip d) ["https://"; "http://"]).
    + intros st _. exact I.
Qed.

Local Notation "'WP'" := (wp any_http any_render).
Local Notation "'in_step'" :=
  (fun (_ : Workflow.loop_state) (tr : list event) => paced tr = true).
Local Notation "'stopped'" :=
  (fun (_ : exn) (tr : list event) => paced tr = true).

Lemma paced_discover tr url o :
  paced tr = true -> paced (tr ++ [EvGet Discover url o]) = true.
Proof. intros H. now rewrite paced_app. Qed.

Lemma paced_fetch tr url o :
  paced tr = true -> paced ((tr ++ [EvSleep]) ++ [EvGet Fetch url o]) = true.
Proof. intros H. rewrite <- app_assoc. now rewrite paced_app. Qed.

Lemma attempt_loop_paced page_url n :
  forall st tr,
    paced tr = true ->
    WP (Workflow.attempt_loop set_iter validate_email page_url n st)
       in_step stopped tr.
Proof.
  induction n as [ | n IH]; intros st tr Hp; cbn.
  - exact Hp.
  - destruct (Workflow.nonempty (Workflow.all_emails st)); cbn; [exact Hp | ].
    apply wp_bind.
    eapply wp_mono; [ | | apply fetch_page_wp]; cbn.
    + intros html t (o & -> & _).
      destruct (extract_emails_from_html_pure html) as [[e | emails] ->];
        unfold bind; cbn; [now apply paced_fetch | ].
      destruct (Workflow.nonempty _); cbn.
      * now apply paced_fetch.
      * apply IH. now apply paced_fetch.
    + intros e t (o & -> & _). now apply paced_fetch.
Qed.

Lemma page_loop_paced pages :
  forall st tr,
    paced tr = true ->
    WP (Workflow.page_loop set_iter validate_email pages st) in_step stopped tr.
Proof.
  induction pages as [ | page_url rest IH]; intros st tr Hp;
    cbn -[Workflow.attempt_loop].
  - exact Hp.
  - destruct (Workflow.nonempty (Workflow.all_emails st)); [exact Hp | ].
    apply wp_bind.
    eapply wp_mono; [ | | apply attempt_loop_paced; exact Hp]; cbn; [ | auto].
    intros st' t Ht. now apply IH.
Qed.

Lemma protocol_loop_paced d protocols :
  forall st tr,
    paced tr = true ->
    WP (Workflow.protocol_loop set_iter urljoin validate_email d protocols st)
       in_step stopped tr.
Proof.
  induction protocols as [ | protocol rest IH]; intros st tr Hp;
    cbn -[Workflow.page_loop].
  - exact Hp.
  - destruct (Workflow.nonempty (Workflow.all_emails st)); [exact Hp | ].
    apply wp_bind.
    eapply wp_mono; [ | | apply get_relevant_pages_wp]; cbn.
    + intros pages t [o ->].
      apply wp_bind.
      eapply wp_mono; [ | | apply page_loop_paced]; cbn; [ | auto | ].
      * intros st' t' Ht'. now apply IH.
      * now apply paced_discover.
    + intros e t [o ->]. now apply paced_discover.
Qed.

Lemma check_domain_paced d ln :
  wp any_http any_render
     (Workflow.check_domain set_iter urljoin validate_email d ln)
     (fun _ tr => paced tr = true) (fun _ tr => paced tr = true) [].
Proof.
  unfold Workflow.check_domain. cbv zeta.
  destruct (PyStr.is_empty (PyStr.strip d)); cbn -[Workflow.protocol_loop];
    [reflexivity | ].
  apply wp_bind.
  eapply wp_mono; [ | | apply protocol_loop_paced]; cbn; auto.
Qed.

End WorkflowBudget.


(** ** How many requests a run of [scraper.py] makes *)

Section PoolBudget.
Variable P : event -> bool.
Variable Wd : World.
Variable A : Type.

Local Notation "'within'" :=
  (fun (n : nat) (p : prog A) => at_most P n (fun _ => True) p).

Lemma pick_within (ns : list nat) (ps : list (prog A)) :
  Forall2 within ns ps ->
  forall j p,
    nth_error ps j = Some p ->
    exists n ns1 ns2,
      ns = ns1 ++ n :: ns2 /\ within n p /\
      Forall2 within (ns1 ++ ns2) (remove_nth A j ps) /\
      (forall p' n',
          within n' p' ->
          Forall2 within (ns1 ++ n' :: ns2) (replace_nth A j p' ps)).
Proof.
  induction 1 as [ | n p0 ns ps Hn Hrest IH]; intros j p Hj.
  - destruct j; discriminate.
  - destruct j as [ | j]; simpl in Hj.
    + injection Hj as ->. exists n, [], ns. simpl. repeat split; auto.
    + destruct (IH j p Hj) as (n' & ns1 & ns2 & -> & Hp & Hrm & Hrp).
      exists n', (n :: ns1), ns2. simpl. repeat split; auto.
Qed.

Lemma drain_within (ps : list (prog A)) :
  forall ns w tr done,
    Forall2 within ns ps ->
    (count P (pool_trace (drain Wd A ps w tr done))
     <= count P tr + list_sum ns)%nat.
Proof.
  induction ps as [ | p ps IH]; intros ns w tr done H;
    inversion H as [ | n p' ns' ps' Hp Hrest]; subst; simpl.
  - lia.
  - destruct (at_most_run P Wd p n _ w tr Hp) as [Hc _].
    destruct (value (run_from Wd p w tr)) as [e | a]; simpl; [lia | ].
    specialize (IH _ (final (run_from Wd p w tr)) (trace (run_from Wd p w tr))
                   (done ++ [a]) Hrest).
    lia.
Qed.

Lemma pool_within (sched : list nat) :
  forall ps ns w tr done,
    Forall2 within ns ps ->
    (count P (pool_trace (pool Wd A sched ps w tr done))
     <= count P tr + list_sum ns)%nat.
Proof.
  induction sched as [ | i sched IH]; intros ps ns w tr done H.
  - now apply drain_within.
  - simpl. destruct (nth_error ps (i mod length ps)) as [p | ] eqn:Hj.
    + destruct (pick_within ns ps H _ p Hj)
        as (n & ns1 & ns2 & -> & Hp & Hrm & Hrp).
      rewrite list_sum_middle.
      destruct p as [a | e | by_ url c | url deep c | c];
        unfold at_most in Hp; simpl in Hp.
      * specialize (IH _ _ w tr (done ++ [a]) Hrm). lia.
      * simpl. lia.
      * destruct (http Wd url w) as [o w'].
        destruct (Hp o) as (m & -> & Hm).
        specialize (IH _ _ w' (tr ++ [EvGet by_ url o]) done (Hrp _ _ Hm)).
        rewrite count_app, count_one, list_sum_middle in IH. lia.
      * destruct (render Wd url deep w) as [o w'].
        destruct (Hp o) as (m & -> & Hm).
        specialize (IH _ _ w' (tr ++ [EvRender url deep o]) done (Hrp _ _ Hm)).
        rewrite count_app, count_one, list_sum_middle in IH. lia.
      * destruct Hp as (m & -> & Hm).
        specialize (IH _ _ w (tr ++ [EvSleep]) done (Hrp _ _ Hm)).
        rewrite count_app, count_one, list_sum_middle in IH. lia.
    + simpl. lia.
Qed.

End PoolBudget.

Lemma list_sum_const {X : Type} (c : nat) (l : list X) :
  list_sum (map (fun _ => c) l) = (length l * c)%nat.
Proof. induction l as [ | x l IH]; simpl; [reflexivity | lia]. Qed.

Lemma within_const {X A : Type} (P : event -> bool) (c : nat)
      (f : X -> prog A) (l : list X) :
  (forall x, at_most P c (fun _ => True) (f x)) ->
  Forall2 (fun n p => at_most P n (fun _ => True) p)
          (map (fun _ => c) l) (map f l).
Proof. intros H. induction l as [ | x l IH]; simpl; constructor; auto. Qed.

Section ScraperMainBudget.
Variable set_iter : list string -> list string.
Variable urljoin : string -> string -> exn + string.
Variable validate_email : string -> bool.
Variable Wd : World.

Local Notation "'check'" :=
  (Scraper.check_domain set_iter urljoin validate_email).
Local Notation "'cost' k0 deep" :=
  (2 * ((if kind_eqb DiscoveryGet k0 then 1 else 0)
        + 30 * (if deep then (if kind_eqb DeepRender k0 then 1 else 0)
                else (if kind_eqb PageGet k0 then 1 else 0)
                     + (if kind_eqb ShallowRender k0 then 1 else 0))))%nat
  (at level 10, k0 at level 9, deep at level 9).

Lemma merge_loop_cost (k0 : kind) (to_retry : list DomainResult) :
  forall d seen,
    at_most (of_kind k0) (length to_retry * cost k0 true) (fun _ => True)
      (Scraper.merge_loop set_iter urljoin validate_email to_retry d seen).
Proof.
  induction to_retry as [ | r rest IH]; intros d seen;
    cbn -[Scraper.check_domain Nat.mul].
  - exact I.
  - eapply at_most_weaken
      with (n := (cost k0 true + length rest * cost k0 true)%nat)
           (Q := fun _ => True); [lia | auto | ].
    eapply at_most_bind with (Q := fun _ => True).
    + apply (check_domain_cost set_iter urljoin validate_email k0).
    + intros dr _. apply IH.
Qed.

(** Where the trace of Pass 1 comes from. *)
Lemma main_pass1_trace (lines : list string) (sched1 sched2 : list nat)
      (w : wstate Wd) rep :
  Scraper.main set_iter urljoin validate_email Wd lines sched1 sched2 w
  = Scraper.Finished rep ->
  exists ds,
    Scraper.read_domains lines = inr ds /\
    length ds = length (Scraper.results_pass1 rep) /\
    Scraper.trace_pass1 rep
    = pool_trace (as_completed Wd DomainResult sched1
                    (map (fun '(line_no, d) => check d line_no false) ds) w).
Proof.
  intros Hmain.
  destruct (main_finished set_iter urljoin validate_email Wd lines
              sched1 sched2 w rep Hmain) as (ds & Hread & Hne & Hperm & _).
  exists ds. split; [exact Hread | split].
  - apply Permutation_length in Hperm. rewrite length_map in Hperm. auto.
  - revert Hmain. unfold Scraper.main. rewrite Hread.
    destruct ds as [ | d0 ds0]; [congruence | ]. cbv zeta.
    destruct (completed (as_completed Wd DomainResult sched1 _ w))
      as [e | rs]; [discriminate | ].
    set (p2 := if Scraper.nonempty _ then _ else _).
    destruct (completed p2) as [e | l]; [discriminate | ].
    destruct (value (run Wd _ _)) as [e | [fin deep]]; [discriminate | ].
    intros H. injection H as <-. reflexivity.
Qed.

Lemma main_budget (k0 : kind) (lines : list string) (sched1 sched2 : list nat)
      (w : wstate Wd) rep :
  Scraper.main set_iter urljoin validate_email Wd lines sched1 sched2 w
  = Scraper.Finished rep ->
  (count (of_kind k0) (Scraper.trace_pass1 rep)
   <= length (Scraper.results_pass1 rep) * cost k0 false)%nat /\
  (count (of_kind k0) (Scraper.trace_retry rep)
   <= length (Scraper.to_retry rep) * cost k0 true)%nat /\
  (count (of_kind k0) (Scraper.trace_merge rep)
   <= length (Scraper.to_retry rep) * cost k0 true)%nat.
Proof.
  intros Hmain.
  destruct (main_pass1_trace lines sched1 sched2 w rep Hmain)
    as (ds & _ & Hlen & Ht0).
  destruct (main_traces set_iter urljoin validate_email Wd lines sched1 sched2
              w rep Hmain) as (_ & (w1 & Ht1 & _) & (w2 & out & Ht2 & _)).
  split; [ | split].
  - rewrite Ht0, <- Hlen. unfold as_completed.
    pose proof (pool_within (of_kind k0) Wd DomainResult sched1 _ _ w [] []
                  (within_const (of_kind k0) (cost k0 false)
                     (fun '(line_no, d) => check d line_no false) ds
                     (fun x => let '(ln, d) := x in
                               check_domain_cost set_iter urljoin
                                 validate_email k0 d ln false))) as H.
    rewrite list_sum_const in H. exact H.
  - rewrite Ht1. destruct (Scraper.nonempty (Scraper.to_retry rep)).
    + unfold as_completed.
      pose proof (pool_within (of_kind k0) Wd DomainResult sched2 _ _ w1 [] []
                    (within_const (of_kind k0) (cost k0 true)
                       (fun r => check (domain r) (line_number r) true)
                       (Scraper.to_retry rep)
                       (fun r => check_domain_cost set_iter urljoin
                                   validate_email k0 (domain r)
                                   (line_number r) true))) as H.
      rewrite list_sum_const in H. exact H.
    + cbn. lia.
  - rewrite Ht2. unfold run.
    destruct (at_most_run (of_kind k0) Wd _ _ _ w2 []
                (merge_loop_cost k0 (Scraper.to_retry rep)
                   (dict_of_results (Scraper.results_pass1 rep)) []))
      as [Hc _].
    exact Hc.
Qed.

End ScraperMainBudget.



(** ** The two tiers of [fetch_emails] *)


Lemma cleanup_email_short (s : string) :
  short s = true -> short (Scraper.cleanup_email s) = true.
Proof.
  destruct s as [ | c [ | c' s]]; [reflexivity | | discriminate].
  intros _.
  destruct c as [[] [] [] [] [] [] [] []]; vm_compute; reflexivity.
Qed.

Lemma first_or_second_short (m : string) :
  short (Scraper.first_or_second m) = true.
Proof. destruct m; reflexivity. Qed.

Section TextOnly.
Variable set_iter : list string -> list string.
Variable urljoin : string -> string -> exn + string.
Variable validate_email : string -> bool.
Hypothesis Hset : set_order set_iter.
Hypothesis Hval : forall s, short s = true -> validate_email s = false.

Lemma extract_emails_text_only (h : Html) :
  Scraper.select_mailto h = [] ->
  Forall (fun e => short e = true) (Scraper.extract_emails set_iter h).
Proof.
  intros Hm. unfold Scraper.extract_emails. rewrite Hm. simpl.
  rewrite app_nil_r. apply Forall_forall. intros e He.
  apply in_map_iff in He. destruct He as (x & <- & Hx).
  apply cleanup_email_short.
  apply (proj1 (proj2 (Hset _) _)) in Hx.
  apply in_map_iff in Hx. destruct Hx as (m & <- & _).
  apply first_or_second_short.
Qed.

Lemma short_candidates_not_found d ln (st : Scraper.loop_state) :
  Forall (fun e => short e = true) (Scraper.st_emails st) ->
  emails (Scraper.result_of set_iter validate_email d ln st) = not_found.
Proof.
  intros Hs. unfold Scraper.result_of. cbn.
  assert (Hf : filter validate_email (set_iter (Scraper.st_emails st)) = []).
  { destruct (filter validate_email (set_iter (Scraper.st_emails st)))
      as [ | e l] eqn:Hfil; [reflexivity | exfalso].
    assert (Hin : In e (filter validate_email
                          (set_iter (Scraper.st_emails st)))).
    { rewrite Hfil. now left. }
    apply filter_In in Hin. destruct Hin as [Hin Hv].
    apply (proj1 (proj2 (Hset _) _)) in Hin.
    rewrite Forall_forall in Hs. rewrite (Hval e (Hs e Hin)) in Hv.
    discriminate. }
  rewrite Hf. reflexivity.
Qed.

End TextOnly.


Lemma fixture_rejects_short (s : string) :
  short s = true -> Fixtures.validate_email s = false.
Proof.
  destruct s as [ | c [ | c' s]]; [reflexivity | | discriminate].
  intros _.
  destruct c as [[] [] [] [] [] [] [] []]; vm_compute; reflexivity.
Qed.


(** ** How [main] ends, by its input *)

Lemma scraper_read_unreadable (lines : list string) :
  existsb unreadable lines = true ->
  forall idx, Scraper.read_from idx lines = inl IndexError.
Proof.
  induction lines as [ | line rest IH]; simpl; [discriminate | ].
  intros H idx. unfold unreadable, blank in H.
  destruct (PyStr.is_empty (PyStr.strip line)); simpl in H.
  - now apply IH.
  - destruct (PyStr.split_ws _) as [ | tok toks]; [reflexivity | ].
    simpl in H. now rewrite (IH H).
Qed.

Lemma scraper_read_readable (lines : list string) :
  existsb unreadable lines = false ->
  forall idx,
    exists ds,
      Scraper.read_from idx lines = inr ds /\
      length ds = length (filter (fun l => negb (blank l)) lines).
Proof.
  induction lines as [ | line rest IH]; simpl; [eauto | ].
  intros H idx. apply orb_false_iff in H. destruct H as [Hl Hrest].
  unfold unreadable, blank in *.
  destruct (PyStr.is_empty (PyStr.strip line)); simpl in *.
  - now apply IH.
  - destruct (PyStr.split_ws _) as [ | tok toks]; [discriminate | ].
    destruct (IH Hrest (idx + 1)%Z) as (ds & -> & Hlen).
    eexists. split; [reflexivity | ]. simpl. now rewrite Hlen.
Qed.

Lemma workflow_read_unreadable (file : list string) :
  existsb unreadable file = true ->
  Workflow.read_domains file = inl IndexError.
Proof.
  unfold Workflow.read_domains, Workflow.read_lines.
  generalize 0%Z.
  induction file as [ | line rest IH]; simpl; [discriminate | ].
  intros idx H. unfold unreadable, blank in H.
  destruct (PyStr.is_empty (PyStr.strip line)); simpl in *.
  - now apply IH.
  - destruct (PyStr.split_ws _) as [ | tok toks]; [reflexivity | ].
    simpl in H. now rewrite (IH _ H).
Qed.

Lemma workflow_read_readable (file : list string) :
  existsb unreadable file = false ->
  exists ds,
    Workflow.read_domains file = inr ds /\
    length ds = length (filter (fun l => negb (blank l)) file).
Proof.
  unfold Workflow.read_domains, Workflow.read_lines.
  generalize 0%Z.
  induction file as [ | line rest IH]; simpl; [eauto | ].
  intros idx H. apply orb_false_iff in H. destruct H as [Hl Hrest].
  unfold unreadable, blank in *.
  destruct (PyStr.is_empty (PyStr.strip line)); simpl in *.
  - now apply IH.
  - destruct (PyStr.split_ws _) as [ | tok toks]; [discriminate | ].
    destruct (IH (idx + 1)%Z Hrest) as (ds & -> & Hlen).
    eexists. split; [reflexivity | ]. simpl. now rewrite Hlen.
Qed.

Lemma no_kept_line (lines : list string) :
  length (filter (fun l => negb (blank l)) lines) = 0%nat <->
  forallb blank lines = true.
Proof.
  induction lines as [ | line rest IH]; simpl; [tauto | ].
  destruct (blank line); simpl; [exact IH | ].
  split; [lia | discriminate].
Qed.



(** ** The run of the sibling script *)

(** Where the parts of a report of the sibling come from. *)
Lemma main_parts_w set_iter urljoin validate_email (Wd : World)
      (file : list string) (sched : list nat) (w : wstate Wd) rep :
  Workflow.main set_iter urljoin validate_email Wd file sched w
  = Workflow.Finished rep ->
  exists ds,
    Workflow.read_domains file = inr ds /\ ds <> [] /\
    completed (as_completed Wd DomainResult sched
                 (map (fun '(line_no, d) =>
                         Workflow.check_domain set_iter urljoin validate_email
                           d line_no) ds) w)
    = inr (Workflow.results rep) /\
    Workflow.run_trace rep
    = pool_trace (as_completed Wd DomainResult sched
                    (map (fun '(line_no, d) =>
                            Workflow.check_domain set_iter urljoin
                              validate_email d line_no) ds) w) /\
    Workflow.interim_file rep = header :: map row_of (Workflow.results rep) /\
    Workflow.output_file rep
    = header :: map row_of (sorted_by_line (Workflow.results rep)).
Proof.
  unfold Workflow.main.
  destruct (Workflow.read_domains file) as [e | [ | d0 ds]]; try discriminate.
  cbv zeta.
  destruct (completed (as_completed Wd DomainResult sched _ w))
    as [e | rs] eqn:Hc; [discriminate | ].
  intros H. injection H as <-. exists (d0 :: ds).
  split; [reflexivity | split; [discriminate | ]].
  split; [exact Hc | ]. cbn. auto.
Qed.





(** ** [cleanup_email] *)
Lemma every_app (P : ascii -> bool) (s t : string) :
  every P (s +++ t) = every P s && every P t.
Proof.
  induction s as [ | c s IH]; simpl; [reflexivity | ].
  now rewrite IH, andb_assoc.
Qed.

Lemma every_impl (P Q : ascii -> bool) (s : string) :
  (forall c, P c = true -> Q c = true) ->
  every P s = true -> every Q s = true.
Proof.
  intros H. induction s as [ | c s IH]; simpl; [reflexivity | ].
  intros Hs. apply andb_true_iff in Hs. destruct Hs as [Hc Hs].
  now rewrite (H c Hc), IH.
Qed.

(** A prefix of [s] is made of characters of [s]. *)
Lemma prefix_every (P : ascii -> bool) (p : string) :
  forall s, prefix p s = true -> every P s = true -> every P p = true.
Proof.
  induction p as [ | a p IH]; intros s; [reflexivity | ].
  destruct s as [ | b s]; simpl; [discriminate | ].
  destruct (Ascii.ascii_dec a b) as [E | Hne]; [subst b | discriminate].
  intros Hp Hs. apply andb_true_iff in Hs. destruct Hs as [Hb Hs].
  now rewrite Hb, (IH s Hp Hs).
Qed.

Lemma replace_from_absent (P : ascii -> bool) (old new : string) :
  every P old = false ->
  forall s, every P s = true -> PyStr.replace_from old new 0 s = s.
Proof.
  intros Hold. induction s as [ | c s IH]; [reflexivity | ].
  intros Hs. cbn [PyStr.replace_from].
  destruct (prefix old (String c s)) eqn:Hp.
  - rewrite (prefix_every P old _ Hp Hs) in Hold. discriminate.
  - simpl in Hs. apply andb_true_iff in Hs. destruct Hs as [_ Hs].
    now rewrite IH.
Qed.

(** [s.replace(old, new)] leaves [s] alone when [old] holds a character that
    [s] does not. *)
Lemma replace_absent (P : ascii -> bool) (old new s : string) :
  every P old = false -> every P s = true -> PyStr.replace old new s = s.
Proof.
  intros Hold Hs. unfold PyStr.replace.
  destruct old as [ | a old]; [discriminate | ].
  now apply replace_from_absent with (P := P).
Qed.

Lemma lower_plain (s : string) : every plain s = true -> PyStr.lower s = s.
Proof.
  induction s as [ | c s IH]; simpl; [reflexivity | ].
  intros H. apply andb_true_iff in H. destruct H as [Hc Hs].
  rewrite (IH Hs). f_equal.
  unfold PyStr.lower_char.
  destruct (PyStr.is_upper c) eqn:Hu; [ | reflexivity].
  exfalso. revert Hc Hu.
  destruct c as [[] [] [] [] [] [] [] []]; vm_compute; congruence.
Qed.

Lemma unquote_from_plain (s : string) :
  every plain s = true -> PyStr.unquote_from 0 s = s.
Proof.
  induction s as [ | c s IH]; [reflexivity | ].
  intros H. simpl in H. apply andb_true_iff in H. destruct H as [Hc Hs].
  cbn [PyStr.unquote_from].
  destruct (Ascii.eqb c "%"%char) eqn:E.
  - apply Ascii.eqb_eq in E. subst c. discriminate.
  - now rewrite IH.
Qed.

Lemma plain_no_space (s : string) : every plain s = true -> no_space s = true.
Proof.
  induction s as [ | c s IH]; simpl; [reflexivity | ].
  intros H. apply andb_true_iff in H. destruct H as [Hc Hs].
  rewrite (IH Hs), andb_true_r. clear IH Hs.
  destruct c as [[] [] [] [] [] [] [] []];
    try (vm_compute in Hc; discriminate Hc);
    destruct s as [ | b [ | c' s]]; reflexivity.
Qed.

Lemma strip_no_space (s : string) : no_space s = true -> PyStr.strip s = s.
Proof.
  intros H. destruct s as [ | c s]; [reflexivity | ].
  apply strip_hostname. split; [discriminate | exact H].
Qed.



(** ** What a replacement is made of *)

Lemma every_replace_from (P : ascii -> bool) (old new : string) :
  every P new = true ->
  forall s skip,
    every P s = true -> every P (PyStr.replace_from old new skip s) = true.
Proof.
  intros Hnew. induction s as [ | c s IH]; intros skip Hs; [reflexivity | ].
  simpl in Hs. apply andb_true_iff in Hs. destruct Hs as [Hc Hs].
  cbn [PyStr.replace_from]. destruct skip as [ | k]; [ | now apply IH].
  destruct (prefix old (String c s)).
  - rewrite every_app, Hnew. now apply IH.
  - simpl. rewrite Hc. now apply IH.
Qed.

Lemma every_replace_empty (P : ascii -> bool) (new : string) :
  every P new = true ->
  forall s, every P s = true -> every P (PyStr.replace_empty new s) = true.
Proof.
  intros Hnew. induction s as [ | c s IH]; intros Hs; simpl; [exact Hnew | ].
  simpl in Hs. apply andb_true_iff in Hs. destruct Hs as [Hc Hs].
  rewrite every_app, Hnew. simpl. rewrite Hc. now apply IH.
Qed.

Lemma every_replace (P : ascii -> bool) (old new s : string) :
  every P new = true -> every P s = true ->
  every P (PyStr.replace old new s) = true.
Proof.
  intros Hnew Hs. unfold PyStr.replace. destruct old.
  - now apply every_replace_empty.
  - now apply every_replace_from.
Qed.

Lemma lower_no_upper (s : string) :
  every (fun c => negb (PyStr.is_upper c)) (PyStr.lower s) = true.
Proof.
  induction s as [ | c s IH]; simpl; [reflexivity | ].
  rewrite IH, andb_true_r. unfold PyStr.lower_char.
  destruct c as [[] [] [] [] [] [] [] []]; vm_compute; reflexivity.
Qed.

Lemma remove_blanks (s : string) :
  every (fun c => negb (PyStr.is_upper c)) s = true ->
  every tidy (PyStr.replace " " EmptyString s) = true.
Proof.
  unfold PyStr.replace.
  induction s as [ | c s IH]; [reflexivity | ].
  intros Hs. simpl in Hs. apply andb_true_iff in Hs. destruct Hs as [Hc Hs].
  cbn [PyStr.replace_from String.length Nat.sub].
  destruct (prefix " " (String c s)) eqn:Hp.
  - cbn [String.append]. now apply IH.
  - cbn [every]. rewrite (IH Hs), andb_true_r.
    unfold tidy. rewrite Hc. simpl.
    destruct (Ascii.eqb c " "%char) eqn:E; [ | reflexivity].
    apply Ascii.eqb_eq in E. subst c. simpl in Hp.
    destruct s; discriminate.
Qed.


(** ** What a mailto link yields *)
Lemma split_char_nonempty (sep : ascii) (s : string) :
  PyStr.split_char sep s <> [].
Proof.
  destruct s as [ | c s]; simpl; [discriminate | ].
  destruct (Ascii.eqb c sep); [discriminate | ].
  destruct (PyStr.split_char sep s); discriminate.
Qed.

Lemma hd_split_char_app (sep : ascii) (a t : string) :
  free_of sep a = true ->
  hd EmptyString (PyStr.split_char sep (a +++ t))
  = a +++ hd EmptyString (PyStr.split_char sep t).
Proof.
  unfold free_of. induction a as [ | c a IH]; simpl; [reflexivity | ].
  intros H. apply andb_true_iff in H. destruct H as [Hc Ha].
  apply negb_true_iff in Hc. rewrite Hc.
  specialize (IH Ha).
  destruct (PyStr.split_char sep (a +++ t)) as [ | x xs] eqn:E.
  - exfalso. eapply split_char_nonempty, E.
  - simpl in *. now rewrite IH.
Qed.

Lemma hd_split_char_free (sep : ascii) (a : string) :
  free_of sep a = true -> hd EmptyString (PyStr.split_char sep a) = a.
Proof.
  intros H. pose proof (hd_split_char_app sep a EmptyString H) as E.
  assert (Ha : a +++ EmptyString = a).
  { clear. induction a as [ | c a IH]; simpl; [reflexivity | now rewrite IH]. }
  rewrite Ha in E. rewrite E. simpl. exact Ha.
Qed.

Lemma split_char_once_app (sep : ascii) (a t : string) :
  free_of sep a = true ->
  PyStr.split_char_once sep (a +++ String sep t) = [a; t].
Proof.
  unfold free_of. induction a as [ | c a IH]; simpl.
  - now rewrite Ascii.eqb_refl.
  - intros H. apply andb_true_iff in H. destruct H as [Hc Ha].
    apply negb_true_iff in Hc. now rewrite Hc, (IH Ha).
Qed.

Lemma lower_app (a b : string) :
  PyStr.lower (a +++ b) = PyStr.lower a +++ PyStr.lower b.
Proof. induction a as [ | c a IH]; simpl; [reflexivity | now rewrite IH]. Qed.

(** A character that is not a letter is in [s.lower()] exactly where it is
    in [s]. *)
Lemma free_of_lower (sep : ascii) (s : string) :
  PyStr.is_alpha sep = false ->
  free_of sep (PyStr.lower s) = free_of sep s.
Proof.
  intros Hsep. apply orb_false_iff in Hsep. destruct Hsep as [Hup Hlo].
  unfold free_of.
  induction s as [ | c s IH]; simpl; [reflexivity | ].
  rewrite IH. f_equal. f_equal. unfold PyStr.lower_char.
  destruct (PyStr.is_upper c) eqn:Hu; [ | reflexivity].
  assert (H1 : Ascii.eqb c sep = false).
  { apply Ascii.eqb_neq. intros ->. congruence. }
  rewrite H1. apply Ascii.eqb_neq. intros E.
  assert (Hl : PyStr.is_lower sep = true).
  { rewrite <- E. clear -Hu.
    destruct c as [[] [] [] [] [] [] [] []]; vm_compute in Hu |- *;
      congruence. }
  congruence.
Qed.

Lemma opens_with_hd (l : string) (sep : ascii) (s : string) :
  Re.one_of l sep = true ->
  (forall c, Re.one_of l c = true -> c = sep) ->
  opens_with l s = true ->
  hd EmptyString (PyStr.split_char sep s) = EmptyString.
Proof.
  intros _ Honly. destruct s as [ | c s]; simpl; [reflexivity | ].
  intros Hc. rewrite (Honly c Hc), Ascii.eqb_refl. reflexivity.
Qed.



(** ** The extractor and the row of the sibling script *)

Lemma insert_sorted_perm (x : string) (l : list string) :
  Permutation (PyStr.insert_sorted x l) (x :: l).
Proof.
  induction l as [ | y l IH]; simpl; [reflexivity | ].
  destruct (String.leb x y); [reflexivity | ].
  rewrite IH. apply perm_swap.
Qed.

Lemma sorted_perm (l : list string) : Permutation (PyStr.sorted l) l.
Proof.
  induction l as [ | x l IH]; simpl; [reflexivity | ].
  rewrite insert_sorted_perm. now constructor.
Qed.

Lemma insert_sorted_ascending (x : string) (l : list string) :
  ascending l -> ascending (PyStr.insert_sorted x l).
Proof.
  unfold ascending. induction l as [ | y l IH]; simpl; intros H.
  - repeat constructor.
  - inversion H as [ | ? ? Hl Hy]; subst.
    destruct (String.leb x y) eqn:Hxy.
    + constructor; [exact H | now constructor].
    + constructor; [now apply IH | ].
      assert (Hyx : String.leb y x = true).
      { destruct (String.leb_total x y) as [E | E]; [congruence | exact E]. }
      destruct l as [ | z l]; simpl.
      * now constructor.
      * destruct (String.leb x z); constructor; [exact Hyx | ].
        now inversion Hy.
Qed.

Lemma sorted_ascending (l : list string) : ascending (PyStr.sorted l).
Proof.
  induction l as [ | x l IH]; simpl; [constructor | ].
  now apply insert_sorted_ascending.
Qed.

Section WorkflowExtract.
Variable set_iter : list string -> list string.
Variable validate_email : string -> bool.
Hypothesis Hset : set_order set_iter.

Lemma scan_sound (h : Html) :
  NoDup (Workflow.scan set_iter validate_email h) /\
  (forall e,
      In e (Workflow.scan set_iter validate_email h) <->
      validate_email e = true /\
      exists c, In c (found_in h) /\ e = Workflow.cleanup_email c).
Proof.
  unfold Workflow.scan. cbv zeta. split; [apply Hset | ].
  intros e. split.
  - intros He. apply (proj1 (proj2 (Hset _) _)) in He.
    apply filter_In in He. destruct He as [He Hv]. split; [exact Hv | ].
    apply in_map_iff in He. destruct He as (c & <- & Hc).
    apply (proj1 (proj2 (Hset _) _)) in Hc.
    exists c. auto.
  - intros (Hv & c & Hc & ->).
    apply (proj2 (proj2 (Hset _) _)). apply filter_In. split; [ | exact Hv].
    apply in_map. apply (proj2 (proj2 (Hset _) _)). exact Hc.
Qed.

End WorkflowExtract.





(** ** The pages discovery returns *)

(** What [collect] gathers when no step raises. *)
Lemma collect_In {X Y : Type} (f : X -> exn + list Y) (l : list X) :
  forall zs,
    collect f l = inr zs ->
    forall z,
      In z zs <-> exists x ys, In x l /\ f x = inr ys /\ In z ys.
Proof.
  induction l as [ | x l IH]; simpl; intros zs H z.
  - injection H as <-. split; [intros [] | intros (x & ys & [] & _)].
  - destruct (f x) as [e | ys] eqn:Hx; [discriminate | ].
    destruct (collect f l) as [e | zs'] eqn:Hl; [discriminate | ].
    injection H as <-. rewrite in_app_iff, (IH zs' eq_refl z). split.
    + intros [Hz | (x' & ys' & Hin & Hf & Hz)].
      * exists x, ys. auto.
      * exists x', ys'. auto.
    + intros (x' & ys' & [<- | Hin] & Hf & Hz).
      * left. congruence.
      * right. exists x', ys'. auto.
Qed.

Lemma collect_defined {X Y : Type} (f : X -> exn + list Y) (l : list X) :
  forall zs,
    collect f l = inr zs ->
    forall x, In x l -> exists ys, f x = inr ys.
Proof.
  induction l as [ | x0 l IH]; simpl; intros zs H x Hx; [destruct Hx | ].
  destruct (f x0) as [e | ys] eqn:Hx0; [discriminate | ].
  destruct (collect f l) as [e | zs'] eqn:Hl; [discriminate | ].
  destruct Hx as [<- | Hx]; [eauto | ].
  eapply IH; eauto.
Qed.

Lemma relevant_links_collected urljoin base_url (h : Html) ls (p : string) :
  Scraper.relevant_links urljoin base_url h = inr ls ->
  In p ls <-> collected urljoin base_url h p.
Proof.
  unfold Scraper.relevant_links, collected.
  destruct (collect (Scraper.section_links urljoin base_url h) _)
    as [e | from_sections] eqn:Hs; [discriminate | ].
  destruct (Scraper.keyword_links urljoin base_url h)
    as [e | from_keywords] eqn:Hk; [discriminate | ].
  intros E. injection E as <-. rewrite in_app_iff.
  rewrite (collect_In _ _ _ Hs p).
  unfold Scraper.keyword_links in Hk. rewrite (collect_In _ _ _ Hk p).
  split.
  - intros [(tag & ys & Htag & Hf & Hp) | (a & ys & Ha & Hf & Hp)].
    + left. unfold Scraper.section_links in Hf.
      destruct (find_section h tag) as [hrefs | ] eqn:Hfs.
      * apply (collect_In _ _ _ Hf p) in Hp.
        destruct Hp as (a & ys' & Ha & Hfa & Hp).
        destruct (PyStr.is_empty (PyStr.strip a)) eqn:He.
        { injection Hfa as <-. destruct Hp. }
        unfold Scraper.add_joined in Hfa.
        destruct (urljoin base_url (PyStr.strip a)) as [e | u] eqn:Hu;
          [discriminate | ].
        injection Hfa as <-. destruct Hp as [<- | []].
        exists tag, hrefs, a. repeat split; auto.
        intros E. rewrite E in He. discriminate.
      * injection Hf as <-. destruct Hp.
    + right. cbv zeta in Hf.
      destruct (existsb _ Scraper.keywords) eqn:Hkw.
      * unfold Scraper.add_joined in Hf.
        destruct (urljoin base_url (PyStr.lower (PyStr.strip a)))
          as [e | u] eqn:Hu; [discriminate | ].
        injection Hf as <-. destruct Hp as [<- | []]. exists a. auto.
      * injection Hf as <-. destruct Hp.
  - intros [(tag & hrefs & a & Htag & Hf & Ha & Hne & Hu) | (a & Ha & Hkw & Hu)].
    + left.
      destruct (collect_defined _ _ _ Hs tag Htag) as [ys Hys].
      exists tag, ys. split; [exact Htag | split; [exact Hys | ]].
      unfold Scraper.section_links in Hys. rewrite Hf in Hys.
      apply (collect_In _ _ _ Hys p).
      exists a, [p]. split; [exact Ha | split; [ | now left]].
      cbv zeta. destruct (PyStr.strip a) eqn:Hst; [congruence | ].
      cbn [PyStr.is_empty]. unfold Scraper.add_joined. now rewrite Hu.
    + right. exists a, [p]. split; [exact Ha | split; [ | now left]].
      cbv zeta. rewrite Hkw. unfold Scraper.add_joined. now rewrite Hu.
Qed.

Lemma links_collected urljoin base_url (h : Html) ls (p : string) :
  Workflow.links urljoin base_url h = inr ls ->
  In p ls <-> collected_w urljoin base_url h p.
Proof.
  unfold Workflow.links, collected_w.
  destruct (collect _ (anchors h)) as [e | found] eqn:Hc; [discriminate | ].
  intros E. injection E as <-. rewrite in_app_iff.
  rewrite (collect_In _ _ _ Hc p). split.
  - intros [(a & ys & Ha & Hf & Hp) | [<- | []]]; [ | now left].
    right. cbv zeta in Hf.
    destruct (existsb _ Workflow.keywords) eqn:Hk.
    + unfold Workflow.add_joined in Hf.
      destruct (urljoin base_url a) as [e | u] eqn:Hu; [discriminate | ].
      injection Hf as <-. destruct Hp as [<- | []]. exists a. auto.
    + injection Hf as <-. destruct Hp.
  - intros [-> | (a & Ha & Hk & Hu)]; [right; now left | ].
    left. exists a, [p]. split; [exact Ha | split; [ | now left]].
    cbv zeta. rewrite Hk. unfold Workflow.add_joined. now rewrite Hu.
Qed.

Lemma In_firstn {X : Type} (n : nat) (l : list X) (x : X) :
  In x (firstn n l) -> In x l.
Proof.
  revert n. induction l as [ | y l IH]; intros n; destruct n; simpl;
    try tauto.
  intros [E | H]; [now left | right; eapply IH, H].
Qed.

Lemma NoDup_firstn {X : Type} (n : nat) (l : list X) :
  NoDup l -> NoDup (firstn n l).
Proof.
  revert n. induction l as [ | x l IH]; intros n H; destruct n; simpl;
    try constructor.
  - inversion H; subst. intros Hin. apply In_firstn in Hin. contradiction.
  - inversion H; subst. now apply IH.
Qed.

Lemma firstn_all_short {X : Type} (n : nat) (l : list X) :
  (length l <= n)%nat -> firstn n l = l.
Proof. intros H. now apply firstn_all2. Qed.





(** ** Recorded responses: the schedule does not show *)


Section WorkflowOracle.
Variable set_iter : list string -> list string.
Variable urljoin : string -> string -> exn + string.
Variable validate_email : string -> bool.
Variable o : Oracle.

Local Notation "'check'" :=
  (Workflow.check_domain set_iter urljoin validate_email).
Local Notation "'checked_'" := (checked_w set_iter urljoin validate_email o).
Local Notation "'completes_'" :=
  (completes_w set_iter urljoin validate_email o).

Lemma tasks_values_w (ds : list (Z * string)) :
  if forallb (fun '(line_no, h) => completes_ h line_no) ds
  then map (denote o) (map (fun '(line_no, d) => check d line_no) ds)
       = map inr (map (fun '(line_no, d) => checked_ d line_no) ds)
  else exists e,
         In (inl e)
            (map (denote o) (map (fun '(line_no, d) => check d line_no) ds)).
Proof.
  induction ds as [ | [ln d] ds IH]; cbn -[Workflow.check_domain];
    [reflexivity | ].
  unfold completes_w at 1, checked_w at 1.
  destruct (denote o (check d ln)) as [e | r]; cbn -[Workflow.check_domain].
  - exists e. now left.
  - destruct (forallb _ ds).
    + now rewrite IH.
    + destruct IH as [e He]. exists e. now right.
Qed.

Lemma main_written_oracle_w (file : list string) (sched : list nat) :
  written_w (Workflow.main set_iter urljoin validate_email (world_of o) file
               sched tt)
  = match Workflow.read_domains file with
    | inr (d :: ds) =>
        settled_file_w set_iter urljoin validate_email o (d :: ds)
    | _ => None
    end.
Proof.
  destruct (Workflow.main set_iter urljoin validate_email (world_of o) file
              sched tt) as [e | | rep] eqn:Hmain.
  - revert Hmain. unfold Workflow.main.
    destruct (Workflow.read_domains file) as [e' | [ | d0 ds0]];
      [reflexivity | discriminate | ].
    cbv zeta. unfold as_completed.
    pose proof (pool_values o DomainResult sched
                  (map (fun '(line_no, d) => check d line_no) (d0 :: ds0))
                  tt [] []) as Hp.
    pose proof (tasks_values_w (d0 :: ds0)) as Hv.
    destruct (completed (pool (world_of o) DomainResult sched _ tt [] []))
      as [e' | rs]; [ | discriminate].
    intros _. unfold settled_file_w.
    destruct (forallb _ (d0 :: ds0)); [ | reflexivity].
    rewrite Hv in Hp. apply in_map_iff in Hp.
    destruct Hp as (r & Hr & _). discriminate.
  - revert Hmain. unfold Workflow.main.
    destruct (Workflow.read_domains file) as [e' | [ | d0 ds0]];
      [discriminate | reflexivity | ].
    cbv zeta.
    destruct (completed (as_completed (world_of o) DomainResult sched _ tt));
      discriminate.
  - destruct (main_finished_w set_iter urljoin validate_email (world_of o)
                file sched tt rep Hmain)
      as (ds & Hread & Hne & Hperm & _ & Hout).
    destruct (main_parts_w set_iter urljoin validate_email (world_of o) file
                sched tt rep Hmain) as (ds' & Hread' & _ & Hc & _).
    rewrite Hread in Hread'. injection Hread' as <-.
    rewrite Hread. destruct ds as [ | d0 ds0]; [congruence | ].
    set (ds := d0 :: ds0) in *.
    cbn [written_w]. rewrite Hout. unfold settled_file_w.
    pose proof (pool_values o DomainResult sched
                  (map (fun '(line_no, d) => check d line_no) ds)
                  tt [] []) as Hp.
    unfold as_completed in Hc. rewrite Hc in Hp.
    destruct Hp as (rs & Hrs & Hp). simpl in Hrs. subst rs.
    pose proof (tasks_values_w ds) as Hv.
    destruct (forallb _ ds).
    + do 3 f_equal. rewrite Hv in Hp.
      destruct (workflow_read_from _ 0 ds Hread) as (_ & _ & Hinc).
      apply sorted_by_line_order_free; [ | eapply keys_NoDup; eauto].
      destruct (Permutation_map_inv _ _ (Permutation_sym Hp))
        as (l & Hl & Hpl).
      apply map_inr_inj in Hl. subst l. now symmetry.
    + exfalso. destruct Hv as [e He].
      assert (Hin : In (inl e) (map inr (Workflow.results rep))).
      { eapply Permutation_in; [symmetry; exact Hp | exact He]. }
      apply in_map_iff in Hin. destruct Hin as (r & Hr & _). discriminate.
Qed.

End WorkflowOracle.



